(** * pydrivedol: the path-keyed store over a Google Drive folder

    A shallow embedding of [pydrivedol/base.py] ([GDReader], [GDStore])
    and the properties of its traversal, its cached path index, its
    write-path folder resolution and its read / write / delete operations;
    then of the URL helpers, of the download without the API ([get_bytes]),
    of the constructor and of [get_url].

    The remote backend (PyDrive2's [GoogleDrive] object) is not part of the
    repository.  It is modelled in [Module Drive] as an in-memory table of
    nodes answering exactly the calls the source makes: [ListFile], the
    upload of a new or of an existing node, [GetContentString] and
    [Delete].  Every remote call is recorded in a log, so that statements
    about "which backend calls were made" can be expressed.

    What the model leaves out: transport failures (a call either answers or
    reports an unknown identity), the rendering of a query as text (the
    three queries of the source are taken as records, so a quote inside a
    name plays no role), and the order of a listing, which is fixed here:
    nodes are listed in the order they were created.  A traversal that
    would never end (a cycle of folders) is a traversal for which no amount
    of fuel is enough. *)

From Stdlib Require Import ZArith Ascii String List NArith.
From Stdlib.Strings Require Import Byte.
From stdpp Require Import base option list gmap strings.

Local Open Scope string_scope.
Local Open Scope Z_scope.

(** ** Python strings, bytes and paths *)

Module Py.

(** A Python [str] holding file content: its code points. *)
Definition pystr := list N.

(** A Python [bytes] object. *)
Definition bytes := list byte.

(** [b.decode('latin-1')]: every byte is the code point of the same
    value; it never fails. *)
Definition decode_latin1 (b : bytes) : pystr := map Byte.to_N b.

(** [s.encode('latin-1')]: fails (UnicodeEncodeError) at a code point
    above 255. *)
Fixpoint encode_latin1 (s : pystr) : option bytes :=
  match s with
  | [] => Some []
  | c :: s' =>
      match Byte.of_N c, encode_latin1 s' with
      | Some b, Some bs => Some (b :: bs)
      | _, _ => None
      end
  end.

(** [name.startswith('.')]. *)
Definition startswith_dot (name : string) : bool :=
  match name with
  | String c _ => Ascii.eqb c "."%char
  | EmptyString => false
  end.

Definition startswith_slash (name : string) : bool :=
  match name with
  | String c _ => Ascii.eqb c "/"%char
  | EmptyString => false
  end.

Fixpoint endswith_slash (s : string) : bool :=
  match s with
  | EmptyString => false
  | String c EmptyString => Ascii.eqb c "/"%char
  | String _ s' => endswith_slash s'
  end.

(** [bool(s)] of a string: non-empty. *)
Definition truthy (s : string) : bool :=
  match s with EmptyString => false | _ => true end.

(** [os.path.join(a, b)] of posixpath, for two components. *)
Definition os_path_join (a b : string) : string :=
  if startswith_slash b then b
  else if negb (truthy a) || endswith_slash a then a +:+ b
  else a +:+ "/" +:+ b.

(** [s.split('/')]: never empty; the empty string gives [['']]. *)
Fixpoint split_slash (s : string) : list string :=
  match s with
  | EmptyString => [EmptyString]
  | String c s' =>
      if Ascii.eqb c "/"%char then EmptyString :: split_slash s'
      else match split_slash s' with
           | h :: t => String c h :: t
           | [] => [String c EmptyString]
           end
  end.

(** [os.path.basename(p)] of posixpath: what follows the last ['/']. *)
Fixpoint os_path_basename (p : string) : string :=
  match p with
  | EmptyString => EmptyString
  | String c p' =>
      if Ascii.eqb c "/"%char then os_path_basename p'
      else if existsb (Ascii.eqb "/"%char) (list_ascii_of_string p')
           then os_path_basename p'
           else p
  end.

(** [dict(pairs)]: later pairs overwrite earlier ones. *)
Definition dict {V} (pairs : list (string * V)) : gmap string V :=
  fold_left (fun m kv => <[fst kv := snd kv]> m) pairs ∅.

(** The values a caller can hand to [__setitem__]. *)
Inductive value :=
| VBytes (b : bytes)
| VStr (s : string)
| VByteArray (b : bytes)
| VInt (n : Z)
| VNone.

(** [isinstance(value, bytes)]. *)
Definition isinstance_bytes (v : value) : bool :=
  match v with VBytes _ => true | _ => false end.

End Py.

(** ** Regular expressions

    The fragment of Python's [re] the source uses, with Python's
    backtracking semantics: quantifiers are greedy and give back one
    character at a time; [re.search] tries the start positions from left to
    right.  Every pattern of the source ends with its only group, of the
    form [([^c]+)], so a pattern is what comes before the group and the
    class of the group.  A URL is a string of 8-bit characters. *)

Module Re.

Definition cls := ascii -> bool.

Inductive re :=
| Lit (s : string)
| Star (c : cls)
| Plus (c : cls)
| Opt (r : re)
| Seq (r1 r2 : re).

(** What is left of [s] after the literal [l]. *)
Fixpoint lit (l s : string) : option string :=
  match l, s with
  | EmptyString, _ => Some s
  | String a l', String b s' => if Ascii.eqb a b then lit l' s' else None
  | String _ _, EmptyString => None
  end.

(** [c*], then the continuation [k]: the longest run first. *)
Fixpoint star {A} (c : cls) (s : string) (k : string -> option A)
  : option A :=
  match s with
  | String a s' =>
      if c a then
        match star c s' k with
        | Some x => Some x
        | None => k s
        end
      else k s
  | EmptyString => k s
  end.

(** Matching [r] at the start of [s], then [k] on what is left. *)
Fixpoint exec {A} (r : re) (s : string) (k : string -> option A)
  : option A :=
  match r with
  | Lit l => match lit l s with Some rest => k rest | None => None end
  | Star c => star c s k
  | Plus c =>
      match s with
      | String a s' => if c a then star c s' k else None
      | EmptyString => None
      end
  | Opt r' => match exec r' s k with Some x => Some x | None => k s end
  | Seq r1 r2 => exec r1 s (fun s1 => exec r2 s1 k)
  end.

(** The longest prefix of [s] made of characters of [c]. *)
Fixpoint run (c : cls) (s : string) : string :=
  match s with
  | String a s' => if c a then String a (run c s') else EmptyString
  | EmptyString => EmptyString
  end.

(** The final group [([c]+)]: at least one character, as many as there
    are. *)
Definition group (c : cls) (s : string) : option string :=
  match run c s with
  | EmptyString => None
  | g => Some g
  end.

Record pattern := Pattern { before : re; inside : cls }.

Definition match_at (p : pattern) (s : string) : option string :=
  exec (before p) s (group (inside p)).

(** [re.search(p, s)], then [.group(1)]. *)
Fixpoint search (p : pattern) (s : string) : option string :=
  match match_at p s with
  | Some g => Some g
  | None =>
      match s with
      | String _ s' => search p s'
      | EmptyString => None
      end
  end.

Definition is_not (a : ascii) : cls := fun b => negb (Ascii.eqb b a).

(** [.]: any character but a newline. *)
Definition dot : cls := is_not "010"%char.

(** [\d] *)
Definition digit : cls :=
  fun b => (48 <=? nat_of_ascii b)%nat && (nat_of_ascii b <=? 57)%nat.

(** Every character of [s] is of the class [c]. *)
Fixpoint all (c : cls) (s : string) : bool :=
  match s with
  | String a s' => c a && all c s'
  | EmptyString => true
  end.

(** [l in s]: the literal [l] occurs in [s]. *)
Fixpoint occurs (l s : string) : bool :=
  match lit l s with
  | Some _ => true
  | None =>
      match s with
      | String _ s' => occurs l s'
      | EmptyString => false
      end
  end.

(** What [star] does once the longest run [x] has failed: it gives back
    the characters of [x] one at a time, the last one first. *)
Fixpoint retry {A} (x s : string) (k : string -> option A) : option A :=
  match x with
  | EmptyString => None
  | String a x' =>
      match retry x' s k with
      | Some r => Some r
      | None => k (String a x' +:+ s)
      end
  end.

(** The characters of the identities Drive hands out: letters, digits,
    ['-'] and ['_']. *)
Definition id_char : cls :=
  fun b =>
    let n := nat_of_ascii b in
    ((48 <=? n) && (n <=? 57) || (65 <=? n) && (n <=? 90)
     || (97 <=? n) && (n <=? 122) || (n =? 45) || (n =? 95))%nat.

End Re.

(** [drive\.google\.com/file/d/([^/]+)] *)
Definition file_pattern_d : Re.pattern :=
  Re.Pattern (Re.Lit "drive.google.com/file/d/") (Re.is_not "/"%char).

(** [drive\.google\.com/open\?id=([^&]+)] *)
Definition file_pattern_open : Re.pattern :=
  Re.Pattern (Re.Lit "drive.google.com/open?id=") (Re.is_not "&"%char).

(** [drive\.google\.com/uc\?.*id=([^&]+)] *)
Definition file_pattern_uc : Re.pattern :=
  Re.Pattern (Re.Seq (Re.Lit "drive.google.com/uc?")
                     (Re.Seq (Re.Star Re.dot) (Re.Lit "id=")))
             (Re.is_not "&"%char).

(** [_extract_file_id]: the first pattern that is found gives the id. *)
Definition _extract_file_id (url : string) : option string :=
  match Re.search file_pattern_d url with
  | Some g => Some g
  | None =>
      match Re.search file_pattern_open url with
      | Some g => Some g
      | None => Re.search file_pattern_uc url
      end
  end.

(** [drive\.google\.com/drive/(?:u/\d+/)?folders/([^?]+)] *)
Definition folder_pattern : Re.pattern :=
  Re.Pattern
    (Re.Seq (Re.Lit "drive.google.com/drive/")
            (Re.Seq (Re.Opt (Re.Seq (Re.Lit "u/")
                                    (Re.Seq (Re.Plus Re.digit) (Re.Lit "/"))))
                    (Re.Lit "folders/")))
    (Re.is_not "?"%char).

(** [_extract_folder_id] *)
Definition _extract_folder_id (url : string) : option string :=
  Re.search folder_pattern url.

(** A pattern that starts with the literal [drive.google.com/]. *)
Definition needs_host (p : Re.pattern) : Prop :=
  forall t, Re.lit "drive.google.com/" t = None -> Re.match_at p t = None.

(** What may follow an identity in a URL for the search to pass over it:
    nothing, or a character that is neither ['.'] nor a letter of
    [drive]. *)
Definition passable (rest : string) : Prop :=
  match rest with
  | EmptyString => True
  | String a _ =>
      Ascii.eqb "."%char a = false /\ Re.all (Re.is_not a) "drive" = true
  end.

(** ** The remote backend *)

Module Drive.

(** Node identities are opaque handles; the model draws them from a
    counter, so that a newly created node gets an identity no node has. *)
Definition ident := nat.

Definition FOLDER_MIME : string := "application/vnd.google-apps.folder".
Definition FILE_MIME : string := "application/octet-stream".

(** What [GetContentString] hands back for a node: PyDrive2 returns a
    [str]; the source also accepts a backend that returns [bytes]. *)
Inductive content :=
| CStr (s : Py.pystr)
| CBytes (b : Py.bytes).

Record item := Item {
  item_id : ident;
  item_title : string;
  item_mimeType : string;
  item_parent : ident;
  item_trashed : bool;
  item_content : content
}.

(** The three queries of the source, all with [trashed=false]:
    ['P' in parents], optionally [title='T'], optionally [mimeType='M']. *)
Record query := Query {
  q_parent : ident;
  q_title : option string;
  q_mimeType : option string
}.

(** The remote calls. *)
Inductive call :=
| CallList (q : query)
| CallInsert (parent : ident) (title mime : string)
| CallUpdate (i : ident)
| CallGetContent (i : ident)
| CallDelete (i : ident).

Record drive := Mk {
  items : list item;
  next_id : ident;
  log : list call
}.

Definition opt_eqb (o : option string) (s : string) : bool :=
  match o with
  | None => true
  | Some t => String.eqb t s
  end.

Definition matches (q : query) (it : item) : bool :=
  Nat.eqb (item_parent it) (q_parent q)
  && negb (item_trashed it)
  && opt_eqb (q_title q) (item_title it)
  && opt_eqb (q_mimeType q) (item_mimeType it).

Definition is_list (c : call) : bool :=
  match c with CallList _ => true | _ => false end.

(** Number of [ListFile] calls made so far. *)
Definition list_calls (d : drive) : nat :=
  length (List.filter is_list (log d)).

Definition record (c : call) (d : drive) : drive :=
  Mk (items d) (next_id d) (log d ++ [c]).

(** [drive.ListFile({'q': q}).GetList()]: the matching nodes, in the
    backend's listing order. *)
Definition ListFile (q : query) (d : drive) : list item * drive :=
  (List.filter (matches q) (items d), record (CallList q) d).

(** [Upload()] of a handle made by [CreateFile] without an id: a new
    node is created, listed after the existing ones. *)
Definition upload_new (parent : ident) (title mime : string)
           (c : content) (d : drive) : ident * drive :=
  let i := next_id d in
  (i, Mk (items d ++ [Item i title mime parent false c]) (S i)
         (log d ++ [CallInsert parent title mime])).

Definition set_content (i : ident) (c : content) (it : item) : item :=
  if Nat.eqb (item_id it) i
  then Item (item_id it) (item_title it) (item_mimeType it)
            (item_parent it) (item_trashed it) c
  else it.

(** [Upload()] of a handle taken from a listing, after
    [SetContentString]: the node keeps its metadata and gets the content. *)
Definition upload_existing (i : ident) (c : content) (d : drive) : drive :=
  Mk (map (set_content i c) (items d)) (next_id d)
     (log d ++ [CallUpdate i]).

Definition has_id (i : ident) (it : item) : bool := Nat.eqb (item_id it) i.

(** [CreateFile({'id': i}).GetContentString(...)]: [None] is the
    backend's error for an identity it does not know. *)
Definition GetContentString (i : ident) (d : drive)
  : option content * drive :=
  (item_content <$> List.find (has_id i) (items d),
   record (CallGetContent i) d).

(** [CreateFile({'id': i}).Delete()]: the node is removed for good;
    [false] is the backend's error for an identity it does not know. *)
Definition Delete (i : ident) (d : drive) : bool * drive :=
  (existsb (has_id i) (items d),
   Mk (List.filter (fun it => negb (has_id i it)) (items d)) (next_id d)
      (log d ++ [CallDelete i])).

End Drive.

Import Drive.

(** ** GDReader and GDStore *)

(** The instance: its configuration, the backend it talks to and the
    cached path index ([None] when there is none). *)
Record GDStore := MkStore {
  folder_id : ident;
  max_levels : option Z;
  include_hidden : bool;
  _drive : drive;
  _file_cache : option (gmap string ident)
}.

Definition with_drive (self : GDStore) (d : drive) : GDStore :=
  MkStore (folder_id self) (max_levels self) (include_hidden self) d
          (_file_cache self).

Definition with_cache (self : GDStore) (c : option (gmap string ident))
  : GDStore :=
  MkStore (folder_id self) (max_levels self) (include_hidden self)
          (_drive self) c.

Inductive exn :=
| KeyError (key : string)
| TypeError
| UnicodeEncodeError
| ApiRequestError.

Inductive result (A : Type) :=
| Return (a : A)
| Raise (e : exn).
Arguments Return {A} a.
Arguments Raise {A} e.

(** A method of the instance: from a state, either it does not come back
    (the traversal recursion never ends: [None]), or it returns or raises,
    leaving a state. *)
Definition M (A : Type) : Type := GDStore -> option (result A * GDStore).

Definition ret {A} (a : A) : M A := fun s => Some (Return a, s).
Definition raise {A} (e : exn) : M A := fun s => Some (Raise e, s).
Definition bind {A B} (m : M A) (k : A -> M B) : M B :=
  fun s =>
    match m s with
    | None => None
    | Some (Raise e, s') => Some (Raise e, s')
    | Some (Return a, s') => k a s'
    end.

Notation "'let*' x ':=' m 'in' k" := (bind m (fun x => k))
  (at level 10, x name, m at level 100, k at level 200).

(** A backend call that cannot fail, run on [self._drive]. *)
Definition on_drive {A} (f : drive -> A * drive) : M A :=
  fun s => let '(a, d) := f (_drive s) in Some (Return a, with_drive s d).

Section Traversal.

Variable max_levels_ : option Z.
Variable include_hidden_ : bool.

(** [self.max_levels is not None and level > self.max_levels] *)
Definition cutoff (level : Z) : bool :=
  match max_levels_ with
  | None => false
  | Some m => Z.ltb m level
  end.

(** [self.max_levels is None or level < self.max_levels] *)
Definition may_descend (level : Z) : bool :=
  match max_levels_ with
  | None => true
  | Some m => Z.ltb level m
  end.

(** [not self.include_hidden and name.startswith('.')] *)
Definition skipped (name : string) : bool :=
  negb include_hidden_ && Py.startswith_dot name.

(** [os.path.join(prefix, name) if prefix else name] *)
Definition item_path (prefix name : string) : string :=
  if Py.truthy prefix then Py.os_path_join prefix name else name.

Definition is_folder (it : item) : bool :=
  String.eqb (item_mimeType it) FOLDER_MIME.

(** The [for item in file_list] loop of [_list_files]; [rec] is the
    recursive call. *)
Fixpoint for_items
         (rec : ident -> string -> Z -> drive
                -> option (list (string * ident) * drive))
         (prefix : string) (level : Z) (file_list : list item) (d : drive)
  : option (list (string * ident) * drive) :=
  match file_list with
  | [] => Some ([], d)
  | it :: rest =>
      let name := item_title it in
      if skipped name then for_items rec prefix level rest d
      else
        let path := item_path prefix name in
        if is_folder it then
          if may_descend level then
            match rec (item_id it) path (level + 1) d with
            | None => None
            | Some (ys, d1) =>
                match for_items rec prefix level rest d1 with
                | None => None
                | Some (zs, d2) => Some ((ys ++ zs)%list, d2)
                end
            end
          else for_items rec prefix level rest d
        else
          match for_items rec prefix level rest d with
          | None => None
          | Some (zs, d1) => Some ((path, item_id it) :: zs, d1)
          end
  end.

(** [GDReader._list_files], run to the end: the pairs it yields, in
    order, and the backend after its calls.  [fuel] bounds the depth of
    the recursion; [None] when it is not enough. *)
Fixpoint _list_files (fuel : nat) (folder : ident) (prefix : string)
         (level : Z) (d : drive)
  : option (list (string * ident) * drive) :=
  match fuel with
  | O => None
  | S fuel' =>
      if cutoff level then Some ([], d)
      else
        let '(file_list, d1) :=
          ListFile (Query folder None None) d in
        for_items (_list_files fuel') prefix level file_list d1
  end.

(** [_list_files] with its first two lines (the cutoff) removed. *)
Fixpoint _list_files_without_cutoff (fuel : nat) (folder : ident)
         (prefix : string) (level : Z) (d : drive)
  : option (list (string * ident) * drive) :=
  match fuel with
  | O => None
  | S fuel' =>
      let '(file_list, d1) :=
        ListFile (Query folder None None) d in
      for_items (_list_files_without_cutoff fuel') prefix level file_list d1
  end.

End Traversal.

(** [self._list_files(self.folder_id)] consumed entirely. *)
Definition list_root (fuel : nat) (self : GDStore)
  : option (list (string * ident) * drive) :=
  _list_files (max_levels self) (include_hidden self) fuel
              (folder_id self) "" 0 (_drive self).

(** The [_files] property. *)
Definition _files (fuel : nat) : M (gmap string ident) :=
  fun self =>
    match _file_cache self with
    | None =>
        match list_root fuel self with
        | None => None
        | Some (pairs, d) =>
            let c := Py.dict pairs in
            Some (Return c, with_cache (with_drive self d) (Some c))
        end
    | Some c => Some (Return c, self)
    end.

(** [_refresh_cache] *)
Definition _refresh_cache : M unit :=
  fun self => Some (Return tt, with_cache self None).

(** [__iter__], consumed: the keys of the index (in the order of the map,
    not in the order of insertion: callers may not rely on any order). *)
Definition __iter__ (fuel : nat) : M (list string) :=
  let* files := _files fuel in
  ret (map fst (map_to_list files)).

(** [__len__] *)
Definition __len__ (fuel : nat) : M nat :=
  let* files := _files fuel in
  ret (size files).

(** [__contains__] *)
Definition __contains__ (fuel : nat) (key : string) : M bool :=
  let* files := _files fuel in
  ret (bool_decide (is_Some (files !! key))).

(** [__getitem__] *)
Definition __getitem__ (fuel : nat) (key : string) : M Py.bytes :=
  let* files := _files fuel in
  if negb (bool_decide (is_Some (files !! key))) then raise (KeyError key)
  else
    let* files' := _files fuel in
    match files' !! key with
    | None => raise (KeyError key)
    | Some file_id =>
        let* content := on_drive (GetContentString file_id) in
        match content with
        | None => raise ApiRequestError
        | Some (CBytes b) => ret b
        | Some (CStr s) =>
            match Py.encode_latin1 s with
            | Some b => ret b
            | None => raise UnicodeEncodeError
            end
        end
    end.

(** The loop of [_get_or_create_folders]. *)
Fixpoint resolve_folders (folder_parts : list string) (current_id : ident)
         (d : drive) : ident * drive :=
  match folder_parts with
  | [] => (current_id, d)
  | folder_name :: rest =>
      let '(folders, d1) :=
        ListFile (Query current_id (Some folder_name) (Some FOLDER_MIME)) d in
      match folders with
      | f :: _ => resolve_folders rest (item_id f) d1
      | [] =>
          let '(new_id, d2) :=
            upload_new current_id folder_name FOLDER_MIME (CStr []) d1 in
          resolve_folders rest new_id d2
      end
  end.

(** [parts[:-1]] of [key.split('/')] *)
Definition folder_parts_of (key : string) : list string :=
  removelast (Py.split_slash key).

(** [_get_or_create_folders] *)
Definition _get_or_create_folders (key : string) : M ident :=
  fun self =>
    let '(i, d) :=
      resolve_folders (folder_parts_of key) (folder_id self) (_drive self) in
    Some (Return i, with_drive self d).

(** [__setitem__] *)
Definition __setitem__ (key : string) (value : Py.value) : M unit :=
  match value with
  | Py.VBytes b =>
      let* parent_id := _get_or_create_folders key in
      let filename := Py.os_path_basename key in
      let* files := on_drive (ListFile (Query parent_id (Some filename) None)) in
      let text := CStr (Py.decode_latin1 b) in
      match files with
      | gfile :: _ =>
          let* _ := on_drive (fun d =>
                      (tt, upload_existing (item_id gfile) text d)) in
          _refresh_cache
      | [] =>
          let* _ := on_drive (upload_new parent_id filename FILE_MIME text) in
          _refresh_cache
      end
  | _ => raise TypeError
  end.

(** [__delitem__] *)
Definition __delitem__ (fuel : nat) (key : string) : M unit :=
  let* files := _files fuel in
  if negb (bool_decide (is_Some (files !! key))) then raise (KeyError key)
  else
    let* files' := _files fuel in
    match files' !! key with
    | None => raise (KeyError key)
    | Some file_id =>
        let* ok := on_drive (Delete file_id) in
        if ok : bool then _refresh_cache else raise ApiRequestError
    end.

(** ** Auxiliary notions used in the statements *)

(** The backend [d] after the further calls [cs]: same nodes, longer log. *)
Definition add_log (d : drive) (cs : list call) : drive :=
  Mk (items d) (next_id d) (log d ++ cs).

(** The result [o] of a traversal that only reads the tree, seen from the
    backend [d]: the calls made are appended to the log of [d]. *)
Definition lift (d : drive) (o : option (list (string * ident) * list call))
  : option (list (string * ident) * drive) :=
  match o with
  | Some (r, cs) => Some (r, add_log d cs)
  | None => None
  end.

(** The traversal as a function of the nodes alone: the pairs yielded and
    the calls made.  [list_files_walk] below shows that [_list_files] is
    this function. *)
Section Walk.

Variable ml : option Z.
Variable ih : bool.
Variable its : list item.

Definition children (folder : ident) : list item :=
  List.filter (matches (Query folder None None)) its.

Fixpoint walk_items
         (rec : ident -> string -> Z
                -> option (list (string * ident) * list call))
         (prefix : string) (level : Z) (l : list item)
  : option (list (string * ident) * list call) :=
  match l with
  | [] => Some ([], [])
  | it :: rest =>
      if skipped ih (item_title it) then walk_items rec prefix level rest
      else
        let path := item_path prefix (item_title it) in
        if is_folder it then
          if may_descend ml level then
            match rec (item_id it) path (level + 1),
                  walk_items rec prefix level rest with
            | Some (ys, cs1), Some (zs, cs2) =>
                Some ((ys ++ zs)%list, (cs1 ++ cs2)%list)
            | _, _ => None
            end
          else walk_items rec prefix level rest
        else
          match walk_items rec prefix level rest with
          | Some (zs, cs) => Some ((path, item_id it) :: zs, cs)
          | None => None
          end
  end.

Fixpoint walk (fuel : nat) (folder : ident) (prefix : string) (level : Z)
  : option (list (string * ident) * list call) :=
  match fuel with
  | O => None
  | S fuel' =>
      if cutoff ml level then Some ([], [])
      else
        match walk_items (walk fuel') prefix level (children folder) with
        | Some (r, cs) => Some (r, CallList (Query folder None None) :: cs)
        | None => None
        end
  end.

End Walk.

(** What the traversal is meant to reach, stated on the tree alone: the
    entry [e] lies [k] folders below [folder], along a chain of listed
    (not trashed), not skipped folders, its path being the names on the
    chain joined after [prefix]. *)
Inductive reach (ih : bool) (its : list item)
  : ident -> string -> nat -> string * ident -> Prop :=
| reach_file folder prefix it :
    In it (children its folder) ->
    skipped ih (item_title it) = false ->
    is_folder it = false ->
    reach ih its folder prefix O
          (item_path prefix (item_title it), item_id it)
| reach_dir folder prefix it k e :
    In it (children its folder) ->
    skipped ih (item_title it) = false ->
    is_folder it = true ->
    reach ih its (item_id it) (item_path prefix (item_title it)) k e ->
    reach ih its folder prefix (S k) e.


(** A depth within the bound: always when there is none. *)
Definition within (ml : option Z) (depth : Z) : Prop :=
  match ml with
  | None => True
  | Some m => depth <= m
  end.

(** The folders of the tree are ranked: every listed folder has a smaller
    rank than its parent (so the tree has no cycle of folders). *)
Definition ranked (its : list item) (rank : ident -> nat) : Prop :=
  forall it, In it its -> is_folder it = true -> item_trashed it = false ->
             (rank (item_id it) < rank (item_parent it))%nat.

(** Fuel that lets the traversal of [folder], entered at [level], come
    back: more than the levels left under a depth bound; more than the rank
    of [folder] without one. *)
Definition enough_fuel (ml : option Z) (its : list item) (fuel : nat)
           (folder : ident) (level : Z) : Prop :=
  match ml with
  | Some m => (Z.to_nat (m - level) < fuel)%nat
  | None => exists rank, ranked its rank /\ (rank folder < fuel)%nat
  end.


(** From the folder [cur], the folder [c] is reached along listed folders
    named after [parts], in order. *)
Inductive chain (its : list item) : ident -> list string -> ident -> Prop :=
| chain_nil c : chain its c [] c
| chain_cons cur it s parts c :
    In it (children its cur) ->
    is_folder it = true ->
    item_title it = s ->
    chain its (item_id it) parts c ->
    chain its cur (s :: parts) c.

(** A sequence of calls in which every creation of a node comes right after
    a listing that looked for a node of that name and kind under that
    parent. *)
Inductive checked_before_create : list call -> Prop :=
| checked_nil : checked_before_create []
| checked_list q cs :
    checked_before_create cs -> checked_before_create (CallList q :: cs)
| checked_create parent title mime cs :
    checked_before_create cs ->
    checked_before_create
      (CallList (Query parent (Some title) (Some mime))
       :: CallInsert parent title mime :: cs).

(** [key] has no ['/']. *)
Definition no_slash (key : string) : bool :=
  negb (existsb (Ascii.eqb "/"%char) (list_ascii_of_string key)).

(** A segment that can serve as a folder name on the way to a key: not
    empty, no ['/']. *)
Definition seg_ok (s : string) : Prop :=
  Py.truthy s = true /\ no_slash s = true.

(** The read-side operations, and a caller running a sequence of them,
    catching what they raise. *)
Inductive read_op :=
| OpKeys
| OpSize
| OpContains (key : string)
| OpRead (key : string).

Inductive read_result :=
| RKeys (keys : list string)
| RSize (n : nat)
| RBool (b : bool)
| RBytes (b : Py.bytes).

Definition read_op_run (fuel : nat) (op : read_op) : M read_result :=
  match op with
  | OpKeys => let* l := __iter__ fuel in ret (RKeys l)
  | OpSize => let* n := __len__ fuel in ret (RSize n)
  | OpContains key => let* b := __contains__ fuel key in ret (RBool b)
  | OpRead key => let* b := __getitem__ fuel key in ret (RBytes b)
  end.

Fixpoint run_reads (fuel : nat) (ops : list read_op) (self : GDStore)
  : option (list (result read_result) * GDStore) :=
  match ops with
  | [] => Some ([], self)
  | op :: ops' =>
      match read_op_run fuel op self with
      | None => None
      | Some (r, s1) =>
          match run_reads fuel ops' s1 with
          | None => None
          | Some (rs, s2) => Some (r :: rs, s2)
          end
      end
  end.

(** What a read-side operation answers from the index [c] alone. *)
Definition answers (c : gmap string ident) (op : read_op)
           (r : result read_result) : Prop :=
  match op with
  | OpKeys => r = Return (RKeys (map fst (map_to_list c)))
  | OpSize => r = Return (RSize (size c))
  | OpContains key => r = Return (RBool (bool_decide (is_Some (c !! key))))
  | OpRead key => c !! key = None -> r = Raise (KeyError key)
  end.

(** The traversal of the tree as it is, from the root, comes back within
    [fuel] and yields [r]. *)
Definition traversal (fuel : nat) (self : GDStore)
           (r : list (string * ident)) (cs : list call) : Prop :=
  walk (max_levels self) (include_hidden self) (items (_drive self)) fuel
       (folder_id self) "" 0 = Some (r, cs).

(** The instance's index is up to date: it has none, or the one the
    traversal of the tree as it is would build. *)
Definition index_is (fuel : nat) (self : GDStore)
           (r : list (string * ident)) : Prop :=
  (exists cs, traversal fuel self r cs) /\
  (_file_cache self = None \/ _file_cache self = Some (Py.dict r)).

(** The backend hands out identities no node has. *)
Definition fresh_ids (d : drive) : Prop :=
  forall it, In it (items d) -> (item_id it < next_id d)%nat.

(** What one item of a listing adds to what the item loop yields. *)
Definition contributes (ml : option Z) (ih : bool)
           (rec : ident -> string -> Z
                  -> option (list (string * ident) * list call))
           (prefix : string) (level : Z) (it : item) (e : string * ident)
  : Prop :=
  skipped ih (item_title it) = false /\
  ((is_folder it = false /\
    e = (item_path prefix (item_title it), item_id it)) \/
   (is_folder it = true /\ may_descend ml level = true /\
    exists ys cs, rec (item_id it) (item_path prefix (item_title it))
                      (level + 1) = Some (ys, cs) /\ In e ys)).

(** The state after the index was built from the traversal [r], [cs]. *)
Definition built (s : GDStore) (r : list (string * ident)) (cs : list call)
  : GDStore :=
  with_cache (with_drive s (add_log (_drive s) cs)) (Some (Py.dict r)).

(** A call that is not a listing. *)
Definition not_list (c : call) : Prop := is_list c = false.

(** The cached index, when there is one, is the one the traversal of the
    tree as it is builds. *)
Definition coherent (self : GDStore) : Prop :=
  forall c, _file_cache self = Some c ->
            exists fuel r cs, traversal fuel self r cs /\ c = Py.dict r.

(** The invariant of an instance: its index is not stale and the backend
    hands out new identities. *)
Definition well_kept (self : GDStore) : Prop :=
  coherent self /\ fresh_ids (_drive self).

(** The methods of the instance, as a caller invokes them. *)
Inductive method :=
| MIter
| MLen
| MContains (key : string)
| MGetitem (key : string)
| MSetitem (key : string) (value : Py.value)
| MDelitem (key : string).

(** The state a method leaves, whether it returns or raises; [None] when
    it does not come back. *)
Definition after {A} (o : option (result A * GDStore)) : option GDStore :=
  match o with
  | Some (_, s) => Some s
  | None => None
  end.

Definition invoke (fuel : nat) (m : method) (self : GDStore)
  : option GDStore :=
  match m with
  | MIter => after (__iter__ fuel self)
  | MLen => after (__len__ fuel self)
  | MContains key => after (__contains__ fuel key self)
  | MGetitem key => after (__getitem__ fuel key self)
  | MSetitem key value => after (__setitem__ key value self)
  | MDelitem key => after (__delitem__ fuel key self)
  end.

(** The tree without its trashed nodes. *)
Definition not_trashed (its : list item) : list item :=
  List.filter (fun it => negb (item_trashed it)) its.

(** What [__getitem__] makes of what the backend holds for the identity
    [i]: bytes as they are, text encoded as Latin-1. *)
Definition fetched (its : list item) (i : ident) : result Py.bytes :=
  match item_content <$> List.find (has_id i) its with
  | Some (CBytes b) => Return b
  | Some (CStr t) =>
      match Py.encode_latin1 t with
      | Some b => Return b
      | None => Raise UnicodeEncodeError
      end
  | None => Raise ApiRequestError
  end.

(** The identity [__setitem__] uploads to, and the backend it leaves. *)
Definition written_drive (key : string) (b : Py.bytes) (root : ident)
           (d : drive) : ident * drive :=
  let '(parent, d0) := resolve_folders (folder_parts_of key) root d in
  let q := Query parent (Some (Py.os_path_basename key)) None in
  let text := CStr (Py.decode_latin1 b) in
  match List.filter (matches q) (items d0) with
  | g :: _ => (item_id g, upload_existing (item_id g) text (record (CallList q) d0))
  | [] => upload_new parent (Py.os_path_basename key) FILE_MIME text
                     (record (CallList q) d0)
  end.

Definition is_insert (c : call) : bool :=
  match c with CallInsert _ _ _ => true | _ => false end.

(** The pairs of [r] that are not for the identity [i]. *)
Definition without_id (i : ident) (r : list (string * ident))
  : list (string * ident) :=
  List.filter (fun e => negb (Nat.eqb (snd e) i)) r.

Definition without_id_result (i : ident)
           (o : option (list (string * ident) * list call))
  : option (list (string * ident) * list call) :=
  match o with
  | Some (r, cs) => Some (without_id i r, cs)
  | None => None
  end.

(** ** A small tree used in the examples

    Under the root [0]: the file [r.txt], the folder [sub] (holding
    [s.txt] and the folder [deep], which holds [z]), the hidden file [.h]
    and the hidden folder [.hid] (holding [in]). *)
Module Sample.

Definition file (i : ident) (t : string) (p : ident) : item :=
  Item i t FILE_MIME p false (CStr []).
Definition folder (i : ident) (t : string) (p : ident) : item :=
  Item i t FOLDER_MIME p false (CStr []).

Definition tree : list item :=
  [file 1 "r.txt" 0; folder 2 "sub" 0; file 3 "s.txt" 2; file 4 ".h" 0;
   folder 5 ".hid" 0; file 6 "in" 5; folder 7 "deep" 2; file 8 "z" 7]%nat.

Definition d0 : drive := Mk tree 9%nat [].

Definition rank (i : ident) : nat :=
  match i with
  | O => 3
  | 2 | 5 => 2
  | 7 => 1
  | _ => 0
  end%nat.

Definition store (ml : option Z) (ih : bool) : GDStore :=
  MkStore 0%nat ml ih d0 None.

(** [store None false] after [store['new.txt'] = b'h']. *)
Definition written : GDStore :=
  MkStore 0%nat None false
    (Mk (tree ++ [Item 9%nat "new.txt" FILE_MIME 0%nat false (CStr [104%N])])
        10%nat
        [CallList (Query 0%nat (Some "new.txt") None);
         CallInsert 0%nat "new.txt" FILE_MIME])
    None.

(** An empty root folder. *)
Definition empty (ml : option Z) (ih : bool) : GDStore :=
  MkStore 0%nat ml ih (Mk [] 1%nat []) None.

End Sample.

(** ** The world outside the program

    [get_bytes] and the constructor of [GDReader] call the operating
    system, the network (through [requests]) and PyDrive2's
    authentication.  None of these is part of the repository.  A function
    that makes such calls is embedded as the tree of its calls: a node holds
    a call, and for each answer the call can get, what the function does
    next.  [run] executes such a tree against an environment (a handler with
    a state of its own) and keeps the calls made with their answers, so a
    statement can range over every environment. *)

Module Requests.

(** What the source reads of a response.  [text] is taken as a string of
    8-bit characters: the two tests the source makes on it look for ASCII
    words. *)
Record response := Response {
  status_code : Z;
  text : string;
  content : Py.bytes;
  cookies : list (string * string)
}.

End Requests.

(** What a call that can raise hands back: a value, or the name of the
    exception. *)
Inductive answer (X : Type) :=
| Ok (x : X)
| Failed (what : string).
Arguments Ok {X} x.
Arguments Failed {X} what.

(** The calls out of the program, with the type of their answers.
    [tmp_write] is the body and the exit of the [with] block over a
    temporary file: the write, then the close. *)
Inductive extern : Type -> Type :=
| os_path_expanduser (path : string) : extern string
| os_makedirs (name : string) : extern (answer unit)
| os_path_exists (path : string) : extern bool
| Path_read_bytes (path : string) : extern (answer Py.bytes)
| Path_write_bytes (path : string) (data : Py.bytes) : extern (answer unit)
| NamedTemporaryFile : extern (answer string)
| tmp_write (name : string) (data : Py.bytes) : extern (answer unit)
| session_get (url : string) (params : option (list (string * string)))
  : extern (answer Requests.response)
| GoogleAuth : extern (answer unit)
| LoadCredentialsFile (credentials_file : string) : extern (answer unit)
| credentials_is_None : extern bool
| access_token_expired : extern bool
| LocalWebserverAuth : extern (answer unit)
| Refresh : extern (answer unit)
| Authorize : extern (answer unit)
| SaveCredentialsFile (credentials_file : string) : extern (answer unit)
| GoogleDrive : extern drive.

(** The exceptions of this part of the source; [Escaped] is an exception
    out of a call, which the source never catches. *)
Inductive error :=
| ValueError
| RuntimeError (status_code : Z)
| ImportError
| Escaped (what : string).

Inductive prog (A : Type) : Type :=
| Pure (a : A)
| Throw (e : error)
| Call {X : Type} (c : extern X) (k : X -> prog A).
Arguments Pure {A} a.
Arguments Throw {A} e.
Arguments Call {A X} c k.

Fixpoint then_ {A B} (p : prog A) (f : A -> prog B) : prog B :=
  match p with
  | Pure a => f a
  | Throw e => Throw e
  | Call c k => Call c (fun x => then_ (k x) f)
  end.

Notation "'let!' x ':=' p 'in' f" := (then_ p (fun x => f))
  (at level 10, x name, p at level 100, f at level 200).

(** A call that cannot raise. *)
Definition ask {X} (c : extern X) : prog X := Call c Pure.

(** A call that can raise: the exception goes up. *)
Definition attempt {X} (c : extern (answer X)) : prog X :=
  Call c (fun a =>
            match a with
            | Ok x => Pure x
            | Failed what => Throw (Escaped what)
            end).

Inductive outcome (A : Type) :=
| Returned (a : A)
| Raised (e : error).
Arguments Returned {A} a.
Arguments Raised {A} e.

(** A call with the answer it got. *)
Inductive step :=
| Step {X : Type} (c : extern X) (x : X).

(** An environment: from its state, the answer to a call and its next
    state. *)
Definition handler (W : Type) : Type := forall X, extern X -> W -> X * W.

Fixpoint run {W A} (h : handler W) (p : prog A) (w : W)
  : outcome A * W * list step :=
  match p with
  | Pure a => (Returned a, w, [])
  | Throw e => (Raised e, w, [])
  | @Call _ X c k =>
      let '(x, w1) := h X c w in
      let '(r, w2, tr) := run h (k x) w1 in
      (r, w2, Step c x :: tr)
  end.

(** ** Strings and paths, continued *)

(** [c.lower()] of an ASCII character. *)
Definition lower_char (a : ascii) : ascii :=
  let n := nat_of_ascii a in
  if ((65 <=? n) && (n <=? 90))%nat then ascii_of_nat (n + 32) else a.

(** [s.lower()] *)
Fixpoint lower (s : string) : string :=
  match s with
  | EmptyString => EmptyString
  | String a s' => String (lower_char a) (lower s')
  end.

Definition has_slash (p : string) : bool :=
  existsb (Ascii.eqb "/"%char) (list_ascii_of_string p).

(** [p[:p.rfind('/') + 1]] *)
Fixpoint upto_last_slash (p : string) : string :=
  match p with
  | EmptyString => EmptyString
  | String c p' =>
      if has_slash p then String c (upto_last_slash p') else EmptyString
  end.

(** [s.rstrip('/')] *)
Fixpoint rstrip_slash (s : string) : string :=
  match s with
  | EmptyString => EmptyString
  | String c s' =>
      match rstrip_slash s' with
      | EmptyString =>
          if Ascii.eqb c "/"%char then EmptyString else String c EmptyString
      | r => String c r
      end
  end.

(** [os.path.dirname(p)] of posixpath. *)
Definition os_path_dirname (p : string) : string :=
  let head := upto_last_slash p in
  if Py.truthy head && negb (Re.all (Ascii.eqb "/"%char) head)
  then rstrip_slash head
  else head.

(** ** The download without the API *)

(** An argument of type [Union[bool, str]]. *)
Inductive bool_or_str :=
| PFalse
| PTrue
| PStr (s : string).

(** A result of type [Union[bytes, str]]. *)
Inductive bytes_or_str :=
| AsBytes (b : Py.bytes)
| AsStr (s : string).

(** [_resolve_cache_dir] *)
Definition _resolve_cache_dir (use_cache : bool_or_str)
  : prog (option string) :=
  match use_cache with
  | PFalse => Pure None
  | PTrue =>
      let! cache_dir := ask (os_path_expanduser "~/.cache/pydrivedol/cached/") in
      let! _ := attempt (os_makedirs cache_dir) in
      Pure (Some cache_dir)
  | PStr cache_dir =>
      let! _ := attempt (os_makedirs cache_dir) in
      Pure (Some cache_dir)
  end.

(** [_get_cached_path] *)
Definition _get_cached_path (file_id cache_dir : string) : string :=
  Py.os_path_join cache_dir file_id.

(** The URL [_download_from_drive] asks for. *)
Definition download_url (file_id : string) : string :=
  "https://drive.google.com/uc?export=download&id=" +:+ file_id.

(** ['download_warning' in response.text or 'virus' in
    response.text.lower()] *)
Definition warned (response : Requests.response) : bool :=
  Re.occurs "download_warning" (Requests.text response)
  || Re.occurs "virus" (lower (Requests.text response)).

(** The first cookie whose name starts with [download_warning]: where the
    [for] loop of [_download_from_drive] breaks. *)
Definition warning_cookie (response : Requests.response)
  : option (string * string) :=
  List.find (fun kv => String.prefix "download_warning" (fst kv))
            (Requests.cookies response).

(** [_download_from_drive] *)
Definition _download_from_drive (file_id : string) : prog Py.bytes :=
  let! response := attempt (session_get (download_url file_id) None) in
  let! response :=
    if warned response then
      match warning_cookie response with
      | Some (_, value) =>
          attempt (session_get (download_url file_id)
                               (Some [("id", file_id); ("confirm", value)]))
      | None => Pure response
      end
    else Pure response in
  if negb (Requests.status_code response =? 200)
  then Throw (RuntimeError (Requests.status_code response))
  else Pure (Requests.content response).

(** The [with] block over a temporary file. *)
Definition to_temporary_file (content : Py.bytes) : prog bytes_or_str :=
  let! name := attempt NamedTemporaryFile in
  let! _ := attempt (tmp_write name content) in
  Pure (AsStr name).

(** [_handle_local_path_output] *)
Definition _handle_local_path_output (content : Py.bytes)
           (local_path : bool_or_str) (cached_file : option string)
  : prog bytes_or_str :=
  match local_path with
  | PTrue =>
      match cached_file with
      | Some f =>
          if Py.truthy f then
            let! found := ask (os_path_exists f) in
            if found : bool then Pure (AsStr f) else to_temporary_file content
          else to_temporary_file content
      | None => to_temporary_file content
      end
  | PStr path =>
      let dir := os_path_dirname path in
      let! _ := attempt (os_makedirs (if Py.truthy dir then dir else ".")) in
      let! _ := attempt (Path_write_bytes path content) in
      Pure (AsBytes content)
  | PFalse => Pure (AsBytes content)
  end.

(** The end of [get_bytes], from [# Download] on; [cached_file] is there
    when [cache_dir] is truthy. *)
Definition download_and_hand_out (file_id : string) (local_path : bool_or_str)
           (cached_file : option string) : prog bytes_or_str :=
  let! content := _download_from_drive file_id in
  let! _ :=
    match cached_file with
    | Some f => attempt (Path_write_bytes f content)
    | None => Pure tt
    end in
  _handle_local_path_output content local_path None.

(** [get_bytes] *)
Definition get_bytes (url : string) (local_path use_cache : bool_or_str)
  : prog bytes_or_str :=
  match _extract_file_id url with
  | None => Throw ValueError
  | Some file_id =>
      if negb (Py.truthy file_id) then Throw ValueError
      else
        let! cache_dir := _resolve_cache_dir use_cache in
        match cache_dir with
        | Some dir =>
            if Py.truthy dir then
              let cached_file := _get_cached_path file_id dir in
              let! found := ask (os_path_exists cached_file) in
              if found : bool then
                let! content := attempt (Path_read_bytes cached_file) in
                _handle_local_path_output content local_path
                                          (Some cached_file)
              else download_and_hand_out file_id local_path (Some cached_file)
            else download_and_hand_out file_id local_path None
        | None => download_and_hand_out file_id local_path None
        end
  end.

(** ** The constructor *)

(** [_require_pydrive2]; [available] is [_PYDRIVE2_AVAILABLE]. *)
Definition _require_pydrive2 (available : bool) : prog unit :=
  if negb available then Throw ImportError else Pure tt.

(** [_init_google_drive] *)
Definition _init_google_drive (credentials_file settings_file : string)
  : prog drive :=
  let! _ := attempt GoogleAuth in
  let! _ := attempt (LoadCredentialsFile credentials_file) in
  let! none := ask credentials_is_None in
  let! _ :=
    if none : bool then attempt LocalWebserverAuth
    else
      let! expired := ask access_token_expired in
      if expired : bool then attempt Refresh else attempt Authorize in
  let! _ := attempt (SaveCredentialsFile credentials_file) in
  ask GoogleDrive.

Section Constructor.

(** The node a textual identity names: the handles of the model of the
    backend are numbers. *)
Variable node_of : string -> ident.

(** [GDReader.__init__].  The attributes [folder_url], [_credentials_file]
    and [_settings_file] are set and never read: they have no field. *)
Definition __init__ (available : bool) (folder_url : string)
           (max_levels_ : option Z) (credentials_file settings_file : string)
           (include_hidden_ : bool) : prog GDStore :=
  let! _ := _require_pydrive2 available in
  match _extract_folder_id folder_url with
  | None => Throw ValueError
  | Some folder_id_ =>
      if negb (Py.truthy folder_id_) then Throw ValueError
      else
        let! drive_ := _init_google_drive credentials_file settings_file in
        Pure (MkStore (node_of folder_id_) max_levels_ include_hidden_
                      drive_ None)
  end.

End Constructor.

(** ** Sharing *)

(** The argument of [InsertPermission]. *)
Record permission := Permission {
  perm_type : string;
  perm_value : option string;
  perm_role : string
}.

(** The instance, and what the model of the backend has no place for: the
    permissions granted, by node, in the order they were granted. *)
Record shared := Shared {
  instance : GDStore;
  permissions : list (ident * permission)
}.

Section GetUrl.

(** [gfile['alternateLink']]: the link the backend holds for a node. *)
Variable alternateLink : item -> string.

(** The first lines of [get_url]: the key is looked up in the index. *)
Definition file_id_of (fuel : nat) (key : string) : M ident :=
  let* files := _files fuel in
  if negb (bool_decide (is_Some (files !! key))) then raise (KeyError key)
  else
    let* files' := _files fuel in
    match files' !! key with
    | None => raise (KeyError key)
    | Some file_id => ret file_id
    end.

(** [get_url]; the backend's error for an identity it does not know is
    [ApiRequestError]. *)
Definition get_url (fuel : nat) (key : string)
           (permission_type permission_role : string) (self : shared)
  : option (result string * shared) :=
  match file_id_of fuel key (instance self) with
  | None => None
  | Some (Raise e, s) => Some (Raise e, Shared s (permissions self))
  | Some (Return file_id, s) =>
      match List.find (has_id file_id) (items (_drive s)) with
      | None => Some (Raise ApiRequestError, Shared s (permissions self))
      | Some gfile =>
          let p :=
            Permission permission_type
                       (if String.eqb permission_type "anyone"
                        then Some permission_type else None)
                       permission_role in
          Some (Return (alternateLink gfile),
                Shared s (permissions self ++ [(file_id, p)]))
      end
  end.

End GetUrl.

(** ** Notions used in the statements about the world outside *)

Definition reply {W X} (h : handler W) (c : extern X) (w : W) : X :=
  fst (h X c w).

Definition world_after {W X} (h : handler W) (c : extern X) (w : W) : W :=
  snd (h X c w).

(** A request was sent. *)
Definition is_get (s : step) : bool :=
  match s with
  | Step c _ =>
      match c with
      | session_get _ _ => true
      | _ => false
      end
  end.

(** A path was found to exist. *)
Definition is_found (s : step) : bool :=
  match s with
  | @Step X c x =>
      match c in extern T return T -> bool with
      | os_path_exists _ => fun found => found
      | _ => fun _ => false
      end x
  end.

(** A call of the file system or of the network. *)
Definition is_io (s : step) : bool :=
  match s with
  | Step c _ =>
      match c with
      | os_path_expanduser _ | os_makedirs _ | os_path_exists _
      | Path_read_bytes _ | Path_write_bytes _ _ | NamedTemporaryFile
      | tmp_write _ _ | session_get _ _ => true
      | _ => false
      end
  end.

(** The bytes a step brings in: what a file is read to hold, or the
    content of an answer with status 200. *)
Definition taken_in (s : step) : option Py.bytes :=
  match s with
  | @Step X c x =>
      match c in extern T return T -> option Py.bytes with
      | Path_read_bytes _ =>
          fun a => match a with Ok b => Some b | Failed _ => None end
      | session_get _ _ =>
          fun a =>
            match a with
            | Ok r =>
                if Requests.status_code r =? 200
                then Some (Requests.content r) else None
            | Failed _ => None
            end
      | _ => fun _ => None
      end x
  end.

(** The bytes a step writes to a file. *)
Definition put_out (s : step) : option Py.bytes :=
  match s with
  | Step c _ =>
      match c with
      | Path_write_bytes _ data | tmp_write _ data => Some data
      | _ => None
      end
  end.

(** The URL of a request. *)
Definition asked_url (s : step) : option string :=
  match s with
  | Step c _ =>
      match c with
      | session_get url _ => Some url
      | _ => None
      end
  end.

(** A step of the authentication proper: one of the three ways to get
    authorized. *)
Definition is_authorization (s : step) : bool :=
  match s with
  | Step c _ =>
      match c with
      | LocalWebserverAuth | Refresh | Authorize => true
      | _ => false
      end
  end.

(** The file names a step hands to PyDrive2. *)
Definition named_file (s : step) : option string :=
  match s with
  | Step c _ =>
      match c with
      | LoadCredentialsFile f | SaveCredentialsFile f => Some f
      | _ => None
      end
  end.

(** Calls that remove no file and change the content of none. *)
Definition keeps_files {X} (c : extern X) : bool :=
  match c with
  | os_path_expanduser _ | os_makedirs _ | os_path_exists _
  | Path_read_bytes _ | session_get _ _ => true
  | _ => false
  end.

(** What the cache of [get_bytes] relies on, of an environment [h] in which
    [isdir d w] says that [d] is a directory in the state [w]:
    - a file that was written exists and reads back as written;
    - a file that exists, and what it reads as, stay so through the calls
      that keep files;
    - [os.makedirs(d, exist_ok=True)] makes [d] a directory, and succeeds
      on a directory; a directory stays one, whatever is called;
    - [os.makedirs('')] raises;
    - [os.path.expanduser] depends on its argument alone. *)
Record lawful {W} (isdir : string -> W -> Prop) (h : handler W) : Prop := {
  write_then_read_back :
    forall f data w,
      reply h (Path_write_bytes f data) w = Ok tt ->
      reply h (os_path_exists f) (world_after h (Path_write_bytes f data) w)
      = true /\
      reply h (Path_read_bytes f) (world_after h (Path_write_bytes f data) w)
      = Ok data;
  exists_kept :
    forall X (c : extern X) f w,
      keeps_files c = true ->
      reply h (os_path_exists f) w = true ->
      reply h (os_path_exists f) (world_after h c w) = true;
  read_kept :
    forall X (c : extern X) f data w,
      keeps_files c = true ->
      reply h (Path_read_bytes f) w = Ok data ->
      reply h (Path_read_bytes f) (world_after h c w) = Ok data;
  makedirs_makes :
    forall d w,
      reply h (os_makedirs d) w = Ok tt ->
      isdir d (world_after h (os_makedirs d) w);
  makedirs_on_dir :
    forall d w, isdir d w -> reply h (os_makedirs d) w = Ok tt;
  isdir_kept :
    forall X (c : extern X) d w, isdir d w -> isdir d (world_after h c w);
  makedirs_empty :
    forall w, reply h (os_makedirs "") w <> Ok tt;
  expanduser_fixed :
    forall p w w',
      reply h (os_path_expanduser p) w = reply h (os_path_expanduser p) w'
}.

(** The file [f] exists and reads as [data]. *)
Definition cached {W} (h : handler W) (f : string) (data : Py.bytes) (w : W)
  : Prop :=
  reply h (os_path_exists f) w = true /\
  reply h (Path_read_bytes f) w = Ok data.

(** ** A small world used in the examples

    Files by name, directories, and a server that answers every request
    with the same response.  A home directory [/home/u]; temporary files
    are numbered. *)
Module Box.

Record world := World {
  files : gmap string Py.bytes;
  dirs : list string;
  temps : nat
}.

Definition is_dir (d : string) (w : world) : bool :=
  existsb (String.eqb d) (dirs w).

Definition write (f : string) (data : Py.bytes) (w : world)
  : answer unit * world :=
  if is_dir f w then (Failed "IsADirectoryError", w)
  else (Ok tt, World (<[f := data]> (files w)) (dirs w) (temps w)).

Definition temp_name (n : nat) : string :=
  "/tmp/tmp" +:+ String (ascii_of_nat (48 + n)) "".

Definition serve (r : Requests.response) : handler world :=
  fun X c =>
    match c in extern T return world -> T * world with
    | os_path_expanduser path =>
        fun w =>
          (match path with
           | String "~" rest => "/home/u" +:+ rest
           | _ => path
           end, w)
    | os_makedirs name =>
        fun w =>
          if String.eqb name "" then (Failed "FileNotFoundError", w)
          else
            match files w !! name with
            | Some _ => (Failed "FileExistsError", w)
            | None => (Ok tt, World (files w) (name :: dirs w) (temps w))
            end
    | os_path_exists path =>
        fun w => (bool_decide (is_Some (files w !! path)) || is_dir path w, w)
    | Path_read_bytes path =>
        fun w =>
          (match files w !! path with
           | Some data => Ok data
           | None => Failed "FileNotFoundError"
           end, w)
    | Path_write_bytes path data => write path data
    | NamedTemporaryFile =>
        fun w =>
          let name := temp_name (temps w) in
          if bool_decide (is_Some (files w !! name)) || is_dir name w
          then (Failed "FileExistsError", w)
          else (Ok name, World (<[name := []]> (files w)) (dirs w)
                               (S (temps w)))
    | tmp_write name data => write name data
    | session_get _ _ => fun w => (Ok r, w)
    | GoogleAuth => fun w => (Ok tt, w)
    | LoadCredentialsFile _ => fun w => (Ok tt, w)
    | credentials_is_None => fun w => (false, w)
    | access_token_expired => fun w => (true, w)
    | LocalWebserverAuth => fun w => (Ok tt, w)
    | Refresh => fun w => (Ok tt, w)
    | Authorize => fun w => (Ok tt, w)
    | SaveCredentialsFile _ => fun w => (Ok tt, w)
    | GoogleDrive => fun w => (Sample.d0, w)
    end.

Definition isdir (d : string) (w : world) : Prop :=
  d <> "" /\ is_dir d w = true /\ files w !! d = None.

Definition empty : world := World ∅ [] 0.

(** The answer to every request: status 200, the bytes [hi]. *)
Definition hi : Requests.response :=
  Requests.Response 200 "hi" ["h"%byte; "i"%byte] [].

(** An answer with a warning and the cookie to confirm with, and a
    download against a server that gives this answer. *)
Definition warning : Requests.response :=
  Requests.Response 200 "download_warning" ["o"%byte; "k"%byte]
                    [("NID", "1"); ("download_warning_13058876", "t0k")].

Definition confirmed : outcome Py.bytes * world * list step :=
  run (serve warning) (_download_from_drive "ABC") empty.

Definition url : string := "https://drive.google.com/file/d/ABC/view".

(** A first download with the cache directory [c], from the empty world,
    and a second one after it. *)
Definition first_run : outcome bytes_or_str * world * list step :=
  run (serve hi) (get_bytes url PFalse (PStr "c")) empty.

Definition second_run (local_path : bool_or_str)
  : outcome bytes_or_str * world * list step :=
  run (serve hi) (get_bytes url local_path (PStr "c")) (snd (fst first_run)).

(** The link of a node, in this world. *)
Definition link (g : item) : string :=
  "https://drive.google.com/file/d/" +:+ item_title g +:+ "/view".

(** The calls of a constructor that returns, in this world. *)
Definition connect : list step :=
  [Step GoogleAuth (Ok tt);
   Step (LoadCredentialsFile "client_secrets.json") (Ok tt);
   Step credentials_is_None false;
   Step access_token_expired true;
   Step Refresh (Ok tt);
   Step (SaveCredentialsFile "client_secrets.json") (Ok tt);
   Step GoogleDrive Sample.d0].

End Box.

(** * Properties *)

(** ** Python helpers *)

Example split_slash_nested : Py.split_slash "a/b/x.txt" = ["a"; "b"; "x.txt"].
Proof. reflexivity. Qed.

Example split_slash_empty : Py.split_slash "" = [""].
Proof. reflexivity. Qed.

Example split_slash_trailing : Py.split_slash "a//" = ["a"; ""; ""].
Proof. reflexivity. Qed.

Example basename_nested : Py.os_path_basename "a/b/x.txt" = "x.txt".
Proof. reflexivity. Qed.

Example basename_trailing : Py.os_path_basename "a/" = "".
Proof. reflexivity. Qed.

Example join_plain : Py.os_path_join "a" "b" = "a/b".
Proof. reflexivity. Qed.

Example join_after_slash : Py.os_path_join "a/" "b" = "a/b".
Proof. reflexivity. Qed.

Example join_absolute : Py.os_path_join "a" "/b" = "/b".
Proof. reflexivity. Qed.

Example dict_last_wins :
  Py.dict [("x", 1%nat); ("y", 2%nat); ("x", 3%nat)] !! "x" = Some 3%nat.
Proof. vm_compute. reflexivity. Qed.


Lemma dict_acc_Some {V} (pairs : list (string * V)) (m : gmap string V)
      (k : string) (v : V) :
  fold_left (fun m kv => <[fst kv := snd kv]> m) pairs m !! k = Some v ->
  In (k, v) pairs \/ m !! k = Some v.
Proof.
  revert m. induction pairs as [|[k' v'] pairs IH]; intros m; simpl.
  - auto.
  - intros H. apply IH in H as [H|H]; [auto|].
    destruct (decide (k' = k)) as [->|Hne].
    + rewrite lookup_insert_eq in H. injection H as ->. auto.
    + rewrite lookup_insert_ne in H by exact Hne. auto.
Qed.

Lemma dict_acc_None {V} (pairs : list (string * V)) (m : gmap string V)
      (k : string) :
  fold_left (fun m kv => <[fst kv := snd kv]> m) pairs m !! k = None <->
  m !! k = None /\ forall v, ~ In (k, v) pairs.
Proof.
  revert m. induction pairs as [|[k' v'] pairs IH]; intros m; simpl.
  - split; [intros H; split; [exact H|intros v []]|intros [H _]; exact H].
  - rewrite IH. destruct (decide (k' = k)) as [->|Hne].
    + rewrite lookup_insert_eq. split; [intros [H _]; discriminate|].
      intros [_ H]. destruct (H v'). left. reflexivity.
    + rewrite lookup_insert_ne by exact Hne. split.
      * intros [H1 H2]. split; [exact H1|]. intros v [E|Hin].
        -- injection E as E _. destruct (Hne E).
        -- exact (H2 v Hin).
      * intros [H1 H2]. split; [exact H1|]. intros v Hin.
        apply (H2 v). right. exact Hin.
Qed.

(** A key of the index built by [dict] was yielded with the identity the
    index holds for it. *)
Lemma dict_lookup_Some {V} (pairs : list (string * V)) k v :
  Py.dict pairs !! k = Some v -> In (k, v) pairs.
Proof.
  intros H. apply dict_acc_Some in H as [H|H]; [exact H|].
  rewrite lookup_empty in H. discriminate.
Qed.

Lemma dict_lookup_None {V} (pairs : list (string * V)) k :
  Py.dict pairs !! k = None <-> forall v, ~ In (k, v) pairs.
Proof.
  unfold Py.dict. rewrite dict_acc_None. rewrite lookup_empty. tauto.
Qed.


(** ** The traversal only reads the tree *)

Section TraversalFacts.

Variable ml : option Z.
Variable ih : bool.

Lemma add_log_nil d : add_log d [] = d.
Proof. destruct d. unfold add_log. simpl. rewrite app_nil_r. reflexivity. Qed.

Lemma add_log_add_log d cs cs' :
  add_log (add_log d cs) cs' = add_log d (cs ++ cs').
Proof. unfold add_log. simpl. rewrite app_assoc. reflexivity. Qed.

Lemma for_items_walk its rec wrec prefix level l :
  (forall f p lv d, items d = its -> rec f p lv d = lift d (wrec f p lv)) ->
  forall d, items d = its ->
            for_items ml ih rec prefix level l d
            = lift d (walk_items ml ih wrec prefix level l).
Proof.
  intros Hrec. induction l as [|it rest IH]; intros d Hd.
  - simpl. rewrite add_log_nil. reflexivity.
  - cbn [for_items walk_items].
    destruct (skipped ih (item_title it)); [apply IH; exact Hd|].
    destruct (is_folder it).
    + destruct (may_descend ml level); [|apply IH; exact Hd].
      rewrite Hrec by exact Hd.
      destruct (wrec (item_id it) _ (level + 1)) as [[ys cs1]|]; simpl;
        [|reflexivity].
      rewrite IH by exact Hd.
      destruct (walk_items ml ih wrec prefix level rest) as [[zs cs2]|];
        simpl; [|reflexivity].
      rewrite add_log_add_log. reflexivity.
    + rewrite IH by exact Hd.
      destruct (walk_items ml ih wrec prefix level rest) as [[zs cs2]|];
        reflexivity.
Qed.

(** [_list_files] on any backend is [walk] on its nodes, the calls made
    being appended to the log. *)
Lemma list_files_walk fuel f p lv d :
  _list_files ml ih fuel f p lv d = lift d (walk ml ih (items d) fuel f p lv).
Proof.
  revert f p lv d. induction fuel as [|fuel IH]; intros f p lv d.
  - reflexivity.
  - cbn [_list_files walk]. destruct (cutoff ml lv).
    + simpl. rewrite add_log_nil. reflexivity.
    + unfold ListFile.
      rewrite (for_items_walk (items d) _ (walk ml ih (items d) fuel)).
      * unfold children.
        destruct (walk_items ml ih _ p lv _) as [[zs cs]|]; simpl;
          [|reflexivity].
        unfold add_log, record. simpl. rewrite <- app_assoc. reflexivity.
      * intros f' p' lv' d' Hd'. rewrite IH, Hd'. reflexivity.
      * reflexivity.
Qed.

(** *** The item loop, item by item *)

Lemma walk_items_In rec prefix level l r cs e :
  walk_items ml ih rec prefix level l = Some (r, cs) ->
  (In e r <-> exists it, In it l /\ contributes ml ih rec prefix level it e).
Proof.
  revert r cs. induction l as [|it rest IH]; intros r cs H.
  - injection H as <- <-. split; [intros []|intros (it & [] & _)].
  - cbn [walk_items] in H.
    destruct (skipped ih (item_title it)) eqn:Hs.
    { rewrite (IH _ _ H). split.
      - intros (it' & Hin & Hc). exists it'. split; [right; exact Hin|exact Hc].
      - intros (it' & [->|Hin] & Hc); [|exists it'; split; assumption].
        destruct Hc as [Hc _]. congruence. }
    destruct (is_folder it) eqn:Hf.
    + destruct (may_descend ml level) eqn:Hd.
      * destruct (rec (item_id it) _ (level + 1)) as [[ys cs1]|] eqn:Hr;
          [|discriminate].
        destruct (walk_items ml ih rec prefix level rest) as [[zs cs2]|];
          [|discriminate].
        injection H as <- <-. rewrite in_app_iff, (IH _ _ eq_refl). split.
        -- intros [Hin|(it' & Hin & Hc)].
           ++ exists it. split; [left; reflexivity|]. split; [exact Hs|].
              right. repeat split; try assumption. exists ys, cs1. auto.
           ++ exists it'. split; [right; exact Hin|exact Hc].
        -- intros (it' & [->|Hin] & Hc).
           ++ destruct Hc as [_ [[Hc _]|(_ & _ & ys' & cs' & Hr' & Hin)]];
                [congruence|].
              rewrite Hr in Hr'. injection Hr' as <- <-. left. exact Hin.
           ++ right. exists it'. split; assumption.
      * rewrite (IH _ _ H). split.
        -- intros (it' & Hin & Hc). exists it'. split; [right; exact Hin|exact Hc].
        -- intros (it' & [->|Hin] & Hc); [|exists it'; split; assumption].
           destruct Hc as [_ [[Hc _]|(_ & Hc & _)]]; congruence.
    + destruct (walk_items ml ih rec prefix level rest) as [[zs cs2]|];
        [|discriminate].
      injection H as <- <-. cbn [In]. rewrite (IH _ _ eq_refl). split.
      * intros [<-|(it' & Hin & Hc)].
        -- exists it. split; [left; reflexivity|]. split; [exact Hs|].
           left. split; [exact Hf|reflexivity].
        -- exists it'. split; [right; exact Hin|exact Hc].
      * intros (it' & [->|Hin] & Hc).
        -- destruct Hc as [_ [[_ ->]|(Hc & _)]]; [left; reflexivity|congruence].
        -- right. exists it'. split; assumption.
Qed.

(** The loop comes back exactly when every recursive call it makes does. *)
Lemma walk_items_is_Some rec prefix level l :
  is_Some (walk_items ml ih rec prefix level l) <->
  (forall it, In it l -> skipped ih (item_title it) = false ->
              is_folder it = true -> may_descend ml level = true ->
              is_Some (rec (item_id it) (item_path prefix (item_title it))
                           (level + 1))).
Proof.
  induction l as [|it rest IH].
  - simpl. split; [intros _ it []|intros _; eexists; reflexivity].
  - cbn [walk_items].
    assert (Hrest : (forall it', In it' (it :: rest) ->
                skipped ih (item_title it') = false ->
                is_folder it' = true -> may_descend ml level = true ->
                is_Some (rec (item_id it')
                             (item_path prefix (item_title it')) (level + 1)))
            <-> (skipped ih (item_title it) = false -> is_folder it = true ->
                 may_descend ml level = true ->
                 is_Some (rec (item_id it)
                             (item_path prefix (item_title it)) (level + 1)))
                /\ is_Some (walk_items ml ih rec prefix level rest)).
    { rewrite IH. split.
      - intros H. split; [apply H; left; reflexivity|].
        intros it' Hin. apply H. right. exact Hin.
      - intros [H1 H2] it' [<-|Hin]; [exact H1|apply H2; exact Hin]. }
    rewrite Hrest. clear Hrest IH.
    destruct (skipped ih (item_title it)); [split; [intros H; split; [discriminate|exact H]|tauto]|].
    destruct (is_folder it).
    + destruct (may_descend ml level);
        [|split; [intros H; split; [discriminate|exact H]|tauto]].
      destruct (rec (item_id it) _ (level + 1)) as [[ys cs1]|].
      * destruct (walk_items ml ih rec prefix level rest) as [[zs cs2]|].
        -- split; [intros _; split; [intros; eexists; reflexivity|eexists; reflexivity]|intros _; eexists; reflexivity].
        -- split; [intros [x Hx]; discriminate|intros [_ [x Hx]]; discriminate].
      * split; [intros [x Hx]; discriminate|].
        intros [H _]. destruct (H eq_refl eq_refl eq_refl) as [x Hx].
        discriminate.
    + destruct (walk_items ml ih rec prefix level rest) as [[zs cs2]|].
      * split; [intros _; split; [discriminate|eexists; reflexivity]|intros _; eexists; reflexivity].
      * split; [intros [x Hx]; discriminate|intros [_ [x Hx]]; discriminate].
Qed.

(** *** Fuel *)

Lemma walk_items_mono rec1 rec2 prefix level l x :
  (forall f p lv y, rec1 f p lv = Some y -> rec2 f p lv = Some y) ->
  walk_items ml ih rec1 prefix level l = Some x ->
  walk_items ml ih rec2 prefix level l = Some x.
Proof.
  intros Hrec. revert x. induction l as [|it rest IH]; intros x H.
  - exact H.
  - cbn [walk_items] in *.
    destruct (skipped ih (item_title it)); [apply IH; exact H|].
    destruct (is_folder it).
    + destruct (may_descend ml level); [|apply IH; exact H].
      destruct (rec1 (item_id it) _ (level + 1)) as [[ys cs1]|] eqn:Hr;
        [|discriminate].
      rewrite (Hrec _ _ _ _ Hr).
      destruct (walk_items ml ih rec1 prefix level rest) as [[zs cs2]|];
        [|discriminate].
      rewrite (IH _ eq_refl). exact H.
    + destruct (walk_items ml ih rec1 prefix level rest) as [[zs cs2]|];
        [|discriminate].
      rewrite (IH _ eq_refl). exact H.
Qed.

Lemma walk_S its fuel f p lv x :
  walk ml ih its fuel f p lv = Some x ->
  walk ml ih its (S fuel) f p lv = Some x.
Proof.
  revert f p lv x. induction fuel as [|fuel IH]; intros f p lv x H.
  - discriminate.
  - cbn [walk] in H. change (walk ml ih its (S (S fuel)) f p lv) with
      (if cutoff ml lv then Some ([], [])
       else match walk_items ml ih (walk ml ih its (S fuel)) p lv
                             (children its f) with
            | Some (r, cs) =>
                Some (r, CallList (Query f None None) :: cs)
            | None => None
            end).
    destruct (cutoff ml lv); [exact H|].
    destruct (walk_items ml ih (walk ml ih its fuel) p lv (children its f))
      as [[r cs]|] eqn:E; [|discriminate].
    rewrite (walk_items_mono _ _ _ _ _ _ IH E). exact H.
Qed.

(** More fuel does not change a result. *)
Lemma walk_mono its fuel fuel' f p lv x :
  (fuel <= fuel')%nat ->
  walk ml ih its fuel f p lv = Some x ->
  walk ml ih its fuel' f p lv = Some x.
Proof.
  induction 1 as [|fuel' _ IH]; intros H; [exact H|].
  apply walk_S, IH, H.
Qed.

(** With a depth bound [m], fuel [m - level + 1] is enough, whatever the
    tree. *)
Lemma walk_bounded_terminates its m fuel f p lv :
  ml = Some m ->
  (Z.to_nat (m - lv) < fuel)%nat ->
  is_Some (walk ml ih its fuel f p lv).
Proof.
  intros Hml. revert f p lv. induction fuel as [|fuel IH]; intros f p lv Hfuel.
  - lia.
  - cbn [walk]. destruct (cutoff ml lv) eqn:Hc; [eexists; reflexivity|].
    assert (Hs : is_Some (walk_items ml ih (walk ml ih its fuel) p lv
                                     (children its f))).
    { apply walk_items_is_Some. intros it _ _ _ Hd.
      apply IH. unfold may_descend in Hd. rewrite Hml in Hd.
      apply Z.ltb_lt in Hd. lia. }
    destruct Hs as [[r cs] ->]. eexists; reflexivity.
Qed.

Lemma in_children its f it :
  In it (children its f) <->
  In it its /\ item_parent it = f /\ item_trashed it = false.
Proof.
  unfold children. rewrite filter_In. unfold matches. simpl.
  rewrite !andb_true_r, andb_true_iff, Nat.eqb_eq, negb_true_iff. tauto.
Qed.

Lemma walk_ranked_terminates its rank fuel f p lv :
  ranked its rank ->
  (rank f < fuel)%nat ->
  is_Some (walk ml ih its fuel f p lv).
Proof.
  intros Hrank. revert f p lv. induction fuel as [|fuel IH]; intros f p lv Hfuel.
  - lia.
  - cbn [walk]. destruct (cutoff ml lv) eqn:Hc; [eexists; reflexivity|].
    assert (Hs : is_Some (walk_items ml ih (walk ml ih its fuel) p lv
                                     (children its f))).
    { apply walk_items_is_Some. intros it Hin _ Hf _.
      apply in_children in Hin as (Hin & Hp & Ht).
      apply IH. pose proof (Hrank it Hin Hf Ht) as H. rewrite Hp in H. lia. }
    destruct Hs as [[r cs] ->]. eexists; reflexivity.
Qed.

(** *** What is yielded *)

Lemma cutoff_within lv k :
  cutoff ml lv = true -> ~ within ml (lv + Z.of_nat k).
Proof.
  unfold cutoff, within. destruct ml as [m|]; [|discriminate].
  intros H. apply Z.ltb_lt in H. lia.
Qed.

Lemma no_cutoff_within lv :
  cutoff ml lv = false -> within ml (lv + Z.of_nat 0).
Proof.
  unfold cutoff, within. destruct ml as [m|]; [|trivial].
  intros H. apply Z.ltb_ge in H. lia.
Qed.

Lemma may_descend_within lv k :
  may_descend ml lv = true ->
  within ml (lv + 1 + Z.of_nat k) <-> within ml (lv + Z.of_nat (S k)).
Proof.
  intros _. unfold within. destruct ml; [lia|tauto].
Qed.

Lemma within_may_descend lv k :
  within ml (lv + Z.of_nat (S k)) -> may_descend ml lv = true.
Proof.
  unfold within, may_descend. destruct ml as [m|]; [|reflexivity].
  intros H. apply Z.ltb_lt. lia.
Qed.

(** The traversal yields exactly the entries that lie within the depth
    bound, counted from the level it was entered at. *)
Lemma walk_spec its fuel f p lv r cs :
  walk ml ih its fuel f p lv = Some (r, cs) ->
  forall e, In e r <->
            exists k, reach ih its f p k e /\ within ml (lv + Z.of_nat k).
Proof.
  revert f p lv r cs. induction fuel as [|fuel IH]; intros f p lv r cs H e.
  - discriminate.
  - cbn [walk] in H. destruct (cutoff ml lv) eqn:Hc.
    { injection H as <- <-. split; [intros []|].
      intros (k & _ & Hw). destruct (cutoff_within _ _ Hc Hw). }
    destruct (walk_items ml ih (walk ml ih its fuel) p lv (children its f))
      as [[r' cs']|] eqn:E; [|discriminate].
    injection H as <- <-. rewrite (walk_items_In _ _ _ _ _ _ e E). split.
    + intros (it & Hin & Hs & [[Hf ->]|(Hf & Hd & ys & cs1 & Hr & Hy)]).
      * exists O. split; [apply reach_file; assumption|].
        apply no_cutoff_within, Hc.
      * apply (IH _ _ _ _ _ Hr) in Hy as (k & Hk & Hw).
        exists (S k). split; [eapply reach_dir; eassumption|].
        apply may_descend_within; assumption.
    + intros (k & Hk & Hw). inversion Hk as [f' p' it Hin Hs Hf|f' p' it k' e' Hin Hs Hf Hre]; subst.
      * exists it. split; [exact Hin|]. split; [exact Hs|]. left. auto.
      * exists it. split; [exact Hin|]. split; [exact Hs|]. right.
        pose proof (within_may_descend _ _ Hw) as Hd.
        split; [exact Hf|]. split; [exact Hd|].
        assert (Hsome : is_Some (walk_items ml ih (walk ml ih its fuel) p lv
                                            (children its f)))
          by (rewrite E; eexists; reflexivity).
        rewrite walk_items_is_Some in Hsome.
        destruct (Hsome it Hin Hs Hf Hd) as [[ys cs1] Hr].
        exists ys, cs1. split; [exact Hr|].
        apply (IH _ _ _ _ _ Hr). exists k'. split; [exact Hre|].
        apply may_descend_within; assumption.
Qed.

End TraversalFacts.

(** ** Which folders are listed *)

Lemma walk_items_calls ml ih rec prefix level l r cs c :
  walk_items ml ih rec prefix level l = Some (r, cs) ->
  In c cs ->
  exists it ys cs1,
    In it l /\ skipped ih (item_title it) = false /\ is_folder it = true /\
    may_descend ml level = true /\
    rec (item_id it) (item_path prefix (item_title it)) (level + 1)
    = Some (ys, cs1) /\ In c cs1.
Proof.
  revert r cs. induction l as [|it rest IH]; intros r cs H Hc.
  - injection H as <- <-. destruct Hc.
  - cbn [walk_items] in H.
    assert (Hrest : forall r' cs', walk_items ml ih rec prefix level rest
                                   = Some (r', cs') -> In c cs' ->
              exists it0 ys cs1,
                In it0 (it :: rest) /\ skipped ih (item_title it0) = false /\
                is_folder it0 = true /\ may_descend ml level = true /\
                rec (item_id it0) (item_path prefix (item_title it0))
                    (level + 1) = Some (ys, cs1) /\ In c cs1).
    { intros r' cs' E Hc'. destruct (IH _ _ E Hc') as (it0 & ys & cs1 & Hin & Hx).
      exists it0, ys, cs1. split; [right; exact Hin|exact Hx]. }
    destruct (skipped ih (item_title it)) eqn:Hs; [eapply Hrest; eassumption|].
    destruct (is_folder it) eqn:Hf.
    + destruct (may_descend ml level) eqn:Hd; [|eapply Hrest; eassumption].
      destruct (rec (item_id it) _ (level + 1)) as [[ys cs1]|] eqn:Hr;
        [|discriminate].
      destruct (walk_items ml ih rec prefix level rest) as [[zs cs2]|] eqn:E;
        [|discriminate].
      injection H as <- <-. apply in_app_iff in Hc as [Hc|Hc].
      * exists it, ys, cs1. split; [left; reflexivity|]. auto.
      * eapply Hrest; [reflexivity|exact Hc].
    + destruct (walk_items ml ih rec prefix level rest) as [[zs cs2]|] eqn:E;
        [|discriminate].
      injection H as <- <-. eapply Hrest; [reflexivity|exact Hc].
Qed.

(** The only listings a traversal requests are those of the folder it was
    entered on and of listed folders it did not skip. *)
Lemma walk_calls ml ih its fuel f p lv r cs c :
  walk ml ih its fuel f p lv = Some (r, cs) ->
  In c cs ->
  exists g, c = CallList (Query g None None) /\
            (g = f \/
             exists it, In it its /\ item_id it = g /\ is_folder it = true /\
                        skipped ih (item_title it) = false).
Proof.
  revert f p lv r cs. induction fuel as [|fuel IH]; intros f p lv r cs H Hc.
  - discriminate.
  - cbn [walk] in H. destruct (cutoff ml lv).
    { injection H as <- <-. destruct Hc. }
    destruct (walk_items ml ih (walk ml ih its fuel) p lv (children its f))
      as [[r' cs']|] eqn:E; [|discriminate].
    injection H as <- <-. destruct Hc as [<-|Hc].
    + exists f. auto.
    + destruct (walk_items_calls _ _ _ _ _ _ _ _ _ E Hc)
        as (it & ys & cs1 & Hin & Hs & Hf & _ & Hr & Hc1).
      destruct (IH _ _ _ _ _ Hr Hc1) as (g & -> & [->|Hg]).
      * exists (item_id it). split; [reflexivity|]. right.
        apply in_children in Hin as (Hin & _). exists it. auto.
      * exists g. auto.
Qed.



(** ** Depth bound *)

Lemma enough_fuel_walk ml ih its fuel folder prefix level :
  enough_fuel ml its fuel folder level ->
  is_Some (walk ml ih its fuel folder prefix level).
Proof.
  unfold enough_fuel. destruct ml as [m|] eqn:E.
  - intros H. eapply walk_bounded_terminates; [reflexivity|exact H].
  - intros (rank & Hr & Hf). eapply walk_ranked_terminates; eassumption.
Qed.




(** The two stores of the depth-bound property, on the sample tree. *)
Example depth_zero_sample :
  fst <$> list_root 1 (Sample.store (Some 0) false)
  = Some [("r.txt", 1%nat)].
Proof. reflexivity. Qed.

Example depth_unbounded_sample :
  fst <$> list_root 4 (Sample.store None false)
  = Some [("r.txt", 1%nat); ("sub/s.txt", 3%nat); ("sub/deep/z", 8%nat)].
Proof. reflexivity. Qed.

(** ** The cutoff *)

Lemma for_items_ext ml ih rec1 rec2 prefix level l d :
  (may_descend ml level = true ->
   forall f p d', rec1 f p (level + 1) d' = rec2 f p (level + 1) d') ->
  for_items ml ih rec1 prefix level l d = for_items ml ih rec2 prefix level l d.
Proof.
  intros Hrec. revert d. induction l as [|it rest IH]; intros d.
  - reflexivity.
  - cbn [for_items].
    destruct (skipped ih (item_title it)); [apply IH|].
    destruct (is_folder it).
    + destruct (may_descend ml level) eqn:Hd; [|apply IH].
      rewrite (Hrec eq_refl).
      destruct (rec2 (item_id it) _ (level + 1) d) as [[ys d1]|];
        [|reflexivity].
      rewrite IH. reflexivity.
    + rewrite IH. reflexivity.
Qed.

Lemma cutoff_dead m ih fuel f p lv d :
  lv <= m ->
  _list_files (Some m) ih fuel f p lv d
  = _list_files_without_cutoff (Some m) ih fuel f p lv d.
Proof.
  revert f p lv d. induction fuel as [|fuel IH]; intros f p lv d Hlv.
  - reflexivity.
  - cbn [_list_files _list_files_without_cutoff].
    unfold cutoff. destruct (Z.ltb_spec m lv) as [Hlt|_]; [lia|].
    unfold ListFile. apply for_items_ext.
    intros Hd f' p' d'. apply IH.
    unfold may_descend in Hd. apply Z.ltb_lt in Hd. lia.
Qed.

(** C10. A negative [max_levels] makes the traversal return at once, with
    nothing yielded and no backend call; for [max_levels >= 0] the cutoff
    never fires in a traversal entered at a level up to [max_levels] (level
    0 in particular): the code without the cutoff does the same. *)
Theorem negative_bound_empty_and_cutoff_dead m ih fuel d folder prefix :
  (m < 0 ->
   _list_files (Some m) ih (S fuel) folder prefix 0 d = Some ([], d)) /\
  (0 <= m ->
   forall level, level <= m ->
     _list_files (Some m) ih fuel folder prefix level d
     = _list_files_without_cutoff (Some m) ih fuel folder prefix level d).
Proof.
  split.
  - intros Hm. cbn [_list_files]. unfold cutoff.
    destruct (Z.ltb_spec m 0) as [_|Hge]; [reflexivity|lia].
  - intros _ level Hlv. apply cutoff_dead, Hlv.
Qed.

Lemma negative_bound_empty_and_cutoff_dead_witness :
  _list_files (Some (-1)) false 1 0%nat "" 0 Sample.d0 = Some ([], Sample.d0) /\
  _list_files (Some 1) false 3 0%nat "" 0 Sample.d0
  = _list_files_without_cutoff (Some 1) false 3 0%nat "" 0 Sample.d0.
Proof.
  split.
  - apply (negative_bound_empty_and_cutoff_dead (-1) false 0 Sample.d0
             0%nat ""). lia.
  - apply (negative_bound_empty_and_cutoff_dead 1 false 3 Sample.d0
             0%nat ""); lia.
Defined.

(** ** Hidden entries *)

Lemma walk_items_ext ml ih rec1 rec2 prefix level l :
  (forall f p lv, rec1 f p lv = rec2 f p lv) ->
  walk_items ml ih rec1 prefix level l = walk_items ml ih rec2 prefix level l.
Proof.
  intros Hrec. induction l as [|it rest IH]; [reflexivity|].
  cbn [walk_items]. rewrite Hrec, IH. reflexivity.
Qed.




Lemma filter_comm {A} (P Q : A -> bool) (l : list A) :
  List.filter P (List.filter Q l) = List.filter Q (List.filter P l).
Proof.
  induction l as [|x l IH]; [reflexivity|].
  cbn [List.filter]. destruct (P x) eqn:HP, (Q x) eqn:HQ;
    cbn [List.filter]; rewrite ?HP, ?HQ, IH; reflexivity.
Qed.



(** The last node of a chain is a listed file, not skipped. *)
Lemma reach_last ih its f p k e :
  reach ih its f p k e ->
  exists it, In it its /\ item_id it = snd e /\ is_folder it = false /\
             skipped ih (item_title it) = false /\ item_trashed it = false.
Proof.
  induction 1 as [f p it Hin Hs Hf|f p it k e Hin Hs Hf _ IH]; [|exact IH].
  apply in_children in Hin as (Hin & _ & Ht). exists it. simpl. auto.
Qed.



(** The sample tree with hidden-inclusion disabled and enabled. *)
Example hidden_disabled_sample :
  fst <$> list_root 4 (Sample.store None false)
  = Some [("r.txt", 1%nat); ("sub/s.txt", 3%nat); ("sub/deep/z", 8%nat)].
Proof. reflexivity. Qed.

Example hidden_enabled_sample :
  fst <$> list_root 4 (Sample.store None true)
  = Some [("r.txt", 1%nat); ("sub/s.txt", 3%nat); ("sub/deep/z", 8%nat);
          (".h", 4%nat); (".hid/in", 6%nat)].
Proof. reflexivity. Qed.

(** ** The type guard *)

(** C6. A value that is not a [bytes] object makes [__setitem__] raise
    [TypeError] and leaves the instance, its backend and the log of backend
    calls as they were: no call was made. *)
Theorem setitem_type_guard key value self :
  Py.isinstance_bytes value = false ->
  __setitem__ key value self = Some (Raise TypeError, self).
Proof.
  intros H. destruct value; try reflexivity. discriminate H.
Qed.

Lemma setitem_type_guard_witness :
  __setitem__ "a/b.txt" (Py.VStr "not bytes") (Sample.store None false)
  = Some (Raise TypeError, Sample.store None false).
Proof.
  apply (setitem_type_guard "a/b.txt" (Py.VStr "not bytes")
           (Sample.store None false)).
  reflexivity.
Defined.

(** ** Folder resolution *)


Lemma split_slash_no_slash key :
  no_slash key = true -> Py.split_slash key = [key].
Proof.
  unfold no_slash. induction key as [|c key IH]; [reflexivity|].
  cbn [list_ascii_of_string existsb Py.split_slash].
  rewrite negb_true_iff, orb_false_iff. intros [Hc Hk].
  rewrite Ascii.eqb_sym, Hc, IH; [reflexivity|].
  rewrite Hk. reflexivity.
Qed.



(** What a resolution changes in the backend: it appends folders named
    after segments, at most one per segment, and every creation follows a
    listing that looked for the folder. *)
Lemma resolve_folders_effect parts cur d c d' :
  resolve_folders parts cur d = (c, d') ->
  exists new cs,
    items d' = (items d ++ new)%list /\ log d' = (log d ++ cs)%list /\
    (length new <= length parts)%nat /\
    Forall (fun it => is_folder it = true /\ In (item_title it) parts) new /\
    checked_before_create cs.
Proof.
  revert cur d c d'. induction parts as [|s parts IH]; intros cur d c d' H.
  - injection H as <- <-. exists [], []. rewrite !app_nil_r.
    repeat split; auto. constructor.
  - cbn [resolve_folders] in H. unfold ListFile, upload_new in H.
    destruct (List.filter _ (items d)) as [|f fs].
    + apply IH in H as (new & cs & Hi & Hl & Hn & Hf & Hc). cbn in Hi, Hl.
      exists (Item (next_id d) s FOLDER_MIME cur false (CStr []) :: new),
             (CallList (Query cur (Some s) (Some FOLDER_MIME))
              :: CallInsert cur s FOLDER_MIME :: cs).
      rewrite Hi, Hl, <- !app_assoc.
      split; [reflexivity|]. split; [reflexivity|].
      split; [cbn [length]; lia|]. split.
      * constructor; [split; [reflexivity|left; reflexivity]|].
        eapply List.Forall_impl; [|exact Hf]. intros it [H1 H2].
        split; [exact H1|right; exact H2].
      * apply checked_create. exact Hc.
    + apply IH in H as (new & cs & Hi & Hl & Hn & Hf & Hc). cbn in Hi, Hl.
      exists new, (CallList (Query cur (Some s) (Some FOLDER_MIME)) :: cs).
      rewrite Hi, Hl, <- !app_assoc.
      split; [reflexivity|]. split; [reflexivity|].
      split; [cbn [length]; lia|]. split.
      * eapply List.Forall_impl; [|exact Hf]. intros it [H1 H2].
        split; [exact H1|right; exact H2].
      * apply checked_list. exact Hc.
Qed.





(** Writing [a/b/x.txt] then [a/b/y.txt] into an empty root: one folder
    [a] under the root, one folder [b] under it, and the two files. *)
Example two_writes_one_folder_each :
  (let* _ := __setitem__ "a/b/x.txt" (Py.VBytes ["h"%byte]) in
   __setitem__ "a/b/y.txt" (Py.VBytes ["i"%byte])) (Sample.empty None false)
  = Some (Return tt,
          MkStore 0%nat None false
            (Mk [Item 1 "a" FOLDER_MIME 0 false (CStr []);
                 Item 2 "b" FOLDER_MIME 1 false (CStr []);
                 Item 3 "x.txt" FILE_MIME 2 false (CStr [104%N]);
                 Item 4 "y.txt" FILE_MIME 2 false (CStr [105%N])]%nat
                5%nat
                [CallList (Query 0 (Some "a") (Some FOLDER_MIME));
                 CallInsert 0 "a" FOLDER_MIME;
                 CallList (Query 1 (Some "b") (Some FOLDER_MIME));
                 CallInsert 1 "b" FOLDER_MIME;
                 CallList (Query 2 (Some "x.txt") None);
                 CallInsert 2 "x.txt" FILE_MIME;
                 CallList (Query 0 (Some "a") (Some FOLDER_MIME));
                 CallList (Query 1 (Some "b") (Some FOLDER_MIME));
                 CallList (Query 2 (Some "y.txt") None);
                 CallInsert 2 "y.txt" FILE_MIME]%nat)
            None).
Proof. reflexivity. Qed.

(** ** The cached index *)

Lemma with_drive_same s : with_drive s (_drive s) = s.
Proof. destruct s; reflexivity. Qed.

Lemma with_drive_add_log_nil s : with_drive s (add_log (_drive s) []) = s.
Proof. rewrite add_log_nil. apply with_drive_same. Qed.

Lemma files_cached fuel s c :
  _file_cache s = Some c -> _files fuel s = Some (Return c, s).
Proof. intros H. unfold _files. rewrite H. reflexivity. Qed.

Lemma list_root_traversal fuel s r cs :
  traversal fuel s r cs ->
  list_root fuel s = Some (r, add_log (_drive s) cs).
Proof.
  unfold traversal, list_root. intros H. rewrite list_files_walk, H.
  reflexivity.
Qed.

Lemma files_uncached fuel s r cs :
  _file_cache s = None -> traversal fuel s r cs ->
  _files fuel s = Some (Return (Py.dict r), built s r cs).
Proof.
  intros H Ht. unfold _files. rewrite H, (list_root_traversal _ _ _ _ Ht).
  reflexivity.
Qed.

(** With the index cached, a read-side operation answers from it, keeps it
    and requests no listing. *)
Lemma read_op_cached fuel op s c :
  _file_cache s = Some c ->
  exists r cs,
    read_op_run fuel op s = Some (r, with_drive s (add_log (_drive s) cs)) /\
    Forall not_list cs /\ answers c op r.
Proof.
  intros Hc. destruct op as [| |key|key]; cbn [read_op_run answers].
  - exists (Return (RKeys (map fst (map_to_list c)))), [].
    rewrite with_drive_add_log_nil. unfold bind, __iter__, bind.
    rewrite (files_cached _ _ _ Hc). repeat split. constructor.
  - exists (Return (RSize (size c))), [].
    rewrite with_drive_add_log_nil. unfold bind, __len__, bind.
    rewrite (files_cached _ _ _ Hc). repeat split. constructor.
  - exists (Return (RBool (bool_decide (is_Some (c !! key))))), [].
    rewrite with_drive_add_log_nil. unfold bind, __contains__, bind.
    rewrite (files_cached _ _ _ Hc). repeat split. constructor.
  - unfold bind, __getitem__, bind. rewrite (files_cached _ _ _ Hc).
    destruct (c !! key) as [i|] eqn:E.
    + rewrite bool_decide_eq_true_2 by (eexists; reflexivity). cbn [negb].
      rewrite (files_cached _ _ _ Hc), E.
      unfold on_drive, GetContentString.
      change (record (CallGetContent i) (_drive s))
        with (add_log (_drive s) [CallGetContent i]).
      assert (Hnl : Forall not_list [CallGetContent i])
        by (constructor; [reflexivity|constructor]).
      destruct (item_content <$> List.find (has_id i) (items (_drive s)))
        as [[t|b]|].
      * destruct (Py.encode_latin1 t) as [b|]; cbn;
          eexists _, _; (split; [reflexivity|]); split; try exact Hnl;
          discriminate.
      * cbn. eexists _, _. split; [reflexivity|]. split; [exact Hnl|].
        discriminate.
      * cbn. eexists _, _. split; [reflexivity|]. split; [exact Hnl|].
        discriminate.
    + rewrite bool_decide_eq_false_2 by (intros [x Hx]; discriminate).
      cbn [negb]. exists (Raise (KeyError key)), [].
      rewrite with_drive_add_log_nil. repeat split. constructor.
Qed.

Lemma run_reads_cached fuel ops s c :
  _file_cache s = Some c ->
  exists rs cs,
    run_reads fuel ops s = Some (rs, with_drive s (add_log (_drive s) cs)) /\
    Forall not_list cs /\ Forall2 (answers c) ops rs.
Proof.
  revert s. induction ops as [|op ops IH]; intros s Hc.
  - exists [], []. rewrite with_drive_add_log_nil. repeat split; constructor.
  - cbn [run_reads].
    destruct (read_op_cached fuel op s c Hc) as (r & cs1 & -> & Hn1 & Ha).
    destruct (IH (with_drive s (add_log (_drive s) cs1)) Hc)
      as (rs & cs2 & -> & Hn2 & Has).
    exists (r :: rs), (cs1 ++ cs2)%list. cbn [with_drive _drive folder_id
      max_levels include_hidden _file_cache].
    rewrite add_log_add_log. split; [reflexivity|].
    split; [apply Forall_app; split; assumption|constructor; assumption].
Qed.

(** C8. While the index is cached, any sequence of read-side operations
    comes back (whatever the fuel), answers from that same index, leaves it
    in place and requests no listing from the backend.  Starting without a
    cached index, a non-empty sequence requests the listings of one
    traversal, made by its first operation, and no other. *)
Theorem index_memoized fuel ops s :
  (forall c, _file_cache s = Some c ->
     exists rs cs,
       run_reads fuel ops s
       = Some (rs, with_drive s (add_log (_drive s) cs)) /\
       Forall not_list cs /\ Forall2 (answers c) ops rs) /\
  (forall r cs0 op, _file_cache s = None -> traversal fuel s r cs0 ->
     exists rs cs,
       run_reads fuel (op :: ops) s
       = Some (rs, built s r (cs0 ++ cs)) /\
       Forall not_list cs /\ Forall2 (answers (Py.dict r)) (op :: ops) rs).
Proof.
  split.
  - intros c Hc. apply run_reads_cached, Hc.
  - intros r cs0 op Hc Ht.
    assert (Hb : _file_cache (built s r cs0) = Some (Py.dict r)) by reflexivity.
    (* the first operation builds the index and then acts as on a cached one *)
    assert (H1 : read_op_run fuel op s = read_op_run fuel op (built s r cs0)).
    { destruct op; cbn [read_op_run]; unfold bind, __iter__, __len__,
        __contains__, __getitem__, bind;
        rewrite (files_uncached _ _ _ _ Hc Ht), (files_cached _ _ _ Hb);
        reflexivity. }
    cbn [run_reads]. rewrite H1.
    destruct (run_reads_cached fuel (op :: ops) (built s r cs0) _ Hb)
      as (rs & cs & Hr & Hn & Ha).
    cbn [run_reads] in Hr. exists rs, cs. split; [|split; assumption].
    rewrite Hr. unfold built. cbn [with_drive with_cache _drive folder_id
      max_levels include_hidden _file_cache]. rewrite add_log_add_log.
    reflexivity.
Qed.

Lemma index_memoized_witness :
  (exists rs cs,
      run_reads 0 [OpKeys; OpSize; OpContains "r.txt"; OpRead "nope"]
                (with_cache (Sample.store None false)
                            (Some (Py.dict [("r.txt", 1%nat)])))
      = Some (rs, with_drive
                    (with_cache (Sample.store None false)
                                (Some (Py.dict [("r.txt", 1%nat)])))
                    (add_log Sample.d0 cs)) /\
      Forall not_list cs /\
      Forall2 (answers (Py.dict [("r.txt", 1%nat)]))
              [OpKeys; OpSize; OpContains "r.txt"; OpRead "nope"] rs) /\
  (exists rs cs,
      run_reads 4 [OpContains "r.txt"; OpKeys; OpSize; OpRead "r.txt"]
                (Sample.store None false)
      = Some (rs, built (Sample.store None false)
                        [("r.txt", 1%nat); ("sub/s.txt", 3%nat);
                         ("sub/deep/z", 8%nat)]
                        ([CallList (Query 0%nat None None);
                          CallList (Query 2%nat None None);
                          CallList (Query 7%nat None None)] ++ cs)) /\
      Forall not_list cs /\
      Forall2 (answers (Py.dict [("r.txt", 1%nat); ("sub/s.txt", 3%nat);
                                 ("sub/deep/z", 8%nat)]))
              [OpContains "r.txt"; OpKeys; OpSize; OpRead "r.txt"] rs).
Proof.
  split.
  - apply (index_memoized 0 [OpKeys; OpSize; OpContains "r.txt"; OpRead "nope"]
             (with_cache (Sample.store None false)
                         (Some (Py.dict [("r.txt", 1%nat)])))).
    reflexivity.
  - apply (index_memoized 4 [OpKeys; OpSize; OpRead "r.txt"]
             (Sample.store None false)); reflexivity.
Defined.

(** ** Failing with NotFound *)

(** C9, as the code has it.  With the index cached, a read or a delete of
    an absent key raises [KeyError] and leaves the instance and the backend
    exactly as they were: no call, no invalidation.  Without a cached index,
    the membership test first builds it: the listings of one traversal are
    requested (and nothing else), the index is stored, then [KeyError] is
    raised; nothing is fetched or deleted and the index is not discarded. *)
Theorem not_found_keeps_index fuel key s :
  (forall c, _file_cache s = Some c -> c !! key = None ->
     __getitem__ fuel key s = Some (Raise (KeyError key), s) /\
     __delitem__ fuel key s = Some (Raise (KeyError key), s)) /\
  (forall r cs, _file_cache s = None -> traversal fuel s r cs ->
     Py.dict r !! key = None ->
     __getitem__ fuel key s = Some (Raise (KeyError key), built s r cs) /\
     __delitem__ fuel key s = Some (Raise (KeyError key), built s r cs) /\
     Forall (fun c => is_list c = true) cs).
Proof.
  split.
  - intros c Hc Hk. unfold __getitem__, __delitem__, bind.
    rewrite (files_cached _ _ _ Hc), Hk.
    rewrite bool_decide_eq_false_2 by (intros [x Hx]; discriminate).
    split; reflexivity.
  - intros r cs Hc Ht Hk. unfold __getitem__, __delitem__, bind.
    rewrite (files_uncached _ _ _ _ Hc Ht), Hk.
    rewrite bool_decide_eq_false_2 by (intros [x Hx]; discriminate).
    split; [reflexivity|]. split; [reflexivity|].
    apply List.Forall_forall. intros c Hin.
    destruct (walk_calls _ _ _ _ _ _ _ _ _ _ Ht Hin) as (g & -> & _).
    reflexivity.
Qed.

Lemma not_found_keeps_index_witness :
  (__getitem__ 0 "nope" (with_cache (Sample.store None false)
                                   (Some (Py.dict [("r.txt", 1%nat)])))
   = Some (Raise (KeyError "nope"),
           with_cache (Sample.store None false)
                      (Some (Py.dict [("r.txt", 1%nat)]))) /\
   __delitem__ 0 "nope" (with_cache (Sample.store None false)
                                   (Some (Py.dict [("r.txt", 1%nat)])))
   = Some (Raise (KeyError "nope"),
           with_cache (Sample.store None false)
                      (Some (Py.dict [("r.txt", 1%nat)])))) /\
  (__getitem__ 1 "nope" (Sample.store (Some 0) false)
   = Some (Raise (KeyError "nope"),
           built (Sample.store (Some 0) false) [("r.txt", 1%nat)]
                 [CallList (Query 0%nat None None)]) /\
   __delitem__ 1 "nope" (Sample.store (Some 0) false)
   = Some (Raise (KeyError "nope"),
           built (Sample.store (Some 0) false) [("r.txt", 1%nat)]
                 [CallList (Query 0%nat None None)]) /\
   Forall (fun c => is_list c = true) [CallList (Query 0%nat None None)]).
Proof.
  split.
  - apply (proj1 (not_found_keeps_index 0 "nope"
                    (with_cache (Sample.store None false)
                                (Some (Py.dict [("r.txt", 1%nat)]))))
                 (Py.dict [("r.txt", 1%nat)])); vm_compute; reflexivity.
  - apply (proj2 (not_found_keeps_index 1 "nope"
                    (Sample.store (Some 0) false)));
      vm_compute; reflexivity.
Defined.

(** On an instance that has no cached index yet (here over an empty root
    folder), a failing read is not without effect: a listing is requested
    and the index is stored. *)
Lemma not_found_first_access_changes_state :
  exists s',
    __getitem__ 1 "x" (Sample.empty None false)
    = Some (Raise (KeyError "x"), s') /\
    s' <> Sample.empty None false /\
    log (_drive (Sample.empty None false)) = [] /\
    log (_drive s') = [CallList (Query 0%nat None None)] /\
    _file_cache (Sample.empty None false) = None /\
    _file_cache s' = Some ∅.
Proof.
  eexists. split; [vm_compute; reflexivity|].
  split; [intros H; apply (f_equal _file_cache) in H; discriminate H|].
  repeat split.
Qed.

(** ** Invalidation *)

Lemma setitem_bytes key b s :
  exists d', __setitem__ key (Py.VBytes b) s
             = Some (Return tt, with_cache (with_drive s d') None).
Proof.
  unfold __setitem__, bind, _get_or_create_folders.
  destruct (resolve_folders _ _ _) as [parent d1].
  unfold on_drive, ListFile. cbn [_drive with_drive].
  destruct (List.filter _ (items d1)) as [|gfile fs];
    cbn; eexists; reflexivity.
Qed.

Lemma delitem_return fuel key s s' :
  __delitem__ fuel key s = Some (Return tt, s') -> _file_cache s' = None.
Proof.
  unfold __delitem__, bind.
  destruct (_files fuel s) as [[[c|e] s0]|]; try discriminate.
  destruct (negb _); [discriminate|].
  destruct (_files fuel s0) as [[[c'|e] s1]|]; try discriminate.
  destruct (c' !! key) as [i|]; [|discriminate].
  unfold on_drive, Delete. destruct (existsb _ _); [|discriminate].
  cbn. intros H. injection H as <-. reflexivity.
Qed.

Lemma traversal_head fuel s r cs :
  traversal fuel s r cs -> within (max_levels s) 0 ->
  exists cs', cs = CallList (Query (folder_id s) None None) :: cs'.
Proof.
  unfold traversal. destruct fuel as [|fuel]; [discriminate|].
  cbn [walk]. intros H Hw.
  assert (Hc : cutoff (max_levels s) 0 = false).
  { unfold cutoff, within in *. destruct (max_levels s) as [m|]; [|reflexivity].
    apply Z.ltb_ge. exact Hw. }
  rewrite Hc in H.
  destruct (walk_items _ _ _ _ _ _) as [[r' cs']|]; [|discriminate].
  injection H as <- <-. eexists; reflexivity.
Qed.

(** C5, as the code has it.  A write or a delete that succeeds leaves the
    instance without any cached index.  The next read-side access, given
    enough fuel, builds the index anew as the traversal of the tree as it
    is after the mutation and stores it; when [max_levels] is [None] or not
    negative, that traversal starts by listing the root folder again. *)
Theorem mutation_discards_index fuel key s s' :
  (exists b, __setitem__ key (Py.VBytes b) s = Some (Return tt, s')) \/
  __delitem__ fuel key s = Some (Return tt, s') ->
  _file_cache s' = None /\
  forall fuel',
    enough_fuel (max_levels s') (items (_drive s')) fuel' (folder_id s') 0 ->
    exists r cs,
      traversal fuel' s' r cs /\
      __iter__ fuel' s'
      = Some (Return (map fst (map_to_list (Py.dict r))), built s' r cs) /\
      (forall k, __contains__ fuel' k s'
                 = Some (Return (bool_decide (is_Some (Py.dict r !! k))),
                         built s' r cs)) /\
      __len__ fuel' s' = Some (Return (size (Py.dict r)), built s' r cs) /\
      (within (max_levels s') 0 ->
       exists cs', cs = CallList (Query (folder_id s') None None) :: cs').
Proof.
  intros H.
  assert (Hc : _file_cache s' = None).
  { destruct H as [[b H]|H]; [|eapply delitem_return; exact H].
    destruct (setitem_bytes key b s) as [d' Hd]. rewrite Hd in H.
    injection H as <-. reflexivity. }
  split; [exact Hc|]. intros fuel' Hfuel.
  destruct (enough_fuel_walk _ (include_hidden s') _ _ _ "" _ Hfuel)
    as [[r cs] Ht].
  exists r, cs. split; [exact Ht|].
  unfold __iter__, __contains__, __len__, bind.
  rewrite (files_uncached _ _ _ _ Hc Ht).
  split; [reflexivity|]. split; [intros k; reflexivity|].
  split; [reflexivity|]. apply (traversal_head _ _ _ _ Ht).
Qed.

Lemma mutation_discards_index_witness :
  _file_cache Sample.written = None /\
  forall fuel',
    enough_fuel (max_levels Sample.written) (items (_drive Sample.written))
                fuel' (folder_id Sample.written) 0 ->
    exists r cs,
      traversal fuel' Sample.written r cs /\
      __iter__ fuel' Sample.written
      = Some (Return (map fst (map_to_list (Py.dict r))),
              built Sample.written r cs) /\
      (forall k, __contains__ fuel' k Sample.written
                 = Some (Return (bool_decide (is_Some (Py.dict r !! k))),
                         built Sample.written r cs)) /\
      __len__ fuel' Sample.written
      = Some (Return (size (Py.dict r)), built Sample.written r cs) /\
      (within (max_levels Sample.written) 0 ->
       exists cs',
         cs = CallList (Query (folder_id Sample.written) None None) :: cs').
Proof.
  apply (mutation_discards_index 0 "new.txt" (Sample.store None false)
           Sample.written).
  left. exists ["h"%byte]. reflexivity.
Defined.

(** With a negative [max_levels] the access that follows a successful
    write requests no listing at all, and the key just written is not among
    the keys. *)
Lemma negative_bound_rebuild_lists_nothing :
  exists s' s'',
    __setitem__ "x" (Py.VBytes ["h"%byte]) (Sample.empty (Some (-1)) false)
    = Some (Return tt, s') /\
    _file_cache s' = None /\
    __iter__ 1 s' = Some (Return [], s'') /\
    list_calls (_drive s'') = list_calls (_drive s') /\
    log (_drive s'') = log (_drive s').
Proof.
  eexists _, _. split; [vm_compute; reflexivity|].
  split; [reflexivity|]. split; [vm_compute; reflexivity|].
  split; reflexivity.
Qed.

(** ** Delete *)

Lemma reach_incl ih its its' f p k e :
  (forall g it, In it (children its' g) -> In it (children its g)) ->
  reach ih its' f p k e -> reach ih its f p k e.
Proof.
  intros Hsub. induction 1 as [f p it Hin Hs Hf|f p it k e Hin Hs Hf _ IH].
  - apply reach_file; auto.
  - eapply reach_dir; eauto.
Qed.

Lemma walk_sub_terminates ml ih its its' fuel f p lv :
  (forall g it, In it (children its' g) -> In it (children its g)) ->
  is_Some (walk ml ih its fuel f p lv) ->
  is_Some (walk ml ih its' fuel f p lv).
Proof.
  intros Hsub. revert f p lv. induction fuel as [|fuel IH]; intros f p lv H.
  - exact H.
  - cbn [walk] in *. destruct (cutoff ml lv); [exact H|].
    assert (H1 : is_Some (walk_items ml ih (walk ml ih its fuel) p lv
                                     (children its f))).
    { destruct (walk_items _ _ _ _ _ (children its f)) as [x|];
        [eexists; reflexivity|]. destruct H as [x Hx]. discriminate. }
    assert (H2 : is_Some (walk_items ml ih (walk ml ih its' fuel) p lv
                                     (children its' f))).
    { rewrite walk_items_is_Some in H1 |- *. intros it Hin Hs Hf Hd.
      apply IH, H1; auto. }
    destruct H2 as [[r cs] ->]. eexists; reflexivity.
Qed.

Lemma children_filter P its g it :
  In it (children (List.filter P its) g) -> In it (children its g).
Proof.
  rewrite !in_children, filter_In. tauto.
Qed.

(** Removing the nodes of identity [i] from the tree removes entries from
    what the traversal yields, and leaves none of identity [i]. *)
Lemma walk_after_delete ml ih its i fuel f p lv r cs :
  walk ml ih its fuel f p lv = Some (r, cs) ->
  exists r' cs',
    walk ml ih (List.filter (fun it => negb (has_id i it)) its) fuel f p lv
    = Some (r', cs') /\
    forall e, In e r' -> In e r /\ snd e <> i.
Proof.
  intros H.
  destruct (walk_sub_terminates ml ih its
              (List.filter (fun it => negb (has_id i it)) its) fuel f p lv)
    as [[r' cs'] H'].
  { intros g it. apply children_filter. }
  { rewrite H. eexists; reflexivity. }
  exists r', cs'. split; [exact H'|]. intros e He.
  apply (walk_spec _ _ _ _ _ _ _ _ _ H') in He as (k & Hk & Hw). split.
  - apply (walk_spec _ _ _ _ _ _ _ _ _ H). exists k. split; [|exact Hw].
    eapply reach_incl; [|exact Hk]. intros g it. apply children_filter.
  - destruct (reach_last _ _ _ _ _ _ Hk) as (it & Hin & Hid & _).
    apply filter_In in Hin as [_ Hne]. unfold has_id in Hne.
    rewrite negb_true_iff, Nat.eqb_neq in Hne. congruence.
Qed.

(** Every yielded identity is the identity of a node of the tree. *)
Lemma yielded_exists ml ih its fuel f p lv r cs key i :
  walk ml ih its fuel f p lv = Some (r, cs) -> In (key, i) r ->
  existsb (has_id i) its = true.
Proof.
  intros H Hin. apply (walk_spec _ _ _ _ _ _ _ _ _ H) in Hin as (k & Hk & _).
  destruct (reach_last _ _ _ _ _ _ Hk) as (it & Hit & Hid & _).
  apply existsb_exists. exists it. split; [exact Hit|].
  unfold has_id. apply Nat.eqb_eq. exact Hid.
Qed.

Lemma files_index_is fuel s r :
  index_is fuel s r ->
  exists cs,
    Forall (fun c => is_list c = true) cs /\
    _files fuel s
    = Some (Return (Py.dict r),
            with_cache (with_drive s (add_log (_drive s) cs))
                       (Some (Py.dict r))).
Proof.
  intros [[cs Ht] [Hc|Hc]].
  - exists cs. split; [|apply (files_uncached _ _ _ _ Hc Ht)].
    apply List.Forall_forall. intros c Hin.
    destruct (walk_calls _ _ _ _ _ _ _ _ _ _ Ht Hin) as (g & -> & _).
    reflexivity.
  - exists []. split; [constructor|]. rewrite (files_cached _ _ _ Hc).
    rewrite add_log_nil. destruct s; cbn in *. rewrite Hc. reflexivity.
Qed.

(** C7, as the code has it.  On an instance whose index is up to date,
    [__delitem__] raises [KeyError] when the key is absent from the index
    (the index staying in place) and otherwise succeeds: the node the index
    holds for the key is removed from the backend and the cached index is
    discarded.  If the traversal yielded the key for that node only, then
    afterwards the key is not contained and reading it raises [KeyError]. *)
Theorem delitem_spec fuel key s r :
  index_is fuel s r ->
  (Py.dict r !! key = None ->
   exists s0, __delitem__ fuel key s = Some (Raise (KeyError key), s0) /\
              _file_cache s0 = Some (Py.dict r) /\
              items (_drive s0) = items (_drive s)) /\
  (forall i, Py.dict r !! key = Some i ->
     exists s1 cs,
       __delitem__ fuel key s = Some (Return tt, s1) /\
       _file_cache s1 = None /\
       existsb (has_id i) (items (_drive s)) = true /\
       items (_drive s1)
       = List.filter (fun it => negb (has_id i it)) (items (_drive s)) /\
       log (_drive s1) = (log (_drive s) ++ cs ++ [CallDelete i])%list /\
       Forall (fun c => is_list c = true) cs /\
       ((forall j, In (key, j) r -> j = i) ->
        exists s2,
          __contains__ fuel key s1 = Some (Return false, s2) /\
          __getitem__ fuel key s1 = Some (Raise (KeyError key), s2))).
Proof.
  intros Hidx. destruct (files_index_is _ _ _ Hidx) as (cs & Hcs & Hfiles).
  destruct Hidx as [[cs0 Ht] _].
  set (s0 := with_cache (with_drive s (add_log (_drive s) cs))
                        (Some (Py.dict r))) in *.
  assert (Hs0 : _files fuel s0 = Some (Return (Py.dict r), s0))
    by (apply files_cached; reflexivity).
  split.
  - intros Hk. exists s0. unfold __delitem__, bind. rewrite Hfiles, Hk.
    rewrite bool_decide_eq_false_2 by (intros [x Hx]; discriminate).
    repeat split.
  - intros i Hk.
    pose proof (yielded_exists _ _ _ _ _ _ _ _ _ _ _ Ht
                  (dict_lookup_Some _ _ _ Hk)) as Hex.
    eexists _, cs. unfold __delitem__, bind. rewrite Hfiles, Hk.
    rewrite bool_decide_eq_true_2 by (eexists; reflexivity). cbn [negb].
    rewrite Hs0, Hk. unfold on_drive, Delete.
    cbn [s0 _drive with_cache with_drive add_log items]. rewrite Hex.
    cbn [_refresh_cache].
    split; [reflexivity|]. split; [reflexivity|]. split; [reflexivity|].
    split; [reflexivity|].
    split; [cbn; rewrite <- app_assoc; reflexivity|].
    split; [exact Hcs|]. intros Huniq.
    destruct (walk_after_delete _ _ _ i _ _ _ _ _ _ Ht) as (r' & cs' & Ht' & Hsub).
    assert (Hnone : Py.dict r' !! key = None).
    { apply dict_lookup_None. intros v Hin.
      destruct (Hsub _ Hin) as [Hin' Hne]. apply Hne. simpl.
      apply Huniq, Hin'. }
    eexists. unfold __contains__, __getitem__, bind.
    rewrite (files_uncached _ _ r' cs') by (try reflexivity; exact Ht').
    rewrite Hnone.
    rewrite bool_decide_eq_false_2 by (intros [x Hx]; discriminate).
    split; reflexivity.
Qed.

Lemma delitem_spec_witness :
  (exists s0,
     __delitem__ 1 "sub/s.txt" (Sample.store (Some 0) false)
     = Some (Raise (KeyError "sub/s.txt"), s0) /\
     _file_cache s0 = Some (Py.dict [("r.txt", 1%nat)]) /\
     items (_drive s0) = items (_drive (Sample.store (Some 0) false))) /\
  (exists s1 s2,
      __delitem__ 1 "r.txt" (Sample.store (Some 0) false)
      = Some (Return tt, s1) /\
      _file_cache s1 = None /\
      items (_drive s1)
      = List.filter (fun it => negb (has_id 1%nat it))
                    (items (_drive (Sample.store (Some 0) false))) /\
      __contains__ 1 "r.txt" s1 = Some (Return false, s2) /\
      __getitem__ 1 "r.txt" s1 = Some (Raise (KeyError "r.txt"), s2)).
Proof.
  assert (Hidx : index_is 1 (Sample.store (Some 0) false) [("r.txt", 1%nat)]).
  { split; [|left; reflexivity].
    exists [CallList (Query 0%nat None None)]. reflexivity. }
  split.
  - apply (proj1 (delitem_spec 1 "sub/s.txt" (Sample.store (Some 0) false)
                    [("r.txt", 1%nat)] Hidx)).
    vm_compute. reflexivity.
  - destruct (proj2 (delitem_spec 1 "r.txt" (Sample.store (Some 0) false)
                       [("r.txt", 1%nat)] Hidx) 1%nat)
      as (s1 & cs & Hdel & Hcache & _ & Hitems & _ & _ & Hafter).
    { vm_compute. reflexivity. }
    destruct Hafter as (s2 & Hcont & Hget).
    { intros j [E|[]]. injection E as <-. reflexivity. }
    exists s1, s2. repeat split; assumption.
Defined.

(** Two files named [x] under the root: deleting [x] removes the one the
    index holds (the last listed); the other one is found by the rebuilt
    index, so [x] is still contained and can still be read. *)
Lemma delete_with_duplicate_name_keeps_key :
  exists s1 s2 s3,
    __delitem__ 1 "x"
      (MkStore 0%nat None false
         (Mk [Item 1%nat "x" FILE_MIME 0%nat false (CStr [104%N]);
              Item 2%nat "x" FILE_MIME 0%nat false (CStr [105%N])]
             3%nat []) None)
    = Some (Return tt, s1) /\
    __contains__ 1 "x" s1 = Some (Return true, s2) /\
    __getitem__ 1 "x" s1 = Some (Return ["h"%byte], s3).
Proof.
  eexists _, _, _. split; [vm_compute; reflexivity|].
  split; vm_compute; reflexivity.
Qed.

(** ** Paths: splitting and joining *)

Lemma string_app_cons x (a b : string) :
  String x a +:+ b = String x (a +:+ b).
Proof. reflexivity. Qed.

Lemma string_app_assoc (a b c : string) : (a +:+ b) +:+ c = a +:+ (b +:+ c).
Proof.
  induction a as [|x a IH]; [reflexivity|].
  rewrite !string_app_cons, IH. reflexivity.
Qed.

Lemma string_app_nil_r (a : string) : a +:+ "" = a.
Proof.
  induction a as [|x a IH]; [reflexivity|].
  rewrite string_app_cons, IH. reflexivity.
Qed.

Lemma split_slash_cons key : exists h t, Py.split_slash key = h :: t.
Proof.
  destruct key as [|c key]; cbn; [eexists _, _; reflexivity|].
  destruct (Ascii.eqb c "/"); [eexists _, _; reflexivity|].
  destruct (Py.split_slash key); eexists _, _; reflexivity.
Qed.

Lemma concat_cons2 sep (x y : string) l :
  String.concat sep (x :: y :: l) = x +:+ sep +:+ String.concat sep (y :: l).
Proof. reflexivity. Qed.


Lemma no_slash_cons c s :
  no_slash (String c s) = negb (Ascii.eqb c "/") && no_slash s.
Proof.
  unfold no_slash. cbn [list_ascii_of_string existsb].
  rewrite (Ascii.eqb_sym "/" c). destruct (Ascii.eqb c "/"); reflexivity.
Qed.


Lemma split_slash_has_slash key :
  no_slash key = false -> exists h x t, Py.split_slash key = h :: x :: t.
Proof.
  induction key as [|c key IH]; [discriminate|].
  rewrite no_slash_cons. cbn [Py.split_slash].
  destruct (split_slash_cons key) as (h & t & E).
  destruct (Ascii.eqb c "/"); cbn [negb andb].
  - intros _. rewrite E. eexists _, _, _; reflexivity.
  - intros H. destruct (IH H) as (h' & x & t' & E'). rewrite E'.
    eexists _, _, _; reflexivity.
Qed.

(** [os.path.basename(key)] is the last segment of the key. *)
Lemma basename_last key :
  Py.os_path_basename key = List.last (Py.split_slash key) "".
Proof.
  induction key as [|c key IH]; [reflexivity|].
  cbn [Py.os_path_basename Py.split_slash].
  destruct (split_slash_cons key) as (h & t & E).
  destruct (Ascii.eqb c "/") eqn:Ec.
  - rewrite IH, E. reflexivity.
  - assert (Hn : no_slash key
                 = negb (existsb (Ascii.eqb "/") (list_ascii_of_string key)))
      by reflexivity.
    destruct (existsb (Ascii.eqb "/") (list_ascii_of_string key));
      cbn [negb] in Hn.
    + destruct (split_slash_has_slash _ Hn) as (h' & x & t' & E').
      rewrite IH, E'. reflexivity.
    + rewrite (split_slash_no_slash _ Hn). reflexivity.
Qed.


Lemma startswith_no_slash s : no_slash s = true -> Py.startswith_slash s = false.
Proof.
  destruct s as [|c s]; [reflexivity|]. rewrite no_slash_cons.
  cbn [Py.startswith_slash]. destruct (Ascii.eqb c "/"); [discriminate|reflexivity].
Qed.

Lemma endswith_slash_cons c s :
  Py.truthy s = true -> Py.endswith_slash (String c s) = Py.endswith_slash s.
Proof. destruct s; [discriminate|reflexivity]. Qed.

Lemma endswith_no_slash s : no_slash s = true -> Py.endswith_slash s = false.
Proof.
  induction s as [|c s IH]; [reflexivity|]. rewrite no_slash_cons.
  destruct (Ascii.eqb c "/") eqn:Ec; [discriminate|]. cbn [negb andb].
  intros H. destruct s as [|c' s]; [exact Ec|].
  rewrite endswith_slash_cons by reflexivity. apply IH, H.
Qed.

Lemma truthy_app_r a b : Py.truthy b = true -> Py.truthy (a +:+ b) = true.
Proof. destruct a; [trivial|reflexivity]. Qed.

Lemma truthy_app_l a b : Py.truthy a = true -> Py.truthy (a +:+ b) = true.
Proof. destruct a; [discriminate|reflexivity]. Qed.

Lemma endswith_slash_app a b :
  Py.truthy b = true -> Py.endswith_slash (a +:+ b) = Py.endswith_slash b.
Proof.
  intros Hb. induction a as [|x a IH]; [reflexivity|].
  rewrite string_app_cons, endswith_slash_cons; [exact IH|].
  apply truthy_app_r, Hb.
Qed.

(** Joining a name that holds no ['/'] after a non-empty prefix that does
    not end with one. *)
Lemma item_path_join p s :
  Py.truthy p = true -> Py.endswith_slash p = false -> no_slash s = true ->
  item_path p s = p +:+ "/" +:+ s.
Proof.
  intros Hp He Hs. unfold item_path, Py.os_path_join.
  rewrite Hp, He, (startswith_no_slash _ Hs). reflexivity.
Qed.

Lemma concat_snoc l s :
  l <> [] ->
  String.concat "/" (l ++ [s]) = String.concat "/" l +:+ "/" +:+ s.
Proof.
  induction l as [|x l IH]; [congruence|]. intros _.
  destruct l as [|y l]; [reflexivity|].
  change ((x :: y :: l) ++ [s])%list with (x :: y :: (l ++ [s]))%list.
  rewrite !concat_cons2.
  change (y :: (l ++ [s]))%list with ((y :: l) ++ [s])%list.
  rewrite IH by discriminate. rewrite !string_app_assoc. reflexivity.
Qed.

Lemma concat_good l :
  l <> [] -> Forall seg_ok l ->
  Py.truthy (String.concat "/" l) = true /\
  Py.endswith_slash (String.concat "/" l) = false.
Proof.
  induction l as [|x l IH]; [congruence|]. intros _ H.
  inversion H as [|? ? [Hx1 Hx2] Hl]; subst.
  destruct l as [|y l].
  - cbn [String.concat]. split; [exact Hx1|apply endswith_no_slash, Hx2].
  - rewrite concat_cons2. destruct (IH ltac:(discriminate) Hl) as [IH1 IH2].
    split; [apply truthy_app_l, Hx1|].
    rewrite endswith_slash_app by (apply truthy_app_r, IH1).
    change ("/" +:+ String.concat "/" (y :: l))
      with (String "/"%char (String.concat "/" (y :: l))).
    rewrite endswith_slash_cons by exact IH1. exact IH2.
Qed.



(** ** The folders a resolution leaves behind *)






Lemma set_content_meta i x it :
  item_id (set_content i x it) = item_id it /\
  item_title (set_content i x it) = item_title it /\
  is_folder (set_content i x it) = is_folder it.
Proof.
  unfold set_content. destruct (Nat.eqb (item_id it) i); auto.
Qed.



(** ** Write then read *)

Lemma resolve_folders_fresh parts cur d c d' :
  fresh_ids d -> resolve_folders parts cur d = (c, d') -> fresh_ids d'.
Proof.
  revert cur d. induction parts as [|s parts IH]; intros cur d Hd H.
  - injection H as _ <-. exact Hd.
  - cbn [resolve_folders] in H. unfold ListFile, upload_new in H.
    destruct (List.filter _ (items d)) as [|f fs]; apply IH in H;
      try exact H.
    + intros it Hin. cbn in Hin |- *. apply in_app_iff in Hin as [Hin|[<-|[]]].
      * specialize (Hd it Hin). lia.
      * cbn. lia.
    + exact Hd.
Qed.












(** With a depth bound of 0, a value written under a key with a folder
    segment cannot be read back either. *)
Example nested_key_beyond_depth_not_read_back :
  exists s1 s2,
    __setitem__ "a/x" (Py.VBytes ["h"%byte]) (Sample.empty (Some 0) true)
    = Some (Return tt, s1) /\
    __getitem__ 1 "a/x" s1 = Some (Raise (KeyError "a/x"), s2).
Proof.
  eexists _, _. split; vm_compute; reflexivity.
Qed.

(** ** The invariant of an instance *)

Lemma traversal_same_tree fuel s s' r cs :
  folder_id s' = folder_id s -> max_levels s' = max_levels s ->
  include_hidden s' = include_hidden s ->
  items (_drive s') = items (_drive s) ->
  traversal fuel s r cs -> traversal fuel s' r cs.
Proof.
  unfold traversal. intros -> -> -> ->. trivial.
Qed.

Lemma coherent_same_tree s s' :
  folder_id s' = folder_id s -> max_levels s' = max_levels s ->
  include_hidden s' = include_hidden s ->
  items (_drive s') = items (_drive s) ->
  _file_cache s' = _file_cache s ->
  coherent s -> coherent s'.
Proof.
  intros H1 H2 H3 H4 H5 Hc c Hcache. rewrite H5 in Hcache.
  destruct (Hc c Hcache) as (fuel & r & cs & Ht & ->).
  exists fuel, r, cs. split; [|reflexivity].
  eapply traversal_same_tree; eassumption.
Qed.

Lemma fresh_same_tree d d' :
  items d' = items d -> next_id d' = next_id d -> fresh_ids d -> fresh_ids d'.
Proof.
  unfold fresh_ids. intros -> ->. trivial.
Qed.

Lemma files_well_kept fuel s c s' :
  well_kept s -> _files fuel s = Some (Return c, s') ->
  well_kept s' /\ _file_cache s' = Some c.
Proof.
  intros [Hc Hf]. unfold _files.
  destruct (_file_cache s) as [c0|] eqn:E.
  - intros H. injection H as <- <-. split; [split; assumption|exact E].
  - unfold list_root. rewrite list_files_walk.
    destruct (walk _ _ _ _ _ _ _) as [[r cs]|] eqn:Ew; [|discriminate].
    cbn [lift]. intros H. injection H as <- <-.
    split; [split|reflexivity].
    + intros c Hcache. cbn in Hcache. injection Hcache as <-.
      exists fuel, r, cs. split; [exact Ew|reflexivity].
    + cbn. exact Hf.
Qed.

Lemma filter_all {A} (P : A -> bool) (l : list A) :
  (forall x, In x l -> P x = true) -> List.filter P l = l.
Proof.
  induction l as [|x l IH]; intros H; [reflexivity|].
  cbn [List.filter]. rewrite (H x (or_introl eq_refl)), IH; [reflexivity|].
  intros y Hy. apply H. right. exact Hy.
Qed.

Lemma files_never_raises fuel s e s' :
  _files fuel s <> Some (Raise e, s').
Proof.
  unfold _files. destruct (_file_cache s); [discriminate|].
  destruct (list_root fuel s) as [[pairs d]|]; discriminate.
Qed.

(** Every method, whether it returns or raises, leaves an instance whose
    index is not stale and whose backend hands out new identities. *)
Lemma invariant_kept fuel m s s' :
  well_kept s -> invoke fuel m s = Some s' -> well_kept s'.
Proof.
  intros Hwk. destruct m as [| |key|key|key value|key]; cbn [invoke].
  - unfold __iter__, bind.
    destruct (_files fuel s) as [[[c|e] s0]|] eqn:E; cbn; try discriminate.
    + intros H. injection H as <-. apply (files_well_kept _ _ _ _ Hwk E).
    + destruct (files_never_raises _ _ _ _ E).
  - unfold __len__, bind.
    destruct (_files fuel s) as [[[c|e] s0]|] eqn:E; cbn; try discriminate.
    + intros H. injection H as <-. apply (files_well_kept _ _ _ _ Hwk E).
    + destruct (files_never_raises _ _ _ _ E).
  - unfold __contains__, bind.
    destruct (_files fuel s) as [[[c|e] s0]|] eqn:E; cbn; try discriminate.
    + intros H. injection H as <-. apply (files_well_kept _ _ _ _ Hwk E).
    + destruct (files_never_raises _ _ _ _ E).
  - unfold __getitem__, bind.
    destruct (_files fuel s) as [[[c|e] s0]|] eqn:E; cbn; try discriminate;
      [|destruct (files_never_raises _ _ _ _ E)].
    destruct (files_well_kept _ _ _ _ Hwk E) as [Hwk0 Hc0].
    destruct (negb _); [intros H; injection H as <-; exact Hwk0|].
    rewrite (files_cached _ _ _ Hc0).
    destruct (c !! key) as [i|];
      [|intros H; injection H as <-; exact Hwk0].
    unfold on_drive, GetContentString.
    assert (Hwk1 : well_kept (with_drive s0 (record (CallGetContent i)
                                                    (_drive s0)))).
    { destruct Hwk0 as [Hc Hf]. split.
      - eapply coherent_same_tree; [..|exact Hc]; reflexivity.
      - exact Hf. }
    destruct (item_content <$> List.find (has_id i) (items (_drive s0)))
      as [[t|b]|]; [destruct (Py.encode_latin1 t)| |]; cbn;
      intros H; injection H as <-; exact Hwk1.
  - destruct value as [b| | | |];
      try (cbn; intros H; injection H as <-; exact Hwk).
    destruct Hwk as [_ Hf]. unfold __setitem__, bind, _get_or_create_folders.
    destruct (resolve_folders _ _ _) as [parent d0] eqn:E.
    pose proof (resolve_folders_fresh _ _ _ _ _ Hf E) as Hf0.
    unfold on_drive, ListFile. cbn [_drive with_drive].
    destruct (List.filter _ (items d0)) as [|gfile fs]; cbn;
      intros H; injection H as <-; (split; [intros c Hc; discriminate Hc|]).
    + intros it Hin. cbn in Hin |- *.
      apply in_app_iff in Hin as [Hin|[<-|[]]];
        [specialize (Hf0 it Hin); lia|cbn; lia].
    + intros it Hin. cbn in Hin |- *. apply in_map_iff in Hin as (it0 & <- & Hin).
      destruct (set_content_meta (item_id gfile) (CStr (Py.decode_latin1 b))
                                 it0) as (-> & _). apply Hf0, Hin.
  - unfold __delitem__, bind.
    destruct (_files fuel s) as [[[c|e] s0]|] eqn:E; cbn; try discriminate;
      [|destruct (files_never_raises _ _ _ _ E)].
    destruct (files_well_kept _ _ _ _ Hwk E) as [Hwk0 Hc0].
    destruct (negb _); [intros H; injection H as <-; exact Hwk0|].
    rewrite (files_cached _ _ _ Hc0).
    destruct (c !! key) as [i|];
      [|intros H; injection H as <-; exact Hwk0].
    unfold on_drive, Delete. destruct Hwk0 as [Hc Hf].
    assert (Hf1 : fresh_ids
                    (Mk (List.filter (fun it => negb (has_id i it))
                                     (items (_drive s0)))
                        (next_id (_drive s0))
                        (log (_drive s0) ++ [CallDelete i]))).
    { intros it Hin. cbn in Hin |- *. apply filter_In in Hin as [Hin _].
      apply Hf, Hin. }
    destruct (existsb (has_id i) (items (_drive s0))) eqn:Ex; cbn;
      intros H; injection H as <-.
    + split; [intros c' Hc'; discriminate Hc'|exact Hf1].
    + split; [|exact Hf1].
      eapply coherent_same_tree; [..|exact Hc]; try reflexivity.
      cbn. apply filter_all. intros it Hin.
      destruct (has_id i it) eqn:Eh; [|reflexivity].
      assert (existsb (has_id i) (items (_drive s0)) = true)
        by (apply existsb_exists; exists it; auto).
      congruence.
Qed.

(** An instance just made has no index; it satisfies the invariant when
    the backend hands out new identities. *)
Lemma invariant_initial root ml ih d :
  fresh_ids d -> well_kept (MkStore root ml ih d None).
Proof.
  intros Hf. split; [intros c Hc; discriminate Hc|exact Hf].
Qed.

(** Under the invariant, with enough fuel, the index is up to date in the
    sense the statements on delete and on write-then-read assume. *)
Lemma invariant_index_is fuel s :
  coherent s ->
  enough_fuel (max_levels s) (items (_drive s)) fuel (folder_id s) 0 ->
  exists r, index_is fuel s r.
Proof.
  intros Hc Hfuel.
  destruct (enough_fuel_walk _ (include_hidden s) _ _ _ "" _ Hfuel)
    as [[r cs] Hw].
  exists r. split; [exists cs; exact Hw|].
  destruct (_file_cache s) as [c|] eqn:E; [|left; reflexivity].
  right. destruct (Hc c E) as (fuel0 & r0 & cs0 & Hw0 & ->).
  unfold traversal in Hw0.
  pose proof (walk_mono _ _ _ _ (Nat.max fuel fuel0) _ _ _ _
                        (Nat.le_max_l _ _) Hw) as H1.
  pose proof (walk_mono _ _ _ _ (Nat.max fuel fuel0) _ _ _ _
                        (Nat.le_max_r _ _) Hw0) as H2.
  rewrite H1 in H2. injection H2 as <- _. reflexivity.
Qed.

(** * Further properties of the store *)

(** ** The mapping interface *)

Lemma keys_of_dict {V} (r : list (string * V)) (k : string) :
  In k (map fst (map_to_list (Py.dict r))) <-> exists v, In (k, v) r.
Proof.
  split.
  - intros Hin. apply in_map_iff in Hin as ([k' v] & Hk & Hin).
    cbn in Hk. subst k'. apply list_elem_of_In in Hin.
    apply elem_of_map_to_list in Hin. exists v.
    apply dict_lookup_Some, Hin.
  - intros [v Hin]. destruct (Py.dict r !! k) as [w|] eqn:E.
    + apply in_map_iff. exists (k, w). split; [reflexivity|].
      apply list_elem_of_In, elem_of_map_to_list, E.
    + rewrite dict_lookup_None in E. destruct (E v Hin).
Qed.

(** X1. On an instance whose index is up to date, iteration, length and
    membership agree: the keys iterated are distinct, their number is the
    length, a key is contained exactly when it is iterated, and that is
    exactly when the traversal yields it for some node.  The three
    operations leave the same state. *)
Theorem mapping_views_agree fuel s r :
  index_is fuel s r ->
  exists s' keys,
    __iter__ fuel s = Some (Return keys, s') /\
    __len__ fuel s = Some (Return (length keys), s') /\
    NoDup keys /\
    forall k,
      exists b, __contains__ fuel k s = Some (Return b, s') /\
                (b = true <-> In k keys) /\
                (In k keys <-> exists i, In (k, i) r).
Proof.
  intros Hidx. destruct (files_index_is _ _ _ Hidx) as (cs & _ & Hfiles).
  eexists _, (map fst (map_to_list (Py.dict r))).
  unfold __iter__, __len__, __contains__, bind. rewrite Hfiles.
  split; [reflexivity|]. split.
  - rewrite length_map, length_map_to_list. reflexivity.
  - split; [apply NoDup_fst_map_to_list|]. intros k.
    exists (bool_decide (is_Some (Py.dict r !! k))).
    split; [reflexivity|]. split; [|apply keys_of_dict].
    rewrite bool_decide_eq_true, keys_of_dict. split.
    + intros [i Hi]. exists i. apply dict_lookup_Some, Hi.
    + intros [i Hi]. destruct (Py.dict r !! k) as [w|] eqn:E;
        [eexists; reflexivity|].
      rewrite dict_lookup_None in E. destruct (E i Hi).
Qed.

Lemma sample_index_zero :
  index_is 1 (Sample.store (Some 0) false) [("r.txt", 1%nat)].
Proof.
  split; [|left; reflexivity].
  exists [CallList (Query 0%nat None None)]. reflexivity.
Qed.

Lemma mapping_views_agree_witness :
  exists s' keys,
    __iter__ 1 (Sample.store (Some 0) false) = Some (Return keys, s') /\
    __len__ 1 (Sample.store (Some 0) false)
    = Some (Return (length keys), s') /\
    NoDup keys /\
    forall k,
      exists b, __contains__ 1 k (Sample.store (Some 0) false)
                = Some (Return b, s') /\
                (b = true <-> In k keys) /\
                (In k keys <-> exists i, In (k, i) [("r.txt", 1%nat)]).
Proof.
  apply (mapping_views_agree 1 (Sample.store (Some 0) false)
           [("r.txt", 1%nat)]).
  split; [|left; reflexivity].
  exists [CallList (Query 0%nat None None)]. reflexivity.
Defined.

(** ** Duplicate paths *)

Lemma dict_snoc {V} (l : list (string * V)) k v :
  Py.dict (l ++ [(k, v)]) = <[k := v]> (Py.dict l).
Proof. unfold Py.dict. rewrite fold_left_app. reflexivity. Qed.

Lemma dict_app_last {V} (l1 l2 : list (string * V)) k v :
  (forall w, ~ In (k, w) l2) ->
  Py.dict (l1 ++ (k, v) :: l2) !! k = Some v.
Proof.
  intros Hno. unfold Py.dict. rewrite fold_left_app. cbn [fold_left fst snd].
  destruct (fold_left _ l2 _ !! k) as [w|] eqn:E.
  - apply dict_acc_Some in E as [E|E]; [destruct (Hno w E)|].
    rewrite lookup_insert_eq in E. symmetry. exact E.
  - apply dict_acc_None in E as [E _]. rewrite lookup_insert_eq in E.
    discriminate E.
Qed.

(** X2. When the traversal yields a path more than once (files of the same
    name in one folder), the index built from it holds the node yielded
    last, and the length counts the path once: it never exceeds the number
    of pairs yielded. *)
Theorem index_last_yielded_wins fuel s l1 l2 key i cs :
  _file_cache s = None ->
  traversal fuel s (l1 ++ (key, i) :: l2) cs ->
  (forall j, ~ In (key, j) l2) ->
  exists c s',
    _files fuel s = Some (Return c, s') /\
    c !! key = Some i /\
    (size c <= length (l1 ++ (key, i) :: l2))%nat.
Proof.
  intros Hc Ht Hlast. eexists _, _.
  split; [apply (files_uncached _ _ _ _ Hc Ht)|].
  split; [apply dict_app_last, Hlast|].
  generalize (l1 ++ (key, i) :: l2)%list. clear. intros r.
  induction r as [|[k v] r IH] using rev_ind.
  { unfold Py.dict. cbn [fold_left]. rewrite map_size_empty. cbn. lia. }
  rewrite dict_snoc, length_app. cbn [length].
  rewrite map_size_insert. destruct (Py.dict r !! k); cbn; lia.
Qed.

Lemma index_last_yielded_wins_witness :
  exists c s',
    _files 1 (MkStore 0%nat None false
                (Mk [Item 1%nat "x" FILE_MIME 0%nat false (CStr [104%N]);
                     Item 2%nat "x" FILE_MIME 0%nat false (CStr [105%N])]
                    3%nat []) None)
    = Some (Return c, s') /\
    c !! "x" = Some 2%nat /\
    (size c <= length ([("x", 1%nat)] ++ ("x", 2%nat) :: []))%nat.
Proof.
  apply (index_last_yielded_wins 1 _ [("x", 1%nat)] [] "x" 2%nat
           [CallList (Query 0%nat None None)]).
  - reflexivity.
  - reflexivity.
  - intros j [].
Defined.

(** ** What a traversal sees and touches *)

Lemma filter_filter_implies {A} (P Q : A -> bool) (l : list A) :
  (forall x, P x = true -> Q x = true) ->
  List.filter P (List.filter Q l) = List.filter P l.
Proof.
  intros H. induction l as [|x l IH]; [reflexivity|].
  cbn [List.filter]. destruct (Q x) eqn:EQ.
  - cbn [List.filter]. rewrite IH. reflexivity.
  - destruct (P x) eqn:EP; [rewrite (H x EP) in EQ; discriminate|exact IH].
Qed.

Lemma children_not_trashed its f :
  children (not_trashed its) f = children its f.
Proof.
  unfold children, not_trashed. apply filter_filter_implies.
  intros it. unfold matches. rewrite !andb_true_iff. tauto.
Qed.

Lemma walk_not_trashed ml ih its fuel f p lv :
  walk ml ih (not_trashed its) fuel f p lv = walk ml ih its fuel f p lv.
Proof.
  revert f p lv. induction fuel as [|fuel IH]; intros f p lv; [reflexivity|].
  cbn [walk]. destruct (cutoff ml lv); [reflexivity|].
  rewrite children_not_trashed.
  rewrite (walk_items_ext _ _ _ (walk ml ih its fuel)) by exact IH.
  reflexivity.
Qed.

(** X3. Trashed nodes are invisible to the traversal: it yields the same
    pairs and requests the same listings as on the tree without its trashed
    nodes, and every pair it yields is the identity of a node of the tree
    that is neither trashed nor a folder. *)
Theorem trashed_nodes_invisible ml ih fuel d folder prefix level :
  _list_files ml ih fuel folder prefix level d
  = lift d (walk ml ih (not_trashed (items d)) fuel folder prefix level) /\
  (forall r d',
      _list_files ml ih fuel folder prefix level d = Some (r, d') ->
      forall e, In e r ->
        exists it, In it (items d) /\ item_id it = snd e /\
                   item_trashed it = false /\ is_folder it = false).
Proof.
  split.
  - rewrite walk_not_trashed. apply list_files_walk.
  - intros r d' H e He. rewrite list_files_walk in H.
    destruct (walk ml ih (items d) fuel folder prefix level)
      as [[r' cs]|] eqn:Hw; [|discriminate].
    cbn [lift] in H. injection H as <- _.
    apply (walk_spec _ _ _ _ _ _ _ _ _ Hw) in He as (k & Hk & _).
    destruct (reach_last _ _ _ _ _ _ Hk) as (it & Hin & Hid & Hf & _ & Ht).
    exists it. auto.
Qed.

Lemma trashed_nodes_invisible_witness :
  _list_files None false 4 0%nat "" 0
    (Mk (Item 9%nat "gone.txt" FILE_MIME 0%nat true (CStr []) :: Sample.tree)
        10%nat [])
  = Some ([("r.txt", 1%nat); ("sub/s.txt", 3%nat); ("sub/deep/z", 8%nat)],
          Mk (Item 9%nat "gone.txt" FILE_MIME 0%nat true (CStr [])
              :: Sample.tree) 10%nat
             [CallList (Query 0%nat None None);
              CallList (Query 2%nat None None);
              CallList (Query 7%nat None None)]) /\
  forall e,
    In e [("r.txt", 1%nat); ("sub/s.txt", 3%nat); ("sub/deep/z", 8%nat)] ->
    exists it,
      In it (Item 9%nat "gone.txt" FILE_MIME 0%nat true (CStr [])
             :: Sample.tree) /\
      item_id it = snd e /\ item_trashed it = false /\ is_folder it = false.
Proof.
  split; [reflexivity|].
  apply (proj2 (trashed_nodes_invisible None false 4
                  (Mk (Item 9%nat "gone.txt" FILE_MIME 0%nat true (CStr [])
                       :: Sample.tree) 10%nat [])
                  0%nat "" 0) _ _ eq_refl).
Defined.

(** X4. A traversal only reads: it leaves the nodes and the identity
    counter of the backend as they were and adds nothing but listing
    requests to the log; on any backend holding the same nodes it yields the
    same pairs and makes the same requests. *)
Theorem list_files_read_only ml ih fuel folder prefix level d r d' :
  _list_files ml ih fuel folder prefix level d = Some (r, d') ->
  items d' = items d /\ next_id d' = next_id d /\
  exists cs,
    log d' = (log d ++ cs)%list /\
    Forall (fun c => is_list c = true) cs /\
    forall d2, items d2 = items d ->
      _list_files ml ih fuel folder prefix level d2 = Some (r, add_log d2 cs).
Proof.
  intros H. rewrite list_files_walk in H.
  destruct (walk ml ih (items d) fuel folder prefix level)
    as [[r' cs]|] eqn:Hw; [|discriminate].
  cbn [lift] in H. injection H as <- <-.
  split; [reflexivity|]. split; [reflexivity|]. exists cs.
  split; [reflexivity|]. split.
  - apply List.Forall_forall. intros c Hc.
    destruct (walk_calls _ _ _ _ _ _ _ _ _ _ Hw Hc) as (g & -> & _).
    reflexivity.
  - intros d2 Hd2. rewrite list_files_walk, Hd2, Hw. reflexivity.
Qed.

Lemma list_files_read_only_witness :
  exists r d',
    _list_files (Some 1) false 2 0%nat "" 0 Sample.d0 = Some (r, d') /\
    items d' = items Sample.d0 /\ next_id d' = next_id Sample.d0 /\
    exists cs,
      log d' = (log Sample.d0 ++ cs)%list /\
      Forall (fun c => is_list c = true) cs /\
      forall d2, items d2 = items Sample.d0 ->
        _list_files (Some 1) false 2 0%nat "" 0 d2 = Some (r, add_log d2 cs).
Proof.
  eexists _, _. split; [reflexivity|].
  apply (list_files_read_only (Some 1) false 2 0%nat "" 0 Sample.d0).
  reflexivity.
Defined.

(** ** Keys address files by their segments *)

Lemma split_slash_app_no_slash x s :
  no_slash x = true ->
  Py.split_slash (x +:+ "/" +:+ s) = x :: Py.split_slash s.
Proof.
  induction x as [|c x IH]; [reflexivity|].
  rewrite no_slash_cons, andb_true_iff, negb_true_iff. intros [Hc Hx].
  rewrite string_app_cons. cbn [Py.split_slash]. rewrite Hc, (IH Hx).
  reflexivity.
Qed.

Lemma split_slash_concat l :
  l <> [] -> Forall (fun s => no_slash s = true) l ->
  Py.split_slash (String.concat "/" l) = l.
Proof.
  induction l as [|x l IH]; [congruence|]. intros _ H.
  inversion H as [|? ? Hx Hl]; subst. destruct l as [|y l].
  - cbn [String.concat]. apply split_slash_no_slash, Hx.
  - rewrite concat_cons2, split_slash_app_no_slash by exact Hx.
    rewrite IH; [reflexivity|discriminate|exact Hl].
Qed.

Lemma item_path_concat l name :
  Forall seg_ok l -> no_slash name = true ->
  item_path (String.concat "/" l) name = String.concat "/" (l ++ [name]).
Proof.
  intros Hl Hn. destruct l as [|x l]; [reflexivity|].
  destruct (concat_good (x :: l) ltac:(discriminate) Hl) as [H1 H2].
  rewrite item_path_join by assumption.
  rewrite concat_snoc by discriminate. reflexivity.
Qed.

(** In a tree whose names are not empty and hold no ['/'], an entry the
    traversal reaches lies at the end of a chain of folders, and its path
    is made of the names along the chain and its own, joined by ['/']. *)
Lemma reach_chain ih its f prefix k e :
  (forall it, In it its -> seg_ok (item_title it)) ->
  reach ih its f prefix k e ->
  forall l, Forall seg_ok l -> prefix = String.concat "/" l ->
    exists parts c leaf,
      chain its f parts c /\ In leaf (children its c) /\
      is_folder leaf = false /\ item_id leaf = snd e /\
      length parts = k /\
      fst e = String.concat "/" (l ++ parts ++ [item_title leaf]).
Proof.
  intros Hnames. induction 1 as [f p it Hin Hs Hf|f p it k e Hin Hs Hf _ IH];
    intros l Hl ->.
  - exists [], f, it. split; [constructor|]. split; [exact Hin|].
    split; [exact Hf|]. split; [reflexivity|]. split; [reflexivity|].
    cbn [fst app]. apply item_path_concat; [exact Hl|].
    apply in_children in Hin as [Hin _]. apply (Hnames it Hin).
  - assert (Hok : seg_ok (item_title it)).
    { apply in_children in Hin as [Hin' _]. apply (Hnames it Hin'). }
    destruct (IH (l ++ [item_title it])%list)
      as (parts & c & leaf & Hchain & Hleaf & Hfile & Hid & Hlen & Hpath).
    + apply Forall_app. split; [exact Hl|constructor; [exact Hok|constructor]].
    + apply item_path_concat; [exact Hl|apply Hok].
    + exists (item_title it :: parts), c, leaf.
      split; [eapply chain_cons; eauto|]. split; [exact Hleaf|].
      split; [exact Hfile|]. split; [exact Hid|].
      split; [cbn [length]; rewrite Hlen; reflexivity|].
      rewrite Hpath, <- app_assoc. reflexivity.
Qed.

Lemma chain_titles its cur parts c :
  (forall it, In it its -> seg_ok (item_title it)) ->
  chain its cur parts c -> Forall (fun s => no_slash s = true) parts.
Proof.
  intros Hnames. induction 1 as [c|cur it s parts c Hin Hf Ht _ IH];
    [constructor|].
  constructor; [|exact IH]. subst s.
  apply in_children in Hin as [Hin _]. apply (Hnames it Hin).
Qed.

(** X5. In a tree whose names are not empty and hold no ['/'], every key
    the traversal yields from the root addresses its file by its segments:
    the folder segments of the key name a chain of listed folders from the
    root, within the depth bound, and the last segment is the name of the
    yielded file, listed in the last folder of the chain. *)
Theorem keys_address_files ml ih fuel d root level r d' :
  (forall it, In it (items d) -> seg_ok (item_title it)) ->
  _list_files ml ih fuel root "" level d = Some (r, d') ->
  forall key i, In (key, i) r ->
    exists c leaf,
      chain (items d) root (folder_parts_of key) c /\
      In leaf (children (items d) c) /\
      is_folder leaf = false /\
      item_title leaf = Py.os_path_basename key /\
      item_id leaf = i /\
      within ml (level + Z.of_nat (length (folder_parts_of key))).
Proof.
  intros Hnames H key i Hin. rewrite list_files_walk in H.
  destruct (walk ml ih (items d) fuel root "" level) as [[r' cs]|] eqn:Hw;
    [|discriminate].
  cbn [lift] in H. injection H as <- _.
  apply (walk_spec _ _ _ _ _ _ _ _ _ Hw) in Hin as (k & Hk & Hdepth).
  destruct (reach_chain _ _ _ _ _ _ Hnames Hk [] ltac:(constructor) eq_refl)
    as (parts & c & leaf & Hchain & Hleaf & Hfile & Hid & Hlen & Hpath).
  cbn [fst snd app] in Hpath, Hid.
  assert (Hsplit : Py.split_slash key = (parts ++ [item_title leaf])%list).
  { rewrite Hpath. apply split_slash_concat.
    - destruct parts; discriminate.
    - apply Forall_app. split; [apply (chain_titles _ _ _ _ Hnames Hchain)|].
      constructor; [|constructor].
      apply in_children in Hleaf as [Hleaf' _]. apply (Hnames leaf Hleaf'). }
  assert (Hparts : folder_parts_of key = parts).
  { unfold folder_parts_of. rewrite Hsplit. apply removelast_last. }
  assert (Hbase : Py.os_path_basename key = item_title leaf).
  { rewrite basename_last, Hsplit. apply last_last. }
  exists c, leaf. rewrite Hparts, Hbase, Hlen. auto 10.
Qed.

Lemma sample_names_ok : forall it, In it Sample.tree -> seg_ok (item_title it).
Proof.
  intros it Hin. unfold Sample.tree in Hin. cbn [In] in Hin.
  repeat (destruct Hin as [<-|Hin]; [split; reflexivity|]). destruct Hin.
Qed.

Lemma keys_address_files_witness :
  exists c leaf,
    chain (items Sample.d0) 0%nat (folder_parts_of "sub/deep/z") c /\
    In leaf (children (items Sample.d0) c) /\
    is_folder leaf = false /\
    item_title leaf = Py.os_path_basename "sub/deep/z" /\
    item_id leaf = 8%nat /\
    within None (0 + Z.of_nat (length (folder_parts_of "sub/deep/z"))).
Proof.
  apply (keys_address_files None false 4 Sample.d0 0%nat 0
           [("r.txt", 1%nat); ("sub/s.txt", 3%nat); ("sub/deep/z", 8%nat)]
           (add_log Sample.d0 [CallList (Query 0%nat None None);
                               CallList (Query 2%nat None None);
                               CallList (Query 7%nat None None)])
           sample_names_ok eq_refl "sub/deep/z" 8%nat).
  right. right. left. reflexivity.
Defined.

(** ** Folder resolution leaves the folders in place *)



(** ** Reading *)

Lemma getitem_run fuel key s r :
  index_is fuel s r ->
  exists cs,
    Forall (fun c => is_list c = true) cs /\
    __getitem__ fuel key s
    = Some (match Py.dict r !! key with
            | None => (Raise (KeyError key), built s r cs)
            | Some i =>
                (fetched (items (_drive s)) i,
                 with_drive (built s r cs)
                            (record (CallGetContent i)
                                    (add_log (_drive s) cs)))
            end).
Proof.
  intros Hidx. destruct (files_index_is _ _ _ Hidx) as (cs & Hcs & Hfiles).
  exists cs. split; [exact Hcs|].
  unfold __getitem__, bind. rewrite Hfiles.
  destruct (Py.dict r !! key) as [i|] eqn:Hk.
  - rewrite bool_decide_eq_true_2 by (eexists; reflexivity). cbn [negb].
    rewrite (files_cached _ _ (Py.dict r)) by reflexivity. rewrite Hk.
    unfold on_drive, GetContentString, fetched, built.
    cbn [_drive with_cache with_drive add_log items].
    destruct (item_content <$> List.find (has_id i) (items (_drive s)))
      as [[t|b]|]; [destruct (Py.encode_latin1 t)| |]; reflexivity.
  - rewrite bool_decide_eq_false_2 by (intros [x Hx]; discriminate).
    reflexivity.
Qed.

Lemma index_is_built fuel s r cs d :
  (exists cs0, traversal fuel s r cs0) ->
  items d = items (_drive s) ->
  index_is fuel (with_drive (built s r cs) d) r.
Proof.
  intros [cs0 Ht] Hd. split; [|right; reflexivity].
  exists cs0. unfold traversal in *.
  cbn [max_levels include_hidden folder_id _drive with_drive with_cache built].
  rewrite Hd. exact Ht.
Qed.

(** X7. Reads are repeatable and leave the tree alone: on an instance
    whose index is up to date, [__getitem__] comes back, and called again
    it returns (or raises) the same; neither call changes the nodes or the
    identity counter of the backend, and both leave the index cached. *)
Theorem getitem_repeatable fuel key s r :
  index_is fuel s r ->
  exists res s1 s2,
    __getitem__ fuel key s = Some (res, s1) /\
    __getitem__ fuel key s1 = Some (res, s2) /\
    items (_drive s1) = items (_drive s) /\
    items (_drive s2) = items (_drive s) /\
    next_id (_drive s2) = next_id (_drive s) /\
    _file_cache s1 = Some (Py.dict r) /\
    _file_cache s2 = Some (Py.dict r).
Proof.
  intros Hidx. destruct (getitem_run fuel key s r Hidx) as (cs & _ & H1).
  destruct (Py.dict r !! key) as [i|] eqn:Hk.
  - assert (Hidx1 : index_is fuel
                      (with_drive (built s r cs)
                                  (record (CallGetContent i)
                                          (add_log (_drive s) cs))) r)
      by (apply index_is_built; [exact (proj1 Hidx)|reflexivity]).
    destruct (getitem_run fuel key _ r Hidx1) as (cs' & _ & H2).
    rewrite Hk in H2. eexists _, _, _. split; [exact H1|].
    split; [exact H2|]. repeat split.
  - assert (Hidx1 : index_is fuel (built s r cs) r).
    { rewrite <- (with_drive_same (built s r cs)).
      apply index_is_built; [exact (proj1 Hidx)|reflexivity]. }
    destruct (getitem_run fuel key _ r Hidx1) as (cs' & _ & H2).
    rewrite Hk in H2. eexists _, _, _. split; [exact H1|].
    split; [exact H2|]. repeat split.
Qed.

Lemma getitem_repeatable_witness :
  exists res s1 s2,
    __getitem__ 1 "r.txt" (Sample.store (Some 0) false) = Some (res, s1) /\
    __getitem__ 1 "r.txt" s1 = Some (res, s2) /\
    items (_drive s1) = items (_drive (Sample.store (Some 0) false)) /\
    items (_drive s2) = items (_drive (Sample.store (Some 0) false)) /\
    next_id (_drive s2) = next_id (_drive (Sample.store (Some 0) false)) /\
    _file_cache s1 = Some (Py.dict [("r.txt", 1%nat)]) /\
    _file_cache s2 = Some (Py.dict [("r.txt", 1%nat)]).
Proof.
  apply (getitem_repeatable 1 "r.txt" (Sample.store (Some 0) false)
           [("r.txt", 1%nat)] sample_index_zero).
Defined.

Lemma encode_latin1_small t :
  Forall (fun c => (c <= 255)%N) t ->
  exists b, Py.encode_latin1 t = Some b /\ Py.decode_latin1 b = t.
Proof.
  induction 1 as [|c t Hc _ (b & Hb & Hd)]; [exists []; split; reflexivity|].
  cbn [Py.encode_latin1]. destruct (Byte.of_N c) as [x|] eqn:E.
  - rewrite Hb. exists (x :: b). split; [reflexivity|].
    unfold Py.decode_latin1 in *. cbn [map]. rewrite Hd.
    apply Byte.to_of_N in E. rewrite E. reflexivity.
  - apply Byte.of_N_None_iff in E. lia.
Qed.

Lemma encode_latin1_large t :
  Exists (fun c => (255 < c)%N) t -> Py.encode_latin1 t = None.
Proof.
  induction 1 as [c t Hc|c t _ IH]; cbn [Py.encode_latin1].
  - apply Byte.of_N_None_iff in Hc. rewrite Hc. reflexivity.
  - rewrite IH. destruct (Byte.of_N c); reflexivity.
Qed.

(** X8. Reading a key whose node holds text: when every code point is at
    most 255 the read returns the bytes of those values (its Latin-1
    decoding is the text); when some code point is above 255 the read
    raises [UnicodeEncodeError], the index staying cached. *)
Theorem getitem_text_encoding fuel key s r i node t :
  index_is fuel s r ->
  Py.dict r !! key = Some i ->
  List.find (has_id i) (items (_drive s)) = Some node ->
  item_content node = CStr t ->
  (Forall (fun c => (c <= 255)%N) t ->
   exists b s1, __getitem__ fuel key s = Some (Return b, s1) /\
                Py.decode_latin1 b = t) /\
  (Exists (fun c => (255 < c)%N) t ->
   exists s1, __getitem__ fuel key s = Some (Raise UnicodeEncodeError, s1) /\
              _file_cache s1 = Some (Py.dict r)).
Proof.
  intros Hidx Hk Hfind Hcontent.
  destruct (getitem_run fuel key s r Hidx) as (cs & _ & Hrun).
  rewrite Hk in Hrun. unfold fetched in Hrun. rewrite Hfind in Hrun.
  cbn in Hrun. rewrite Hcontent in Hrun. split.
  - intros Hsmall. destruct (encode_latin1_small t Hsmall) as (b & Hb & Hd).
    rewrite Hb in Hrun. eexists b, _. split; [exact Hrun|exact Hd].
  - intros Hlarge. rewrite (encode_latin1_large t Hlarge) in Hrun.
    eexists. split; [exact Hrun|reflexivity].
Qed.

Lemma getitem_text_encoding_witness :
  (exists b s1,
      __getitem__ 1 "t"
        (MkStore 0%nat None false
           (Mk [Item 1%nat "t" FILE_MIME 0%nat false (CStr [233%N])] 2%nat [])
           None) = Some (Return b, s1) /\
      Py.decode_latin1 b = [233%N]) /\
  (exists s1,
      __getitem__ 1 "t"
        (MkStore 0%nat None false
           (Mk [Item 1%nat "t" FILE_MIME 0%nat false (CStr [8364%N])] 2%nat [])
           None) = Some (Raise UnicodeEncodeError, s1) /\
      _file_cache s1 = Some (Py.dict [("t", 1%nat)])).
Proof.
  split.
  - apply (proj1 (getitem_text_encoding 1 "t"
        (MkStore 0%nat None false
           (Mk [Item 1%nat "t" FILE_MIME 0%nat false (CStr [233%N])] 2%nat [])
           None) [("t", 1%nat)] 1%nat
        (Item 1%nat "t" FILE_MIME 0%nat false (CStr [233%N])) [233%N]
        ltac:(split; [exists [CallList (Query 0%nat None None)]; reflexivity
                     |left; reflexivity])
        ltac:(vm_compute; reflexivity) eq_refl eq_refl)).
    constructor; [lia|constructor].
  - apply (proj2 (getitem_text_encoding 1 "t"
        (MkStore 0%nat None false
           (Mk [Item 1%nat "t" FILE_MIME 0%nat false (CStr [8364%N])] 2%nat [])
           None) [("t", 1%nat)] 1%nat
        (Item 1%nat "t" FILE_MIME 0%nat false (CStr [8364%N])) [8364%N]
        ltac:(split; [exists [CallList (Query 0%nat None None)]; reflexivity
                     |left; reflexivity])
        ltac:(vm_compute; reflexivity) eq_refl eq_refl)).
    constructor. lia.
Defined.

(** ** Writing *)



Lemma setitem_outcome key b s :
  __setitem__ key (Py.VBytes b) s
  = Some (Return tt,
          with_cache
            (with_drive s (snd (written_drive key b (folder_id s) (_drive s))))
            None).
Proof.
  unfold __setitem__, bind, _get_or_create_folders, written_drive.
  destruct (resolve_folders _ _ _) as [parent d0].
  unfold on_drive, ListFile. cbn [_drive with_drive].
  destruct (List.filter _ (items d0)) as [|g fs]; reflexivity.
Qed.

Lemma map_set_content_other t c l :
  (forall it, In it l -> item_id it <> t) -> map (set_content t c) l = l.
Proof.
  induction l as [|it l IH]; intros H; [reflexivity|].
  cbn [map]. rewrite IH by (intros x Hx; apply H; right; exact Hx).
  unfold set_content.
  destruct (Nat.eqb_spec (item_id it) t) as [E|_]; [|reflexivity].
  destruct (H it (or_introl eq_refl) E).
Qed.

(** X10. A write of bytes never removes, renames or moves a node: the tree
    it leaves is the tree it found, followed by the nodes it created (at
    most one per folder segment and one for the file), with the content of
    the node written to replaced; every other node is still there,
    unchanged.  The cached index is discarded. *)
Theorem setitem_frame key b s :
  fresh_ids (_drive s) ->
  exists s1 t new,
    __setitem__ key (Py.VBytes b) s = Some (Return tt, s1) /\
    _file_cache s1 = None /\
    items (_drive s1)
    = map (set_content t (CStr (Py.decode_latin1 b)))
          (items (_drive s) ++ new) /\
    (length new <= S (length (folder_parts_of key)))%nat /\
    (forall it, In it (items (_drive s)) -> item_id it <> t ->
                In it (items (_drive s1))).
Proof.
  intros Hfresh. rewrite setitem_outcome. unfold written_drive.
  destruct (resolve_folders (folder_parts_of key) (folder_id s) (_drive s))
    as [parent d0] eqn:E.
  pose proof (resolve_folders_fresh _ _ _ _ _ Hfresh E) as Hf0.
  destruct (resolve_folders_effect _ _ _ _ _ E)
    as (newf & _ & Hi & _ & Hlen & _).
  assert (Hkeep : forall t c new it,
             In it (items (_drive s)) -> item_id it <> t ->
             In it (map (set_content t c) (items (_drive s) ++ new))).
  { intros t c new it Hin Hne. apply in_map_iff. exists it. split.
    - unfold set_content.
      destruct (Nat.eqb_spec (item_id it) t) as [E'|_];
        [destruct (Hne E')|reflexivity].
    - apply in_app_iff. left. exact Hin. }
  destruct (List.filter _ (items d0)) as [|g fs] eqn:Ef.
  - eexists _, (next_id d0),
      (newf ++ [Item (next_id d0) (Py.os_path_basename key) FILE_MIME parent
                     false (CStr (Py.decode_latin1 b))])%list.
    split; [reflexivity|]. split; [reflexivity|].
    cbn [snd upload_new _drive with_cache with_drive items record].
    split; [|split; [rewrite length_app; cbn [length]; lia|]].
    + rewrite app_assoc, <- Hi, map_app.
      rewrite map_set_content_other
        by (intros it Hin; specialize (Hf0 it Hin); lia).
      cbn [map]. unfold set_content. cbn [item_id]. rewrite Nat.eqb_refl.
      reflexivity.
    + intros it Hin Hne. apply in_app_iff. left. rewrite Hi.
      apply in_app_iff. left. exact Hin.
  - eexists _, (item_id g), newf.
    split; [reflexivity|]. split; [reflexivity|].
    cbn [snd upload_existing _drive with_cache with_drive items record].
    rewrite Hi. split; [reflexivity|]. split; [lia|]. apply Hkeep.
Qed.

Lemma sample_fresh : fresh_ids Sample.d0.
Proof.
  intros it Hin. cbn in Hin |- *.
  repeat (destruct Hin as [<-|Hin]; [cbn; lia|]). destruct Hin.
Qed.

Lemma setitem_frame_witness :
  exists s1 t new,
    __setitem__ "sub/s.txt" (Py.VBytes ["h"%byte]) (Sample.store None false)
    = Some (Return tt, s1) /\
    _file_cache s1 = None /\
    items (_drive s1)
    = map (set_content t (CStr (Py.decode_latin1 ["h"%byte])))
          (items (_drive (Sample.store None false)) ++ new) /\
    (length new <= S (length (folder_parts_of "sub/s.txt")))%nat /\
    (forall it, In it (items (_drive (Sample.store None false))) ->
                item_id it <> t -> In it (items (_drive s1))).
Proof.
  apply (setitem_frame "sub/s.txt" ["h"%byte] (Sample.store None false)).
  exact sample_fresh.
Defined.





(** ** Deleting *)

Lemma walk_items_without ml ih rec rec' prefix level l i :
  (forall it, In it l -> has_id i it = true -> is_folder it = false) ->
  (forall f p lv, rec' f p lv = without_id_result i (rec f p lv)) ->
  walk_items ml ih rec' prefix level
             (List.filter (fun it => negb (has_id i it)) l)
  = without_id_result i (walk_items ml ih rec prefix level l).
Proof.
  intros Hfile Hrec. induction l as [|it l IH]; [reflexivity|].
  assert (IH' := IH (fun x Hx => Hfile x (or_intror Hx))). clear IH.
  cbn [List.filter walk_items]. destruct (has_id i it) eqn:Eid; cbn [negb].
  - rewrite IH'. rewrite (Hfile it (or_introl eq_refl) Eid).
    destruct (skipped ih (item_title it)); [reflexivity|].
    destruct (walk_items ml ih rec prefix level l) as [[zs cs]|];
      [|reflexivity].
    cbn [without_id_result without_id List.filter snd].
    unfold has_id in Eid. rewrite Eid. reflexivity.
  - cbn [walk_items]. destruct (skipped ih (item_title it)); [exact IH'|].
    destruct (is_folder it).
    + destruct (may_descend ml level); [|exact IH'].
      rewrite Hrec, IH'.
      destruct (rec (item_id it) _ (level + 1)) as [[ys cs1]|];
        [|reflexivity].
      destruct (walk_items ml ih rec prefix level l) as [[zs cs2]|];
        [|reflexivity].
      cbn [without_id_result]. unfold without_id.
      rewrite List.filter_app. reflexivity.
    + rewrite IH'.
      destruct (walk_items ml ih rec prefix level l) as [[zs cs]|];
        [|reflexivity].
      cbn [without_id_result without_id List.filter snd].
      unfold has_id in Eid. rewrite Eid. reflexivity.
Qed.

(** Removing the nodes of an identity no folder has removes from what the
    traversal yields the pairs of that identity, and changes nothing else:
    the other pairs come in the same order, the same listings are
    requested. *)
Lemma walk_without_file ml ih its i fuel f p lv :
  (forall it, In it its -> has_id i it = true -> is_folder it = false) ->
  walk ml ih (List.filter (fun it => negb (has_id i it)) its) fuel f p lv
  = without_id_result i (walk ml ih its fuel f p lv).
Proof.
  intros Hfile. revert f p lv.
  induction fuel as [|fuel IH]; intros f p lv; [reflexivity|].
  cbn [walk]. destruct (cutoff ml lv); [reflexivity|].
  unfold children at 1. rewrite filter_comm. fold (children its f).
  rewrite (walk_items_without ml ih (walk ml ih its fuel)).
  - destruct (walk_items ml ih (walk ml ih its fuel) p lv (children its f))
      as [[r cs]|]; reflexivity.
  - intros it Hin. apply Hfile. apply in_children in Hin as [Hin _].
    exact Hin.
  - exact IH.
Qed.

Lemma dict_without_other i (r : list (string * ident)) q j :
  Py.dict r !! q = Some j -> j <> i ->
  Py.dict (without_id i r) !! q = Some j.
Proof.
  intros H Hne. revert H.
  induction r as [|[k v] r IH] using rev_ind; intros H.
  - unfold Py.dict in H. cbn in H. rewrite lookup_empty in H. discriminate.
  - unfold without_id in *. rewrite List.filter_app. cbn [List.filter snd].
    rewrite dict_snoc in H. destruct (decide (k = q)) as [->|Hk].
    + rewrite lookup_insert_eq in H. injection H as ->.
      destruct (Nat.eqb_spec j i) as [E|_]; [destruct (Hne E)|].
      cbn [negb]. rewrite dict_snoc. apply lookup_insert_eq.
    + rewrite lookup_insert_ne in H by exact Hk.
      destruct (negb (Nat.eqb v i)).
      * rewrite dict_snoc, lookup_insert_ne by exact Hk. apply IH, H.
      * rewrite app_nil_r. apply IH, H.
Qed.

Lemma find_without_other i j its :
  j <> i ->
  List.find (has_id j) (List.filter (fun it => negb (has_id i it)) its)
  = List.find (has_id j) its.
Proof.
  intros Hne. induction its as [|it its IH]; [reflexivity|].
  cbn [List.filter List.find]. destruct (has_id i it) eqn:Ei; cbn [negb].
  - destruct (has_id j it) eqn:Ej; [|exact IH].
    unfold has_id in Ei, Ej. apply Nat.eqb_eq in Ei, Ej. congruence.
  - cbn [List.find]. destruct (has_id j it); [reflexivity|exact IH].
Qed.

Lemma delitem_run fuel key s r i :
  index_is fuel s r -> Py.dict r !! key = Some i ->
  exists cs,
    Forall (fun c => is_list c = true) cs /\
    __delitem__ fuel key s
    = Some (Return tt,
            with_cache
              (with_drive s
                 (Mk (List.filter (fun it => negb (has_id i it))
                                  (items (_drive s)))
                     (next_id (_drive s))
                     (log (_drive s) ++ cs ++ [CallDelete i])))
              None).
Proof.
  intros Hidx Hk. destruct (files_index_is _ _ _ Hidx) as (cs & Hcs & Hfiles).
  destruct Hidx as [[cs0 Ht] _].
  pose proof (yielded_exists _ _ _ _ _ _ _ _ _ _ _ Ht
                (dict_lookup_Some _ _ _ Hk)) as Hex.
  exists cs. split; [exact Hcs|].
  unfold __delitem__, bind. rewrite Hfiles, Hk.
  rewrite bool_decide_eq_true_2 by (eexists; reflexivity). cbn [negb].
  rewrite (files_cached _ _ (Py.dict r)) by reflexivity. rewrite Hk.
  unfold on_drive, Delete.
  cbn [_drive with_cache with_drive add_log items]. rewrite Hex.
  cbn. rewrite <- app_assoc. reflexivity.
Qed.

(** X12. Deleting a key leaves the other keys alone: when the node the
    index holds for the deleted key is not (also) a folder, every other key
    the index held for another node is, in the rebuilt index, still held
    for that node, and what a read fetches for it is unchanged. *)
Theorem delitem_keeps_other_keys fuel key other s r i j :
  index_is fuel s r ->
  Py.dict r !! key = Some i ->
  (forall it, In it (items (_drive s)) -> has_id i it = true ->
              is_folder it = false) ->
  Py.dict r !! other = Some j -> j <> i ->
  exists s1 c s2,
    __delitem__ fuel key s = Some (Return tt, s1) /\
    _files fuel s1 = Some (Return c, s2) /\
    c !! other = Some j /\
    fetched (items (_drive s1)) j = fetched (items (_drive s)) j.
Proof.
  intros Hidx Hk Hfile Ho Hne.
  destruct (delitem_run fuel key s r i Hidx Hk) as (cs & _ & Hdel).
  destruct Hidx as [[cs0 Ht] _]. unfold traversal in Ht.
  pose proof (walk_without_file (max_levels s) (include_hidden s)
                (items (_drive s)) i fuel (folder_id s) "" 0 Hfile) as Hw.
  rewrite Ht in Hw. cbn [without_id_result] in Hw.
  eexists _, _, _. split; [exact Hdel|].
  split; [apply (files_uncached _ _ (without_id i r) cs0);
          [reflexivity|exact Hw]|].
  split; [apply dict_without_other; assumption|].
  unfold fetched. cbn [_drive with_cache with_drive items].
  rewrite find_without_other by exact Hne. reflexivity.
Qed.

Lemma delitem_keeps_other_keys_witness :
  exists s1 c s2,
    __delitem__ 4 "r.txt" (Sample.store None false) = Some (Return tt, s1) /\
    _files 4 s1 = Some (Return c, s2) /\
    c !! "sub/s.txt" = Some 3%nat /\
    fetched (items (_drive s1)) 3%nat
    = fetched (items (_drive (Sample.store None false))) 3%nat.
Proof.
  apply (delitem_keeps_other_keys 4 "r.txt" "sub/s.txt"
           (Sample.store None false)
           [("r.txt", 1%nat); ("sub/s.txt", 3%nat); ("sub/deep/z", 8%nat)]
           1%nat 3%nat).
  - split; [|left; reflexivity]. eexists. vm_compute. reflexivity.
  - vm_compute. reflexivity.
  - intros it Hin Hid. cbn in Hin.
    repeat (destruct Hin as [<-|Hin]; [first [reflexivity|discriminate Hid]|]).
    destruct Hin.
  - vm_compute. reflexivity.
  - discriminate.
Defined.

(** * The URL helpers *)

Example extract_file_id_doc :
  _extract_file_id "https://drive.google.com/file/d/ABC123/view" = Some "ABC123".
Proof. reflexivity. Qed.

Example extract_file_id_open :
  _extract_file_id "https://drive.google.com/open?id=XYZ789" = Some "XYZ789".
Proof. reflexivity. Qed.

Example extract_file_id_uc :
  _extract_file_id "https://drive.google.com/uc?id=DEF456&export=download"
  = Some "DEF456".
Proof. reflexivity. Qed.

Example extract_folder_id_doc :
  _extract_folder_id "https://drive.google.com/drive/folders/ABC123"
  = Some "ABC123".
Proof. reflexivity. Qed.

Example extract_folder_id_user :
  _extract_folder_id "https://drive.google.com/drive/u/0/folders/XYZ789"
  = Some "XYZ789".
Proof. reflexivity. Qed.

Example extract_file_id_greedy :
  _extract_file_id "https://drive.google.com/uc?id=A&id=B" = Some "B".
Proof. reflexivity. Qed.

(** ** The regular expression engine *)

Lemma lit_app l1 l2 s :
  Re.lit (l1 +:+ l2) s
  = match Re.lit l1 s with Some r => Re.lit l2 r | None => None end.
Proof.
  revert s. induction l1 as [|a l1 IH]; intros s; [reflexivity|].
  rewrite string_app_cons. destruct s as [|b s]; [reflexivity|].
  cbn [Re.lit]. destruct (Ascii.eqb a b); [apply IH|reflexivity].
Qed.

Lemma all_app c a b : Re.all c (a +:+ b) = Re.all c a && Re.all c b.
Proof.
  induction a as [|x a IH]; [reflexivity|].
  rewrite string_app_cons. cbn [Re.all]. rewrite IH, andb_assoc. reflexivity.
Qed.

Lemma run_app c x rest :
  Re.all c x = true ->
  match rest with String a _ => c a = false | EmptyString => True end ->
  Re.run c (x +:+ rest) = x.
Proof.
  intros Hx Hrest. induction x as [|a x IH].
  - change ("" +:+ rest) with rest.
    destruct rest as [|b rest]; [reflexivity|]. cbn [Re.run].
    rewrite Hrest. reflexivity.
  - cbn [Re.all] in Hx. apply andb_true_iff in Hx as [Ha Hx].
    rewrite string_app_cons. cbn [Re.run]. rewrite Ha, (IH Hx). reflexivity.
Qed.

(** The final group takes a non-empty run of its class up to the first
    character that is not of the class, or to the end. *)
Lemma group_app c x rest :
  Re.all c x = true -> x <> "" ->
  match rest with String a _ => c a = false | EmptyString => True end ->
  Re.group c (x +:+ rest) = Some x.
Proof.
  intros Hx Hne Hrest. unfold Re.group. rewrite (run_app c x rest Hx Hrest).
  destruct x; [congruence|reflexivity].
Qed.

Lemma run_all c s : Re.all c (Re.run c s) = true.
Proof.
  induction s as [|a s IH]; [reflexivity|]. cbn [Re.run].
  destruct (c a) eqn:E; [|reflexivity]. cbn [Re.all]. rewrite E, IH.
  reflexivity.
Qed.

Lemma group_shape c s g :
  Re.group c s = Some g -> g <> "" /\ Re.all c g = true.
Proof.
  unfold Re.group. pose proof (run_all c s) as H.
  destruct (Re.run c s) as [|a r]; [discriminate|].
  intros E. injection E as <-. split; [discriminate|exact H].
Qed.

Lemma star_post {A} (Q : A -> Prop) c s (k : string -> option A) x :
  (forall s' y, k s' = Some y -> Q y) -> Re.star c s k = Some x -> Q x.
Proof.
  intros Hk. induction s as [|a s IH]; cbn [Re.star]; [apply Hk|].
  destruct (c a); [|apply Hk].
  destruct (Re.star c s k) as [y|]; [|apply Hk].
  intros E. injection E as <-. apply IH. reflexivity.
Qed.

(** Whatever comes before the group, what a match returns is what the
    continuation returns. *)
Lemma exec_post {A} (Q : A -> Prop) r :
  forall s (k : string -> option A) x,
    (forall s' y, k s' = Some y -> Q y) -> Re.exec r s k = Some x -> Q x.
Proof.
  induction r as [l|c|c|r IH|r1 IH1 r2 IH2]; intros s k x Hk; cbn [Re.exec].
  - destruct (Re.lit l s); [apply Hk|discriminate].
  - apply star_post, Hk.
  - destruct s as [|a s]; [discriminate|].
    destruct (c a); [apply star_post, Hk|discriminate].
  - destruct (Re.exec r s k) as [y|] eqn:E; [|apply Hk].
    intros E'. injection E' as <-. apply (IH _ _ _ Hk E).
  - apply IH1. intros s' y. apply IH2, Hk.
Qed.

Lemma search_shape p s g :
  Re.search p s = Some g -> g <> "" /\ Re.all (Re.inside p) g = true.
Proof.
  induction s as [|a s IH]; cbn [Re.search]; unfold Re.match_at.
  - destruct (Re.exec _ _ _) as [y|] eqn:E; [|discriminate].
    intros E'. injection E' as <-.
    apply (exec_post _ _ _ _ _ (group_shape (Re.inside p)) E).
  - destruct (Re.exec _ _ _) as [y|] eqn:E; [|exact IH].
    intros E'. injection E' as <-.
    apply (exec_post _ _ _ _ _ (group_shape (Re.inside p)) E).
Qed.

(** X13. An identity drawn from a URL is never empty.  A file identity
    holds no ['/'] or holds no ['&'] (according to the form of URL found); a
    folder identity holds no ['?']. *)
Theorem extracted_ids_shape url :
  (forall i, _extract_file_id url = Some i ->
     i <> "" /\
     (Re.all (Re.is_not "/"%char) i = true \/
      Re.all (Re.is_not "&"%char) i = true)) /\
  (forall i, _extract_folder_id url = Some i ->
     i <> "" /\ Re.all (Re.is_not "?"%char) i = true).
Proof.
  split.
  - intros i. unfold _extract_file_id.
    destruct (Re.search file_pattern_d url) as [g|] eqn:E1.
    { intros H. injection H as <-.
      destruct (search_shape _ _ _ E1) as [H1 H2]. auto. }
    destruct (Re.search file_pattern_open url) as [g|] eqn:E2.
    { intros H. injection H as <-.
      destruct (search_shape _ _ _ E2) as [H1 H2]. auto. }
    intros E3. destruct (search_shape _ _ _ E3) as [H1 H2]. auto.
  - intros i E. apply (search_shape _ _ _ E).
Qed.

Lemma extracted_ids_shape_witness :
  ("ABC123" <> "" /\
   (Re.all (Re.is_not "/"%char) "ABC123" = true \/
    Re.all (Re.is_not "&"%char) "ABC123" = true)) /\
  ("XYZ789" <> "" /\ Re.all (Re.is_not "?"%char) "XYZ789" = true).
Proof.
  split.
  - apply (proj1 (extracted_ids_shape
                    "https://drive.google.com/file/d/ABC123/view") "ABC123").
    reflexivity.
  - apply (proj2 (extracted_ids_shape
                    "https://drive.google.com/drive/u/0/folders/XYZ789")
                 "XYZ789").
    reflexivity.
Defined.

Lemma search_none_without l p s :
  (forall t, Re.lit l t = None -> Re.match_at p t = None) ->
  Re.occurs l s = false -> Re.search p s = None.
Proof.
  intros Hp. induction s as [|a s IH]; cbn [Re.occurs Re.search].
  - destruct (Re.lit l "") eqn:E; [discriminate|]. intros _.
    rewrite (Hp _ E). reflexivity.
  - destruct (Re.lit l (String a s)) eqn:E; [discriminate|]. intros H.
    rewrite (Hp _ E). apply IH, H.
Qed.

(** X14. A URL in which [drive.google.com/] does not occur yields neither a
    file identity nor a folder identity. *)
Theorem no_host_no_id url :
  Re.occurs "drive.google.com/" url = false ->
  _extract_file_id url = None /\ _extract_folder_id url = None.
Proof.
  intros H. unfold _extract_file_id, _extract_folder_id.
  assert (Hd : Re.search file_pattern_d url = None).
  { apply (search_none_without "drive.google.com/"); [|exact H].
    intros t Ht. unfold Re.match_at. cbn [Re.before file_pattern_d Re.exec].
    change "drive.google.com/file/d/" with ("drive.google.com/" +:+ "file/d/").
    rewrite lit_app, Ht. reflexivity. }
  assert (Ho : Re.search file_pattern_open url = None).
  { apply (search_none_without "drive.google.com/"); [|exact H].
    intros t Ht. unfold Re.match_at. cbn [Re.before file_pattern_open Re.exec].
    change "drive.google.com/open?id="
      with ("drive.google.com/" +:+ "open?id=").
    rewrite lit_app, Ht. reflexivity. }
  assert (Hu : Re.search file_pattern_uc url = None).
  { apply (search_none_without "drive.google.com/"); [|exact H].
    intros t Ht. unfold Re.match_at. cbn [Re.before file_pattern_uc Re.exec].
    change "drive.google.com/uc?" with ("drive.google.com/" +:+ "uc?").
    rewrite lit_app, Ht. reflexivity. }
  rewrite Hd, Ho, Hu. split; [reflexivity|].
  apply (search_none_without "drive.google.com/"); [|exact H].
  intros t Ht. unfold Re.match_at. cbn [Re.before folder_pattern Re.exec].
  change "drive.google.com/drive/" with ("drive.google.com/" +:+ "drive/").
  rewrite lit_app, Ht. reflexivity.
Qed.

Lemma no_host_no_id_witness :
  _extract_file_id "https://example.com/file/d/ABC123/view" = None /\
  _extract_folder_id "https://example.com/file/d/ABC123/view" = None.
Proof.
  apply (no_host_no_id "https://example.com/file/d/ABC123/view").
  reflexivity.
Defined.

(** ** Drawing an identity from the usual forms of URL *)

Lemma id_char_differs a b :
  Re.id_char a = true -> Re.id_char b = false -> Ascii.eqb a b = false.
Proof.
  intros Ha Hb. destruct (Ascii.eqb_spec a b) as [->|_]; [congruence|].
  reflexivity.
Qed.

Lemma all_id_char_is_not x t :
  Re.id_char x = false -> Re.all Re.id_char t = true ->
  Re.all (Re.is_not x) t = true.
Proof.
  intros Hx. induction t as [|a t IH]; [reflexivity|]. cbn [Re.all].
  rewrite !andb_true_iff. intros [Ha Ht]. split; [|apply IH, Ht].
  unfold Re.is_not. rewrite (id_char_differs a x Ha Hx). reflexivity.
Qed.

(** Where a literal cannot start: inside a run [t] of identity characters,
    when the literal holds, after its first characters [u], a character [b]
    that is not an identity character, and what follows the run does not
    start with a character of [u] or with [b]. *)
Lemma lit_blocked u b v t rest :
  Re.all Re.id_char t = true -> t <> "" -> Re.id_char b = false ->
  match rest with
  | EmptyString => True
  | String a _ => Ascii.eqb b a = false /\ Re.all (Re.is_not a) u = true
  end ->
  Re.lit (u +:+ String b v) (t +:+ rest) = None.
Proof.
  intros Ht Hne Hb Hrest. revert t Ht Hne.
  induction u as [|x u IH]; intros t Ht Hne.
  - change ("" +:+ String b v) with (String b v).
    destruct t as [|c t]; [congruence|]. rewrite string_app_cons.
    cbn [Re.lit Re.all] in *. apply andb_true_iff in Ht as [Hc _].
    rewrite Ascii.eqb_sym, (id_char_differs c b Hc Hb). reflexivity.
  - destruct t as [|c t]; [congruence|]. rewrite !string_app_cons.
    cbn [Re.lit Re.all] in *. apply andb_true_iff in Ht as [_ Ht].
    destruct (Ascii.eqb x c); [|reflexivity].
    assert (Hrest' : match rest with
                     | EmptyString => True
                     | String a _ =>
                         Ascii.eqb b a = false /\
                         Re.all (Re.is_not a) u = true
                     end).
    { destruct rest as [|a rest]; [exact I|]. destruct Hrest as [H1 H2].
      apply andb_true_iff in H2 as [_ H2]. auto. }
    destruct t as [|c' t]; [|apply (IH Hrest'); [exact Ht|discriminate]].
    change ("" +:+ rest) with rest. destruct rest as [|a rest].
    + destruct u; reflexivity.
    + destruct Hrest as [H1 H2]. destruct u as [|y u].
      * change ("" +:+ String b v) with (String b v). cbn [Re.lit].
        rewrite H1. reflexivity.
      * rewrite string_app_cons. cbn [Re.lit Re.all] in *.
        apply andb_true_iff in H2 as [_ H2].
        apply andb_true_iff in H2 as [H2 _]. unfold Re.is_not in H2.
        apply negb_true_iff in H2. rewrite H2. reflexivity.
Qed.

Lemma search_here p s g :
  Re.match_at p s = Some g -> Re.search p s = Some g.
Proof. intros H. destruct s; cbn [Re.search]; rewrite H; reflexivity. Qed.

Lemma search_next p a s :
  Re.match_at p (String a s) = None ->
  Re.search p (String a s) = Re.search p s.
Proof. intros H. cbn [Re.search]. rewrite H. reflexivity. Qed.

Lemma needs_host_d : needs_host file_pattern_d.
Proof.
  intros t Ht. unfold Re.match_at. cbn [Re.before file_pattern_d Re.exec].
  change "drive.google.com/file/d/" with ("drive.google.com/" +:+ "file/d/").
  rewrite lit_app, Ht. reflexivity.
Qed.

Lemma needs_host_open : needs_host file_pattern_open.
Proof.
  intros t Ht. unfold Re.match_at. cbn [Re.before file_pattern_open Re.exec].
  change "drive.google.com/open?id=" with ("drive.google.com/" +:+ "open?id=").
  rewrite lit_app, Ht. reflexivity.
Qed.



Lemma search_skip_plain p t rest :
  needs_host p -> Re.all Re.id_char t = true -> passable rest ->
  Re.search p rest = None -> Re.search p (t +:+ rest) = None.
Proof.
  intros Hp Ht Hrest Hnone. induction t as [|a t IH]; [exact Hnone|].
  rewrite string_app_cons. rewrite search_next.
  - apply IH. cbn [Re.all] in Ht. apply andb_true_iff in Ht as [_ Ht].
    exact Ht.
  - rewrite <- string_app_cons. apply Hp.
    change "drive.google.com/" with ("drive" +:+ String "." "google.com/").
    apply lit_blocked; [exact Ht|discriminate|reflexivity|exact Hrest].
Qed.

Lemma star_app {A} c x s (k : string -> option A) :
  Re.all c x = true ->
  Re.star c (x +:+ s) k
  = match Re.star c s k with
    | Some r => Some r
    | None => Re.retry x s k
    end.
Proof.
  induction x as [|a x IH]; intros Hx.
  - change ("" +:+ s) with s. destruct (Re.star c s k); reflexivity.
  - cbn [Re.all] in Hx. apply andb_true_iff in Hx as [Ha Hx].
    rewrite string_app_cons. cbn [Re.star Re.retry]. rewrite Ha, (IH Hx).
    destruct (Re.star c s k); [reflexivity|].
    rewrite string_app_cons. reflexivity.
Qed.

Lemma retry_app {A} x1 x2 s (k : string -> option A) :
  Re.retry (x1 +:+ x2) s k
  = match Re.retry x2 s k with
    | Some r => Some r
    | None => Re.retry x1 (x2 +:+ s) k
    end.
Proof.
  induction x1 as [|a x1 IH].
  - change ("" +:+ x2) with x2. destruct (Re.retry x2 s k); reflexivity.
  - rewrite string_app_cons. cbn [Re.retry]. rewrite IH.
    destruct (Re.retry x2 s k); [reflexivity|].
    rewrite !string_app_cons, string_app_assoc. reflexivity.
Qed.

Lemma retry_plain_none {A} x s (k : string -> option A) :
  (forall t, Re.all Re.id_char t = true -> t <> "" -> k (t +:+ s) = None) ->
  Re.all Re.id_char x = true -> Re.retry x s k = None.
Proof.
  intros Hk. induction x as [|a x IH]; intros Hx; [reflexivity|].
  cbn [Re.retry]. rewrite IH.
  - apply Hk; [exact Hx|discriminate].
  - cbn [Re.all] in Hx. apply andb_true_iff in Hx as [_ Hx]. exact Hx.
Qed.

Lemma id_char_dot t :
  Re.all Re.id_char t = true -> Re.all Re.dot t = true.
Proof. apply all_id_char_is_not. reflexivity. Qed.

(** The continuation of [.*] in the third pattern cannot start inside an
    identity. *)
Lemma id_eq_blocked t rest :
  Re.all Re.id_char t = true -> t <> "" ->
  match rest with
  | EmptyString => True
  | String a _ => Ascii.eqb "="%char a = false /\
                  Re.all (Re.is_not a) "id" = true
  end ->
  Re.exec (Re.Lit "id=") (t +:+ rest) (Re.group (Re.is_not "&"%char)) = None.
Proof.
  intros Ht Hne Hrest. cbn [Re.exec].
  change "id=" with ("id" +:+ String "=" "").
  rewrite lit_blocked; [reflexivity|exact Ht|exact Hne|reflexivity|exact Hrest].
Qed.

Lemma string_app_nil_l (s : string) : "" +:+ s = s.
Proof. reflexivity. Qed.

Lemma lit_self l s : Re.lit l (l +:+ s) = Some s.
Proof.
  induction l as [|a l IH]; [reflexivity|].
  rewrite string_app_cons. cbn [Re.lit]. rewrite Ascii.eqb_refl. exact IH.
Qed.

Lemma group_all c x :
  Re.all c x = true -> x <> "" -> Re.group c x = Some x.
Proof.
  intros Hx Hne. rewrite <- (string_app_nil_r x) at 1.
  apply group_app; [exact Hx|exact Hne|exact I].
Qed.

Lemma search_plain_end p t :
  needs_host p -> Re.all Re.id_char t = true -> Re.search p "" = None ->
  Re.search p t = None.
Proof.
  intros Hp Ht Hnone. rewrite <- (string_app_nil_r t).
  apply search_skip_plain; [exact Hp|exact Ht|exact I|exact Hnone].
Qed.

Ltac norm_url := rewrite ?string_app_cons, ?string_app_nil_l.
Ltac skip_prefix := repeat (rewrite search_next by reflexivity).

Lemma search_d_view id rest :
  Re.all Re.id_char id = true -> id <> "" ->
  match rest with String a _ => Ascii.eqb a "/" = true | EmptyString => True end ->
  Re.search file_pattern_d ("https://drive.google.com/file/d/" +:+ id +:+ rest)
  = Some id.
Proof.
  intros Hid Hne Hrest. norm_url. skip_prefix. apply search_here.
  match goal with
  | |- Re.match_at _ ?u = _ =>
      change u with ("drive.google.com/file/d/" +:+ (id +:+ rest))
  end.
  unfold Re.match_at. cbn [Re.before Re.inside file_pattern_d Re.exec].
  rewrite lit_self. apply group_app; [|exact Hne|].
  - apply all_id_char_is_not; [reflexivity|exact Hid].
  - destruct rest as [|a rest]; [exact I|]. unfold Re.is_not.
    rewrite Hrest. reflexivity.
Qed.

Lemma search_d_none_open id :
  Re.all Re.id_char id = true ->
  Re.search file_pattern_d ("https://drive.google.com/open?id=" +:+ id) = None.
Proof.
  intros Hid. norm_url. skip_prefix.
  apply search_plain_end; [exact needs_host_d|exact Hid|reflexivity].
Qed.

Lemma search_open id :
  Re.all Re.id_char id = true -> id <> "" ->
  Re.search file_pattern_open ("https://drive.google.com/open?id=" +:+ id)
  = Some id.
Proof.
  intros Hid Hne. norm_url. skip_prefix. apply search_here.
  match goal with
  | |- Re.match_at _ ?u = _ =>
      change u with ("drive.google.com/open?id=" +:+ id)
  end.
  unfold Re.match_at. cbn [Re.before Re.inside file_pattern_open Re.exec].
  rewrite lit_self. apply group_all; [|exact Hne].
  apply all_id_char_is_not; [reflexivity|exact Hid].
Qed.

(** The third pattern, once its first literal is read: [.*], then [id=],
    then the group. *)
Lemma uc_match s :
  Re.match_at file_pattern_uc ("drive.google.com/uc?" +:+ s)
  = Re.star Re.dot s
      (fun s1 => Re.exec (Re.Lit "id=") s1 (Re.group (Re.is_not "&"%char))).
Proof.
  unfold Re.match_at.
  change (Re.exec (Re.before file_pattern_uc) ?u ?k)
    with (match Re.lit "drive.google.com/uc?" u with
          | Some r =>
              Re.star Re.dot r
                (fun s1 =>
                   Re.exec (Re.Lit "id=") s1 (Re.group (Re.is_not "&"%char)))
          | None => None
          end).
  rewrite lit_self. reflexivity.
Qed.

Lemma retry_id_eq s :
  Re.retry "id=" s
    (fun s1 => Re.exec (Re.Lit "id=") s1 (Re.group (Re.is_not "&"%char)))
  = Re.group (Re.is_not "&"%char) s.
Proof. reflexivity. Qed.

(** [.*id=([^&]+)] on [pre id= x rest]: the last [id=] is the one that is
    found, when none occurs in [rest] and [x] is an identity. *)
Lemma uc_star pre x rest :
  Re.all Re.dot pre = true -> Re.all Re.id_char x = true -> x <> "" ->
  match rest with
  | EmptyString => True
  | String a _ => a = "&"%char
  end ->
  Re.star Re.dot rest
    (fun s1 => Re.exec (Re.Lit "id=") s1 (Re.group (Re.is_not "&"%char)))
  = None ->
  Re.star Re.dot (pre +:+ "id=" +:+ x +:+ rest)
    (fun s1 => Re.exec (Re.Lit "id=") s1 (Re.group (Re.is_not "&"%char)))
  = Some x.
Proof.
  intros Hpre Hx Hne Hrest Hnone.
  rewrite <- (string_app_assoc "id=" x rest), <- (string_app_assoc pre _ rest).
  rewrite <- (string_app_assoc pre "id=" x).
  rewrite star_app, Hnone.
  2:{ rewrite !all_app, Hpre, (id_char_dot x Hx). reflexivity. }
  rewrite retry_app, retry_plain_none; [| |exact Hx].
  2:{ intros t Ht Hnt. apply id_eq_blocked; [exact Ht|exact Hnt|].
      destruct rest as [|a rest]; [exact I|]. subst a. split; reflexivity. }
  rewrite retry_app, retry_id_eq.
  rewrite group_app; [reflexivity| |exact Hne|].
  - apply all_id_char_is_not; [reflexivity|exact Hx].
  - destruct rest as [|a rest]; [exact I|]. subst a. reflexivity.
Qed.

Lemma uc_star_end pre x :
  Re.all Re.dot pre = true -> Re.all Re.id_char x = true -> x <> "" ->
  Re.star Re.dot (pre +:+ "id=" +:+ x)
    (fun s1 => Re.exec (Re.Lit "id=") s1 (Re.group (Re.is_not "&"%char)))
  = Some x.
Proof.
  intros Hpre Hx Hne.
  pose proof (uc_star pre x "" Hpre Hx Hne I eq_refl) as H.
  rewrite string_app_nil_r in H. exact H.
Qed.

Lemma search_d_none_uc_id id :
  Re.all Re.id_char id = true ->
  Re.search file_pattern_d
    ("https://drive.google.com/uc?id=" +:+ id +:+ "&export=download") = None.
Proof.
  intros Hid. norm_url. skip_prefix.
  apply search_skip_plain;
    [exact needs_host_d|exact Hid|split; reflexivity|reflexivity].
Qed.

Lemma search_open_none_uc_id id :
  Re.all Re.id_char id = true ->
  Re.search file_pattern_open
    ("https://drive.google.com/uc?id=" +:+ id +:+ "&export=download") = None.
Proof.
  intros Hid. norm_url. skip_prefix.
  apply search_skip_plain;
    [exact needs_host_open|exact Hid|split; reflexivity|reflexivity].
Qed.

Lemma search_uc_id id :
  Re.all Re.id_char id = true -> id <> "" ->
  Re.search file_pattern_uc
    ("https://drive.google.com/uc?id=" +:+ id +:+ "&export=download") = Some id.
Proof.
  intros Hid Hne. norm_url. skip_prefix. apply search_here.
  match goal with
  | |- Re.match_at _ ?u = _ =>
      change u
        with ("drive.google.com/uc?" +:+
              ("" +:+ "id=" +:+ id +:+ "&export=download"))
  end.
  rewrite uc_match.
  apply uc_star; [reflexivity|exact Hid|exact Hne|reflexivity|reflexivity].
Qed.

Lemma search_d_none_download id :
  Re.all Re.id_char id = true ->
  Re.search file_pattern_d
    ("https://drive.google.com/uc?export=download&id=" +:+ id) = None.
Proof.
  intros Hid. norm_url. skip_prefix.
  apply search_plain_end; [exact needs_host_d|exact Hid|reflexivity].
Qed.

Lemma search_open_none_download id :
  Re.all Re.id_char id = true ->
  Re.search file_pattern_open
    ("https://drive.google.com/uc?export=download&id=" +:+ id) = None.
Proof.
  intros Hid. norm_url. skip_prefix.
  apply search_plain_end; [exact needs_host_open|exact Hid|reflexivity].
Qed.

Lemma search_uc_download id :
  Re.all Re.id_char id = true -> id <> "" ->
  Re.search file_pattern_uc
    ("https://drive.google.com/uc?export=download&id=" +:+ id) = Some id.
Proof.
  intros Hid Hne. norm_url. skip_prefix. apply search_here.
  match goal with
  | |- Re.match_at _ ?u = _ =>
      change u
        with ("drive.google.com/uc?" +:+ ("export=download&" +:+ "id=" +:+ id))
  end.
  rewrite uc_match.
  apply uc_star_end; [reflexivity|exact Hid|exact Hne].
Qed.

(** X15. [_extract_file_id] gives back the identity the usual forms of
    file URL are made from: [.../file/d/ID], alone or followed by a path,
    [.../open?id=ID] and [.../uc?id=ID&export=download]. *)
Theorem extract_file_id_round_trip id rest :
  Re.all Re.id_char id = true -> id <> "" ->
  match rest with
  | String a _ => Ascii.eqb a "/" = true
  | EmptyString => True
  end ->
  _extract_file_id ("https://drive.google.com/file/d/" +:+ id +:+ rest)
  = Some id /\
  _extract_file_id ("https://drive.google.com/open?id=" +:+ id) = Some id /\
  _extract_file_id
    ("https://drive.google.com/uc?id=" +:+ id +:+ "&export=download")
  = Some id.
Proof.
  intros Hid Hne Hrest. unfold _extract_file_id. repeat split.
  - rewrite (search_d_view id rest Hid Hne Hrest). reflexivity.
  - rewrite (search_d_none_open id Hid), (search_open id Hid Hne).
    reflexivity.
  - rewrite (search_d_none_uc_id id Hid), (search_open_none_uc_id id Hid).
    apply (search_uc_id id Hid Hne).
Qed.

Lemma extract_file_id_round_trip_witness :
  _extract_file_id
    ("https://drive.google.com/file/d/" +:+ "1aB-9_z" +:+ "/view?usp=sharing")
  = Some "1aB-9_z" /\
  _extract_file_id ("https://drive.google.com/open?id=" +:+ "1aB-9_z")
  = Some "1aB-9_z" /\
  _extract_file_id
    ("https://drive.google.com/uc?id=" +:+ "1aB-9_z" +:+ "&export=download")
  = Some "1aB-9_z".
Proof.
  apply (extract_file_id_round_trip "1aB-9_z" "/view?usp=sharing");
    [reflexivity|discriminate|reflexivity].
Defined.

(** The folder pattern, once its first literal is read. *)
Lemma folder_match s :
  Re.match_at folder_pattern ("drive.google.com/drive/" +:+ s)
  = Re.exec
      (Re.Seq (Re.Opt (Re.Seq (Re.Lit "u/")
                              (Re.Seq (Re.Plus Re.digit) (Re.Lit "/"))))
              (Re.Lit "folders/"))
      s (Re.group (Re.is_not "?"%char)).
Proof.
  unfold Re.match_at.
  change (Re.exec (Re.before folder_pattern) ?u ?k)
    with (match Re.lit "drive.google.com/drive/" u with
          | Some r =>
              Re.exec
                (Re.Seq (Re.Opt (Re.Seq (Re.Lit "u/")
                                        (Re.Seq (Re.Plus Re.digit)
                                                (Re.Lit "/"))))
                        (Re.Lit "folders/"))
                r k
          | None => None
          end).
  rewrite lit_self. reflexivity.
Qed.

Lemma folder_tail id rest :
  Re.all (Re.is_not "?"%char) id = true -> id <> "" ->
  match rest with
  | String a _ => Ascii.eqb a "?" = true
  | EmptyString => True
  end ->
  Re.exec (Re.Lit "folders/") ("folders/" +:+ id +:+ rest)
          (Re.group (Re.is_not "?"%char)) = Some id.
Proof.
  intros Hid Hne Hrest. cbn [Re.exec]. rewrite lit_self.
  apply group_app; [exact Hid|exact Hne|].
  destruct rest as [|a rest]; [exact I|]. unfold Re.is_not.
  rewrite Hrest. reflexivity.
Qed.

Lemma search_folder_plain id rest :
  Re.all (Re.is_not "?"%char) id = true -> id <> "" ->
  match rest with
  | String a _ => Ascii.eqb a "?" = true
  | EmptyString => True
  end ->
  Re.search folder_pattern
    ("https://drive.google.com/drive/folders/" +:+ id +:+ rest) = Some id.
Proof.
  intros Hid Hne Hrest. norm_url. skip_prefix. apply search_here.
  match goal with
  | |- Re.match_at _ ?u = _ =>
      change u
        with ("drive.google.com/drive/" +:+ ("folders/" +:+ id +:+ rest))
  end.
  rewrite folder_match.
  change (Re.exec (Re.Seq (Re.Opt ?r) ?l) ?s ?k)
    with (match Re.exec r s (fun s1 => Re.exec l s1 k) with
          | Some x => Some x
          | None => Re.exec l s k
          end).
  replace (Re.exec (Re.Seq (Re.Lit "u/") _) _ _) with (@None string)
    by reflexivity.
  apply folder_tail; assumption.
Qed.

Lemma exec_slash {A} s (k : string -> option A) :
  Re.exec (Re.Lit "/") (String "/" s) k = k s.
Proof. reflexivity. Qed.

Lemma search_folder_user n id rest :
  Re.all Re.digit n = true -> n <> "" ->
  Re.all (Re.is_not "?"%char) id = true -> id <> "" ->
  match rest with
  | String a _ => Ascii.eqb a "?" = true
  | EmptyString => True
  end ->
  Re.search folder_pattern
    ("https://drive.google.com/drive/u/" +:+ n +:+ "/folders/" +:+ id +:+ rest)
  = Some id.
Proof.
  intros Hn Hnn Hid Hne Hrest. norm_url. skip_prefix. apply search_here.
  match goal with
  | |- Re.match_at _ ?u = _ =>
      change u
        with ("drive.google.com/drive/" +:+
              ("u/" +:+ n +:+ "/folders/" +:+ id +:+ rest))
  end.
  rewrite folder_match.
  change (Re.exec (Re.Seq (Re.Opt (Re.Seq (Re.Lit "u/") ?r)) ?l)
                  ("u/" +:+ ?s) ?k)
    with (match
             match Re.lit "u/" ("u/" +:+ s) with
             | Some s0 => Re.exec r s0 (fun s1 => Re.exec l s1 k)
             | None => None
             end
          with
          | Some x => Some x
          | None => Re.exec l ("u/" +:+ s) k
          end).
  rewrite lit_self.
  destruct n as [|a n]; [congruence|]. cbn [Re.all] in Hn.
  apply andb_true_iff in Hn as [Ha Hn]. rewrite string_app_cons.
  change (Re.exec (Re.Seq (Re.Plus Re.digit) (Re.Lit "/")) (String a ?s) ?k)
    with (if Re.digit a
          then Re.star Re.digit s (fun s1 => Re.exec (Re.Lit "/") s1 k)
          else None).
  rewrite Ha, (star_app Re.digit n _ _ Hn).
  change (Re.star Re.digit ("/folders/" +:+ ?s) ?k)
    with (k ("/folders/" +:+ s)).
  cbv beta. rewrite (string_app_cons _ "folders/"), exec_slash.
  rewrite (folder_tail id rest Hid Hne Hrest). reflexivity.
Qed.

(** X16. [_extract_folder_id] gives back the identity the usual forms of
    folder URL are made from: [.../drive/folders/ID] and
    [.../drive/u/N/folders/ID] with [N] a number, alone or followed by a
    query. *)
Theorem extract_folder_id_round_trip n id rest :
  Re.all Re.digit n = true -> n <> "" ->
  Re.all (Re.is_not "?"%char) id = true -> id <> "" ->
  match rest with
  | String a _ => Ascii.eqb a "?" = true
  | EmptyString => True
  end ->
  _extract_folder_id
    ("https://drive.google.com/drive/folders/" +:+ id +:+ rest) = Some id /\
  _extract_folder_id
    ("https://drive.google.com/drive/u/" +:+ n +:+ "/folders/" +:+ id +:+ rest)
  = Some id.
Proof.
  intros Hn Hnn Hid Hne Hrest. unfold _extract_folder_id. split.
  - apply search_folder_plain; assumption.
  - apply search_folder_user; assumption.
Qed.

Lemma extract_folder_id_round_trip_witness :
  _extract_folder_id
    ("https://drive.google.com/drive/folders/" +:+ "1aB-9_z" +:+ "?usp=sharing")
  = Some "1aB-9_z" /\
  _extract_folder_id
    ("https://drive.google.com/drive/u/" +:+ "12" +:+ "/folders/" +:+
     "1aB-9_z" +:+ "?usp=sharing")
  = Some "1aB-9_z".
Proof.
  apply (extract_folder_id_round_trip "12" "1aB-9_z" "?usp=sharing");
    [reflexivity|discriminate|reflexivity|discriminate|reflexivity].
Defined.

(** * The download without the API *)

(** ** Running a tree of calls *)

Lemma run_then {W A B} (h : handler W) (p : prog A) (f : A -> prog B) w :
  run h (then_ p f) w
  = match run h p w with
    | (Returned a, w1, t1) =>
        match run h (f a) w1 with
        | (r, w2, t2) => (r, w2, (t1 ++ t2)%list)
        end
    | (Raised e, w1, t1) => (Raised e, w1, t1)
    end.
Proof.
  revert w. induction p as [a|e|X c k IH]; intros w; cbn [then_ run].
  - destruct (run h (f a) w) as [[r w2] t2]. reflexivity.
  - reflexivity.
  - destruct (h X c w) as [x w1]. rewrite IH.
    destruct (run h (k x) w1) as [[[a|e] w2] t1]; [|reflexivity].
    destruct (run h (f a) w2) as [[r w3] t2]. reflexivity.
Qed.

Lemma run_ask {W X} (h : handler W) (c : extern X) w :
  run h (ask c) w = (Returned (reply h c w), world_after h c w,
                     [Step c (reply h c w)]).
Proof.
  unfold ask, reply, world_after. cbn [run].
  destruct (h X c w) as [x w1]. reflexivity.
Qed.

Lemma run_attempt {W X} (h : handler W) (c : extern (answer X)) w :
  run h (attempt c) w
  = (match reply h c w with
     | Ok x => Returned x
     | Failed what => Raised (Escaped what)
     end, world_after h c w, [Step c (reply h c w)]).
Proof.
  unfold attempt, reply, world_after. cbn [run].
  destruct (h (answer X) c w) as [[x|what] w1]; reflexivity.
Qed.

(** ** Paths and case *)

Example dirname_examples :
  map os_path_dirname ["/tmp/file.txt"; "file.txt"; "/file"; "a//b"; "//a";
                       "a/b/"; ""]
  = ["/tmp"; ""; "/"; "a"; "//"; "a/b"; ""].
Proof. reflexivity. Qed.

Example lower_example : lower "Virus SCAN: [OK]" = "virus scan: [ok]".
Proof. reflexivity. Qed.

(** [os.path.split]: what [dirname] starts from and [basename] make up the
    path. *)
Lemma upto_last_slash_basename p :
  upto_last_slash p +:+ Py.os_path_basename p = p.
Proof.
  induction p as [|c p IH]; [reflexivity|].
  cbn [upto_last_slash Py.os_path_basename].
  unfold has_slash at 1. cbn [list_ascii_of_string existsb].
  fold (has_slash p). rewrite (Ascii.eqb_sym "/" c).
  destruct (Ascii.eqb c "/"); cbn [orb].
  - rewrite string_app_cons, IH. reflexivity.
  - unfold has_slash. destruct (existsb _ _).
    + rewrite string_app_cons, IH. reflexivity.
    + reflexivity.
Qed.

(** ** The URL that is downloaded *)

(** X17. The URL [_download_from_drive] asks for is one from which
    [_extract_file_id] draws the identity it was built with. *)
Theorem download_url_round_trip file_id :
  Re.all Re.id_char file_id = true -> file_id <> "" ->
  _extract_file_id (download_url file_id) = Some file_id.
Proof.
  intros Hid Hne. unfold _extract_file_id, download_url.
  rewrite (search_d_none_download file_id Hid).
  rewrite (search_open_none_download file_id Hid).
  apply (search_uc_download file_id Hid Hne).
Qed.

Lemma download_url_round_trip_witness :
  _extract_file_id (download_url "1aB-9_z") = Some "1aB-9_z".
Proof.
  apply (download_url_round_trip "1aB-9_z"); [reflexivity|discriminate].
Defined.

(** ** The requests of a download *)

(** X18. Whatever the network answers, [_download_from_drive] sends one
    request or two and makes no other call; every request is for the
    download URL of the identity, the first one without parameters.  A
    second request is sent only after an answer whose text mentions a
    warning and that carries a cookie named [download_warning...]; it
    confirms with the value of the first such cookie.  When the function
    returns, the last answer has status 200 and what is returned is the
    content of that answer; a [RuntimeError] never carries the status
    200. *)
Theorem download_from_drive_requests
        W (h : handler W) w file_id r w' tr :
  run h (_download_from_drive file_id) w = (r, w', tr) ->
  (length tr = 1 \/ length tr = 2)%nat /\
  Forall (fun s => asked_url s = Some (download_url file_id)) tr /\
  (exists a, head tr = Some (Step (session_get (download_url file_id) None) a))
  /\
  (forall s2,
      nth_error tr 1 = Some s2 ->
      exists resp k v a,
        head tr = Some (Step (session_get (download_url file_id) None)
                             (Ok resp)) /\
        warned resp = true /\ warning_cookie resp = Some (k, v) /\
        s2 = Step (session_get (download_url file_id)
                               (Some [("id", file_id); ("confirm", v)])) a) /\
  (forall content,
      r = Returned content ->
      exists s, last tr = Some s /\ taken_in s = Some content) /\
  (forall status, r = Raised (RuntimeError status) -> status <> 200).
Proof.
  intros H. unfold _download_from_drive, attempt in H.
  cbn [then_ run] in H.
  repeat (case_match; cbn [then_ run negb] in *; simplify_eq).
  all: cbn [length head last app nth_error].
  all: split; [auto|]; split; [repeat constructor|]; split; [eauto|].
  all: split; [intros s2 Hs2; simplify_eq; eauto 10|].
  all: split; [intros c Hc|intros st Hst]; simplify_eq.
  all: try (eexists; split; [reflexivity|]; cbn [taken_in];
            match goal with
            | E : negb ?b = false |- _ =>
                apply negb_false_iff in E; rewrite E; reflexivity
            end).
  all: match goal with
       | E : negb ?b = true |- _ =>
           apply negb_true_iff in E; apply Z.eqb_neq in E; exact E
       end.
Qed.

Lemma download_from_drive_requests_witness :
  (length (snd Box.confirmed) = 1 \/ length (snd Box.confirmed) = 2)%nat /\
  Forall (fun s => asked_url s = Some (download_url "ABC"))
         (snd Box.confirmed) /\
  (exists a,
      head (snd Box.confirmed)
      = Some (Step (session_get (download_url "ABC") None) a)) /\
  (forall s2,
      nth_error (snd Box.confirmed) 1 = Some s2 ->
      exists resp k v a,
        head (snd Box.confirmed)
        = Some (Step (session_get (download_url "ABC") None) (Ok resp)) /\
        warned resp = true /\ warning_cookie resp = Some (k, v) /\
        s2 = Step (session_get (download_url "ABC")
                               (Some [("id", "ABC"); ("confirm", v)])) a) /\
  (forall content,
      fst (fst Box.confirmed) = Returned content ->
      exists s, last (snd Box.confirmed) = Some s /\
                taken_in s = Some content) /\
  (forall status,
      fst (fst Box.confirmed) = Raised (RuntimeError status) ->
      status <> 200).
Proof.
  apply (download_from_drive_requests Box.world (Box.serve Box.warning)
           Box.empty "ABC" _ (snd (fst Box.confirmed)) _).
  vm_compute. reflexivity.
Defined.

Lemma download_from_drive_calls {W} (h : handler W) w file_id :
  forallb is_get (snd (run h (_download_from_drive file_id) w)) = true.
Proof.
  destruct (run h (_download_from_drive file_id) w) as [[r w1] tr] eqn:H.
  unfold _download_from_drive, attempt in H. cbn [then_ run] in H.
  repeat (case_match; cbn [then_ run negb] in *; simplify_eq); reflexivity.
Qed.

(** ** Validation comes first *)


Lemma extract_file_id_truthy url i :
  _extract_file_id url = Some i -> Py.truthy i = true.
Proof.
  unfold _extract_file_id. intros H.
  assert (Hi : i <> "").
  { destruct (Re.search file_pattern_d url) as [g|] eqn:E1.
    { injection H as <-. apply (search_shape _ _ _ E1). }
    destruct (Re.search file_pattern_open url) as [g|] eqn:E2.
    { injection H as <-. apply (search_shape _ _ _ E2). }
    apply (search_shape _ _ _ H). }
  destruct i; [congruence|reflexivity].
Qed.

Ltac run_cases :=
  repeat (case_match; cbn [then_ run negb] in *; simplify_eq).



(** ** Where the bytes come from *)

Ltac unfold_get_bytes H :=
  unfold get_bytes, _resolve_cache_dir, download_and_hand_out,
    _download_from_drive, _handle_local_path_output, to_temporary_file,
    attempt, ask in H;
  cbn [then_ run negb] in H.

Ltac status_facts :=
  repeat match goal with
         | E : negb _ = false |- _ => apply negb_false_iff in E
         | E : negb _ = true |- _ => apply negb_true_iff in E
         end.

Ltac pick_source :=
  match goal with
  | |- exists s', In s' ?tr /\ taken_in s' = Some _ =>
      let rec go l :=
        lazymatch l with
        | ?s :: ?l' =>
            first
              [ solve [ exists s; split;
                        [ cbn [In]; auto 12
                        | cbn [taken_in];
                          repeat match goal with
                                 | E : (_ =? _) = _ |- _ => rewrite E
                                 end;
                          reflexivity ] ]
              | go l' ]
        end in
      go tr
  end.

(** X20. Whatever the environment answers, every sequence of bytes that
    [get_bytes] writes to a file (the cache file, the file asked for, a
    temporary file) or returns was read from the cache file or is the
    content of an answer with status 200: nothing else is ever stored or
    handed out. *)
Theorem get_bytes_provenance
        W (h : handler W) w url local_path use_cache r w' tr :
  run h (get_bytes url local_path use_cache) w = (r, w', tr) ->
  (forall s data,
      In s tr -> put_out s = Some data ->
      exists s', In s' tr /\ taken_in s' = Some data) /\
  (forall b,
      r = Returned (AsBytes b) ->
      exists s', In s' tr /\ taken_in s' = Some b).
Proof.
  intros H. unfold_get_bytes H. run_cases; status_facts.
  all: split;
    [ intros st data Hin Hput; cbn [In] in Hin;
      repeat (destruct Hin as [<-|Hin]; [cbn [put_out] in Hput|]);
      try contradiction; try discriminate; simplify_eq
    | intros bs Hb; simplify_eq ].
  all: pick_source.
Qed.

Lemma get_bytes_provenance_witness :
  (forall s data,
      In s (snd (Box.second_run (PStr "out/x"))) -> put_out s = Some data ->
      exists s', In s' (snd (Box.second_run (PStr "out/x"))) /\
                 taken_in s' = Some data) /\
  (forall b,
      fst (fst (Box.second_run (PStr "out/x"))) = Returned (AsBytes b) ->
      exists s', In s' (snd (Box.second_run (PStr "out/x"))) /\
                 taken_in s' = Some b).
Proof.
  apply (get_bytes_provenance Box.world (Box.serve Box.hi)
           (snd (fst Box.first_run)) Box.url (PStr "out/x") (PStr "c")
           _ (snd (fst (Box.second_run (PStr "out/x")))) _).
  vm_compute. reflexivity.
Defined.

(** ** The cache is asked first *)

(** X21. A run of [get_bytes] in which a path was found to exist sends no
    request; a run that returns without having found one has sent a
    request. *)
Theorem cache_hit_sends_nothing
        W (h : handler W) w url local_path use_cache r w' tr :
  run h (get_bytes url local_path use_cache) w = (r, w', tr) ->
  (existsb is_found tr = true -> existsb is_get tr = false) /\
  (forall x, r = Returned x ->
             existsb is_found tr = false -> existsb is_get tr = true).
Proof.
  intros H. unfold_get_bytes H. run_cases.
  all: split; [intros Hf|intros res Hres Hf]; cbn in Hf |- *;
    try discriminate; reflexivity.
Qed.

Lemma cache_hit_sends_nothing_witness :
  (existsb is_found (snd (Box.second_run PTrue)) = true ->
   existsb is_get (snd (Box.second_run PTrue)) = false) /\
  (forall x, fst (fst (Box.second_run PTrue)) = Returned x ->
             existsb is_found (snd (Box.second_run PTrue)) = false ->
             existsb is_get (snd (Box.second_run PTrue)) = true).
Proof.
  apply (cache_hit_sends_nothing Box.world (Box.serve Box.hi)
           (snd (fst Box.first_run)) Box.url PTrue (PStr "c")
           _ (snd (fst (Box.second_run PTrue))) _).
  vm_compute. reflexivity.
Defined.

(** X29. Without a cache and without a local path, [get_bytes] touches no
    file: a run makes no call but requests, and for a URL that holds an
    identity it is the run of [_download_from_drive] for that identity,
    with the same calls, the same outcome and the same state left. *)
Theorem get_bytes_plain_is_download W (h : handler W) w url file_id :
  _extract_file_id url = Some file_id ->
  forallb is_get (snd (run h (get_bytes url PFalse PFalse) w)) = true /\
  run h (get_bytes url PFalse PFalse) w
  = match run h (_download_from_drive file_id) w with
    | (Returned b, w1, tr) => (Returned (AsBytes b), w1, tr)
    | (Raised e, w1, tr) => (Raised e, w1, tr)
    end.
Proof.
  intros Hi. unfold get_bytes. rewrite Hi, (extract_file_id_truthy _ _ Hi).
  unfold _resolve_cache_dir, download_and_hand_out,
    _handle_local_path_output.
  cbn [then_ run negb]. rewrite !run_then.
  pose proof (download_from_drive_calls h w file_id) as Hget.
  destruct (run h (_download_from_drive file_id) w) as [[[b|e] w1] tr];
    cbn [run then_ snd] in *; rewrite ?app_nil_r; auto.
Qed.

Lemma get_bytes_plain_is_download_witness :
  forallb is_get
          (snd (run (Box.serve Box.hi) (get_bytes Box.url PFalse PFalse)
                    Box.empty)) = true /\
  run (Box.serve Box.hi) (get_bytes Box.url PFalse PFalse) Box.empty
  = match run (Box.serve Box.hi) (_download_from_drive "ABC") Box.empty with
    | (Returned b, w1, tr) => (Returned (AsBytes b), w1, tr)
    | (Raised e, w1, tr) => (Raised e, w1, tr)
    end.
Proof.
  apply (get_bytes_plain_is_download Box.world (Box.serve Box.hi) Box.empty
           Box.url "ABC").
  reflexivity.
Defined.

(** ** What is handed out *)

(** X22. What a run of [get_bytes] that returns hands out: bytes when
    [local_path] is [False] or a path, and in the second case the run ends
    with the making of the directory of that path (of ['.'] when the path
    has none) and the writing of these bytes to the path; a path when
    [local_path] is [True], and then the run ends either with that path
    found to exist (it is the cache file) or with the writing to the
    temporary file of that name. *)
Theorem get_bytes_hands_out
        W (h : handler W) w url local_path use_cache x w' tr :
  run h (get_bytes url local_path use_cache) w = (Returned x, w', tr) ->
  match local_path with
  | PFalse => exists b, x = AsBytes b
  | PStr path =>
      exists b rest,
        x = AsBytes b /\
        rev tr
        = Step (Path_write_bytes path b) (Ok tt)
          :: Step (os_makedirs (if Py.truthy (os_path_dirname path)
                                then os_path_dirname path else "."))
                  (Ok tt)
          :: rest
  | PTrue =>
      exists name, x = AsStr name /\
        (last tr = Some (Step (os_path_exists name) true) \/
         exists b, last tr = Some (Step (tmp_write name b) (Ok tt)))
  end.
Proof.
  intros H. unfold_get_bytes H. run_cases.
  all: repeat match goal with u : unit |- _ => destruct u end.
  all: cbn [last app rev]; eauto 7.
Qed.

Lemma get_bytes_hands_out_witness :
  exists name,
    AsStr "c/ABC" = AsStr name /\
    (last (snd (Box.second_run PTrue))
     = Some (Step (os_path_exists name) true) \/
     exists b, last (snd (Box.second_run PTrue))
               = Some (Step (tmp_write name b) (Ok tt))).
Proof.
  apply (get_bytes_hands_out Box.world (Box.serve Box.hi)
           (snd (fst Box.first_run)) Box.url PTrue (PStr "c")
           (AsStr "c/ABC") (snd (fst (Box.second_run PTrue)))
           (snd (Box.second_run PTrue))).
  vm_compute. reflexivity.
Defined.

(** ** The cache gives back what was downloaded *)

Section Lawful.

Context {W : Type} (isdir : string -> W -> Prop) (h : handler W).
Hypothesis law : lawful isdir h.

Lemma cached_kept X (c : extern X) x f data w w1 :
  keeps_files c = true -> h X c w = (x, w1) ->
  cached h f data w -> cached h f data w1.
Proof.
  intros Hk Hc [H1 H2].
  pose proof (exists_kept isdir h law X c f w Hk H1) as H3.
  pose proof (read_kept isdir h law X c f data w Hk H2) as H4.
  unfold world_after in H3, H4. rewrite Hc in H3, H4. split; assumption.
Qed.

Lemma cached_written f data w w1 :
  h _ (Path_write_bytes f data) w = (Ok tt, w1) -> cached h f data w1.
Proof.
  intros Hc.
  assert (Hr : reply h (Path_write_bytes f data) w = Ok tt)
    by (unfold reply; rewrite Hc; reflexivity).
  pose proof (write_then_read_back isdir h law f data w Hr) as H.
  unfold world_after in H. rewrite Hc in H. exact H.
Qed.

Lemma isdir_made d w w1 :
  h _ (os_makedirs d) w = (Ok tt, w1) -> isdir d w1.
Proof.
  intros Hc.
  assert (Hr : reply h (os_makedirs d) w = Ok tt)
    by (unfold reply; rewrite Hc; reflexivity).
  pose proof (makedirs_makes isdir h law d w Hr) as H.
  unfold world_after in H. rewrite Hc in H. exact H.
Qed.

Lemma isdir_step X (c : extern X) x d w w1 :
  h X c w = (x, w1) -> isdir d w -> isdir d w1.
Proof.
  intros Hc Hd. pose proof (isdir_kept isdir h law X c d w Hd) as H.
  unfold world_after in H. rewrite Hc in H. exact H.
Qed.

(** With the default cache, [get_bytes] asks for the home directory and
    goes on as with the directory it is given. *)
Lemma get_bytes_default_dir url local_path w :
  run h (get_bytes url local_path PTrue) w
  = match _extract_file_id url with
    | None => (Raised ValueError, w, [])
    | Some _ =>
        let '(dir, w0) :=
          h _ (os_path_expanduser "~/.cache/pydrivedol/cached/") w in
        let '(r, w1, tr) := run h (get_bytes url local_path (PStr dir)) w0 in
        (r, w1, Step (os_path_expanduser "~/.cache/pydrivedol/cached/") dir
                :: tr)
    end.
Proof.
  unfold get_bytes. destruct (_extract_file_id url) as [i|] eqn:Hi;
    [|reflexivity].
  rewrite (extract_file_id_truthy _ _ Hi). cbn [negb].
  unfold _resolve_cache_dir, ask. cbn [then_ run].
  destruct (h _ (os_path_expanduser _) w) as [dir w0]. reflexivity.
Qed.

(** With the cache file in place, [get_bytes] reads it and sends
    nothing. *)
Lemma get_bytes_cached url i dir data w :
  _extract_file_id url = Some i -> Py.truthy dir = true ->
  isdir dir w -> cached h (_get_cached_path i dir) data w ->
  exists w2 tr2,
    run h (get_bytes url PFalse (PStr dir)) w
    = (Returned (AsBytes data), w2, tr2) /\
    existsb is_get tr2 = false.
Proof.
  intros Hi Hdir Hd Hc. unfold get_bytes.
  rewrite Hi, (extract_file_id_truthy _ _ Hi).
  unfold _resolve_cache_dir, _handle_local_path_output, attempt, ask.
  cbn [then_ run negb].
  destruct (h _ (os_makedirs dir) w) as [a w1] eqn:E1.
  pose proof (makedirs_on_dir isdir h law dir w Hd) as Ha.
  unfold reply in Ha. rewrite E1 in Ha. cbn [fst] in Ha. subst a.
  cbn [then_ run]. rewrite Hdir. cbn [then_ run].
  pose proof (cached_kept _ (os_makedirs dir) _ _ _ _ _ eq_refl E1 Hc) as Hc1.
  destruct (h _ (os_path_exists (_get_cached_path i dir)) w1)
    as [b w2] eqn:E2.
  pose proof (proj1 Hc1) as Hb. unfold reply in Hb. rewrite E2 in Hb.
  cbn [fst] in Hb. subst b. cbn [then_ run].
  pose proof (cached_kept _ (os_path_exists _) _ _ _ _ _ eq_refl E2 Hc1) as Hc2.
  destruct (h _ (Path_read_bytes (_get_cached_path i dir)) w2)
    as [c w3] eqn:E3.
  pose proof (proj2 Hc2) as Hr. unfold reply in Hr. rewrite E3 in Hr.
  cbn [fst] in Hr. subst c. cbn [then_ run].
  eexists _, _. split; reflexivity.
Qed.

(** A run that returns leaves the cache file in place, holding what was
    returned. *)
Lemma get_bytes_leaves_cached url dir data w w1 tr1 :
  run h (get_bytes url PFalse (PStr dir)) w
  = (Returned (AsBytes data), w1, tr1) ->
  exists i,
    _extract_file_id url = Some i /\ Py.truthy dir = true /\
    isdir dir w1 /\ cached h (_get_cached_path i dir) data w1.
Proof.
  intros H. unfold_get_bytes H.
  destruct (_extract_file_id url) as [i|] eqn:Hi; [|discriminate].
  exists i. split; [reflexivity|].
  destruct (Py.truthy dir) eqn:Hdir.
  2:{ destruct dir; [|discriminate]. exfalso. run_cases.
      all: match goal with
           | E : h _ (os_makedirs "") ?w0 = (Ok _, _) |- _ =>
               apply (makedirs_empty isdir h law w0); unfold reply;
               rewrite E; destruct x; reflexivity
           end. }
  split; [reflexivity|]. run_cases.
  all: repeat match goal with u : unit |- _ => destruct u end.
  all: repeat match goal with
         | E : h _ (os_makedirs ?d) _ = (Ok tt, ?w') |- _ =>
             lazymatch goal with
             | _ : isdir d w' |- _ => fail
             | _ => pose proof (isdir_made _ _ _ E)
             end
         | E : h _ _ ?w0 = (_, ?w'), D : isdir ?d ?w0 |- _ =>
             lazymatch goal with
             | _ : isdir d w' |- _ => fail
             | _ => pose proof (isdir_step _ _ _ _ _ _ E D)
             end
         end.
  all: split; [assumption|].
  all: try solve [eapply cached_written; eassumption].
  match goal with
  | E1 : h _ (os_path_exists ?f) ?w0 = (true, ?w2),
    E2 : h _ (Path_read_bytes ?f) ?w2 = (Ok ?d, _) |- _ =>
      apply (cached_kept _ (Path_read_bytes f) _ _ _ _ _ eq_refl E2);
      split;
      [ pose proof (exists_kept isdir h law _ (os_path_exists f) f w0
                                eq_refl) as Hk;
        unfold reply, world_after in Hk; rewrite E1 in Hk;
        apply Hk; reflexivity
      | unfold reply; rewrite E2; reflexivity ]
  end.
Qed.

(** X23. In an environment that keeps the laws of a file system, the cache
    gives back what was downloaded: after a call of [get_bytes] with a
    cache that returned bytes, the same call returns the same bytes, and
    sends no request. *)
Theorem get_bytes_cache_round_trip url use_cache data w w1 tr1 :
  use_cache <> PFalse ->
  run h (get_bytes url PFalse use_cache) w
  = (Returned (AsBytes data), w1, tr1) ->
  exists w2 tr2,
    run h (get_bytes url PFalse use_cache) w1
    = (Returned (AsBytes data), w2, tr2) /\
    existsb is_get tr2 = false.
Proof.
  intros Huc H. destruct use_cache as [| |dir]; [congruence| |].
  - rewrite get_bytes_default_dir in H |- *.
    destruct (_extract_file_id url) as [i0|] eqn:Hi0; [|discriminate].
    destruct (h _ (os_path_expanduser "~/.cache/pydrivedol/cached/") w)
      as [dir w0] eqn:E0.
    destruct (run h (get_bytes url PFalse (PStr dir)) w0)
      as [[r0 w0'] tr0] eqn:E. injection H as -> -> <-.
    destruct (get_bytes_leaves_cached _ _ _ _ _ _ E)
      as (i & Hi & Hdir & Hd & Hc).
    destruct (h _ (os_path_expanduser "~/.cache/pydrivedol/cached/") w1)
      as [dir' w1'] eqn:E1.
    assert (dir' = dir) as ->.
    { pose proof (expanduser_fixed isdir h law
                    "~/.cache/pydrivedol/cached/" w1 w) as Hx.
      unfold reply in Hx. rewrite E0, E1 in Hx. exact Hx. }
    destruct (get_bytes_cached url i dir data w1' Hi Hdir
                (isdir_step _ _ _ _ _ _ E1 Hd)
                (cached_kept _ (os_path_expanduser _) _ _ _ _ _ eq_refl E1 Hc))
      as (w2 & tr2 & Hrun & Hget).
    rewrite Hrun. eexists _, _. split; [reflexivity|]. exact Hget.
  - destruct (get_bytes_leaves_cached _ _ _ _ _ _ H)
      as (i & Hi & Hdir & Hd & Hc).
    apply (get_bytes_cached url i dir data w1 Hi Hdir Hd Hc).
Qed.

End Lawful.

Lemma box_is_dir_cons d name w :
  Box.is_dir d w = true ->
  Box.is_dir d (Box.World (Box.files w) (name :: Box.dirs w) (Box.temps w))
  = true.
Proof.
  unfold Box.is_dir. cbn [Box.dirs existsb]. intros ->. apply orb_true_r.
Qed.

Lemma box_write_isdir d f data w :
  Box.isdir d w -> Box.isdir d (snd (Box.write f data w)).
Proof.
  intros (Hne & Hd & Hf). unfold Box.write.
  destruct (Box.is_dir f w) eqn:E; [repeat split; assumption|].
  cbn [snd]. repeat split; [exact Hne|exact Hd|].
  cbn [Box.files]. rewrite lookup_insert_ne; [exact Hf|].
  intros ->. congruence.
Qed.

(** The small world keeps the laws. *)
Lemma box_lawful r : lawful Box.isdir (Box.serve r).
Proof.
  split.
  - intros f data w. unfold reply, world_after. cbn [Box.serve].
    unfold Box.write. destruct (Box.is_dir f w) eqn:E; [discriminate|].
    intros _. cbn [fst snd Box.files]. rewrite lookup_insert_eq.
    split; [|reflexivity].
    rewrite bool_decide_eq_true_2 by (eexists; reflexivity). reflexivity.
  - intros X c f w Hk. unfold reply, world_after.
    destruct c; try discriminate; cbn [Box.serve fst snd]; try tauto.
    destruct (String.eqb name ""); [tauto|].
    destruct (Box.files w !! name); [tauto|]. cbn [fst snd Box.files].
    intros H. apply orb_true_iff in H as [H|H]; [rewrite H; reflexivity|].
    rewrite (box_is_dir_cons _ _ _ H). apply orb_true_r.
  - intros X c f data w Hk. unfold reply, world_after.
    destruct c; try discriminate; cbn [Box.serve fst snd]; try tauto.
    destruct (String.eqb name ""); [tauto|].
    destruct (Box.files w !! name); tauto.
  - intros d w. unfold reply, world_after. cbn [Box.serve].
    destruct (String.eqb_spec d "") as [->|Hne]; [discriminate|].
    destruct (Box.files w !! d) eqn:E; [discriminate|]. intros _.
    cbn [snd]. repeat split; [exact Hne| |exact E].
    unfold Box.is_dir. cbn [Box.dirs existsb]. rewrite String.eqb_refl.
    reflexivity.
  - intros d w (Hne & Hd & Hf). unfold reply. cbn [Box.serve].
    destruct (String.eqb_spec d "") as [->|_]; [congruence|].
    rewrite Hf. reflexivity.
  - intros X c d w Hd. unfold world_after.
    destruct c; cbn [Box.serve snd]; try exact Hd;
      try apply box_write_isdir, Hd.
    + destruct (String.eqb name ""); [exact Hd|].
      destruct (Box.files w !! name); [exact Hd|]. cbn [snd].
      destruct Hd as (Hne & Hd & Hf). repeat split; [exact Hne| |exact Hf].
      apply box_is_dir_cons, Hd.
    + destruct (bool_decide _ || Box.is_dir _ w) eqn:E; [exact Hd|].
      cbn [snd]. destruct Hd as (Hne & Hd & Hf).
      repeat split; [exact Hne|exact Hd|]. cbn [Box.files].
      rewrite lookup_insert_ne; [exact Hf|]. intros <-.
      apply orb_false_iff in E as [_ E]. congruence.
  - intros w. unfold reply. cbn [Box.serve String.eqb fst]. discriminate.
  - intros p w w'. reflexivity.
Qed.

Lemma get_bytes_cache_round_trip_witness :
  exists w2 tr2,
    run (Box.serve Box.hi) (get_bytes Box.url PFalse (PStr "c"))
        (snd (fst Box.first_run))
    = (Returned (AsBytes ["h"%byte; "i"%byte]), w2, tr2) /\
    existsb is_get tr2 = false.
Proof.
  apply (get_bytes_cache_round_trip Box.isdir (Box.serve Box.hi)
           (box_lawful Box.hi) Box.url (PStr "c") _ Box.empty
           (snd (fst Box.first_run)) (snd Box.first_run)).
  - discriminate.
  - vm_compute. reflexivity.
Defined.

(** * The constructor *)



Ltac unfold_init H :=
  unfold __init__, _require_pydrive2, _init_google_drive, attempt, ask in H;
  cbn [then_ run negb] in H.



(** X25. A constructor that returns has found the folder identity in the
    URL and has built an instance for the node of that identity, with the
    bound and the hidden flag it was given and no index.  It has got
    authorized in exactly one of the three ways, has loaded and saved the
    credentials under the name it was given and handed over no other file
    name (the settings file is never used); it has made no call of the
    file system or of the network of its own, and its last call is the one
    that gives it the backend, which it has not queried. *)
Theorem init_builds_instance
        W (h : handler W) w node_of available folder_url max_levels_
        credentials_file settings_file include_hidden_ self w' tr :
  run h (__init__ node_of available folder_url max_levels_ credentials_file
                  settings_file include_hidden_) w = (Returned self, w', tr) ->
  (exists i, _extract_folder_id folder_url = Some i /\
             folder_id self = node_of i) /\
  max_levels self = max_levels_ /\
  include_hidden self = include_hidden_ /\
  _file_cache self = None /\
  length (List.filter is_authorization tr) = 1%nat /\
  omap named_file tr = [credentials_file; credentials_file] /\
  existsb is_io tr = false /\
  last tr = Some (Step GoogleDrive (_drive self)).
Proof.
  intros H. unfold_init H. run_cases.
  all: cbn; repeat split; eauto.
Qed.

Lemma init_builds_instance_witness :
  (exists i,
      _extract_folder_id "https://drive.google.com/drive/folders/ABC"
      = Some i /\
      folder_id (MkStore 0%nat (Some 1) false Sample.d0 None) = 0%nat) /\
  max_levels (MkStore 0%nat (Some 1) false Sample.d0 None) = Some 1 /\
  include_hidden (MkStore 0%nat (Some 1) false Sample.d0 None) = false /\
  _file_cache (MkStore 0%nat (Some 1) false Sample.d0 None) = None /\
  length (List.filter is_authorization Box.connect) = 1%nat /\
  omap named_file Box.connect
  = ["client_secrets.json"; "client_secrets.json"] /\
  existsb is_io Box.connect = false /\
  last Box.connect
  = Some (Step GoogleDrive
               (_drive (MkStore 0%nat (Some 1) false Sample.d0 None))).
Proof.
  apply (init_builds_instance Box.world (Box.serve Box.hi) Box.empty
           (fun _ => 0%nat) true "https://drive.google.com/drive/folders/ABC"
           (Some 1) "client_secrets.json" "settings.yaml" false
           (MkStore 0%nat (Some 1) false Sample.d0 None) Box.empty
           Box.connect).
  reflexivity.
Defined.

(** * Sharing *)

Section Sharing.

Variable alternateLink : item -> string.

Lemma file_id_of_run fuel key s r :
  index_is fuel s r ->
  exists cs,
    Forall (fun c => is_list c = true) cs /\
    file_id_of fuel key s
    = Some (match Py.dict r !! key with
            | None => Raise (KeyError key)
            | Some i => Return i
            end, built s r cs).
Proof.
  intros Hidx. destruct (files_index_is _ _ _ Hidx) as (cs & Hcs & Hfiles).
  exists cs. split; [exact Hcs|].
  unfold file_id_of, bind. rewrite Hfiles.
  destruct (Py.dict r !! key) as [i|] eqn:Hk.
  - rewrite bool_decide_eq_true_2 by (eexists; reflexivity). cbn [negb].
    rewrite (files_cached _ _ (Py.dict r)) by reflexivity. rewrite Hk.
    reflexivity.
  - rewrite bool_decide_eq_false_2 by (intros [x Hx]; discriminate).
    reflexivity.
Qed.

Lemma indexed_node_exists fuel s r key i :
  index_is fuel s r -> Py.dict r !! key = Some i ->
  exists g, List.find (has_id i) (items (_drive s)) = Some g.
Proof.
  intros [[cs Ht] _] Hk. apply dict_lookup_Some in Hk.
  pose proof (yielded_exists _ _ _ _ _ _ _ _ _ _ _ Ht Hk) as Hex.
  apply existsb_exists in Hex as (g & Hin & Hg).
  destruct (List.find (has_id i) (items (_drive s))) as [g'|] eqn:E;
    [eauto|].
  pose proof (find_none _ _ E g Hin) as Hn. congruence.
Qed.

(** X26. [get_url] for a key that is not in the index raises [KeyError]
    and grants nothing; the nodes of the backend are as they were. *)
Theorem get_url_missing_key fuel key permission_type permission_role self r :
  index_is fuel (instance self) r -> Py.dict r !! key = None ->
  exists self',
    get_url alternateLink fuel key permission_type permission_role self
    = Some (Raise (KeyError key), self') /\
    permissions self' = permissions self /\
    items (_drive (instance self')) = items (_drive (instance self)).
Proof.
  intros Hidx Hk. destruct (file_id_of_run fuel key _ r Hidx) as (cs & _ & H).
  unfold get_url. rewrite H, Hk. eexists. split; [reflexivity|].
  split; reflexivity.
Qed.

(** X27. [get_url] for a key of the index grants one permission on the
    node the index holds for the key and returns the link of that node; the
    value of the permission is ['anyone'] when its type is ['anyone'] and
    absent otherwise.  It grants each time it is called: a second call adds
    a second, equal permission and returns the same link.  The nodes of the
    backend are as they were and the index stays cached. *)
Theorem get_url_grants_each_time
        fuel key permission_type permission_role self r i :
  index_is fuel (instance self) r -> Py.dict r !! key = Some i ->
  exists g p s1 s2,
    List.find (has_id i) (items (_drive (instance self))) = Some g /\
    p = Permission permission_type
                   (if String.eqb permission_type "anyone"
                    then Some "anyone" else None)
                   permission_role /\
    get_url alternateLink fuel key permission_type permission_role self
    = Some (Return (alternateLink g), s1) /\
    get_url alternateLink fuel key permission_type permission_role s1
    = Some (Return (alternateLink g), s2) /\
    permissions s1 = (permissions self ++ [(i, p)])%list /\
    permissions s2 = (permissions self ++ [(i, p); (i, p)])%list /\
    items (_drive (instance s2)) = items (_drive (instance self)) /\
    _file_cache (instance s2) = Some (Py.dict r).
Proof.
  intros Hidx Hk.
  destruct (indexed_node_exists _ _ _ _ _ Hidx Hk) as (g & Hg).
  destruct (file_id_of_run fuel key _ r Hidx) as (cs & _ & H1).
  rewrite Hk in H1.
  assert (Hidx1 : index_is fuel (built (instance self) r cs) r).
  { rewrite <- (with_drive_same (built (instance self) r cs)).
    apply index_is_built; [exact (proj1 Hidx)|reflexivity]. }
  destruct (file_id_of_run fuel key _ r Hidx1) as (cs' & _ & H2).
  rewrite Hk in H2.
  assert (Hp : (if String.eqb permission_type "anyone"
                then Some permission_type else None)
               = (if String.eqb permission_type "anyone"
                  then Some "anyone" else None)).
  { destruct (String.eqb_spec permission_type "anyone") as [->|_];
      reflexivity. }
  eexists g, _, _, _. split; [exact Hg|]. split; [reflexivity|].
  split.
  { unfold get_url. rewrite H1.
    change (items (_drive (built (instance self) r cs)))
      with (items (_drive (instance self))).
    rewrite Hg, Hp. reflexivity. }
  split.
  { unfold get_url. cbn [instance permissions]. rewrite H2.
    change (items (_drive (built (built (instance self) r cs) r cs')))
      with (items (_drive (instance self))).
    rewrite Hg, Hp. reflexivity. }
  cbn [permissions instance]. rewrite <- app_assoc.
  repeat split.
Qed.

End Sharing.

Lemma get_url_missing_key_witness :
  exists self',
    get_url Box.link 1 "nope" "anyone" "reader"
            (Shared (Sample.store (Some 0) false) [])
    = Some (Raise (KeyError "nope"), self') /\
    permissions self' = [] /\
    items (_drive (instance self')) = Sample.tree.
Proof.
  apply (get_url_missing_key Box.link 1 "nope" "anyone" "reader"
           (Shared (Sample.store (Some 0) false) []) [("r.txt", 1%nat)]
           sample_index_zero).
  vm_compute. reflexivity.
Defined.

Lemma get_url_grants_each_time_witness :
  exists g p s1 s2,
    List.find (has_id 1%nat) Sample.tree = Some g /\
    p = Permission "user" None "writer" /\
    get_url Box.link 1 "r.txt" "user" "writer"
            (Shared (Sample.store (Some 0) false) [])
    = Some (Return (Box.link g), s1) /\
    get_url Box.link 1 "r.txt" "user" "writer" s1
    = Some (Return (Box.link g), s2) /\
    permissions s1 = [(1%nat, p)] /\
    permissions s2 = [(1%nat, p); (1%nat, p)] /\
    items (_drive (instance s2)) = Sample.tree /\
    _file_cache (instance s2) = Some (Py.dict [("r.txt", 1%nat)]).
Proof.
  apply (get_url_grants_each_time Box.link 1 "r.txt" "user" "writer"
           (Shared (Sample.store (Some 0) false) []) [("r.txt", 1%nat)]
           1%nat sample_index_zero).
  vm_compute. reflexivity.
Defined.

(** * Where the cache file lies *)

Lemma id_char_not_slash id :
  Re.all Re.id_char id = true -> Py.startswith_slash id = false.
Proof.
  destruct id as [|a id]; [reflexivity|]. cbn [Re.all Py.startswith_slash].
  intros H. apply andb_true_iff in H as [Ha _].
  apply (id_char_differs a "/" Ha). reflexivity.
Qed.

Lemma search_d_none_path p :
  Re.occurs "drive.google.com/" p = false ->
  Re.search file_pattern_d ("https://drive.google.com/open?id=" +:+ p) = None.
Proof.
  intros Hp. norm_url. skip_prefix.
  apply (search_none_without _ _ _ needs_host_d Hp).
Qed.

Lemma search_open_path p :
  Re.all (Re.is_not "&"%char) p = true -> p <> "" ->
  Re.search file_pattern_open ("https://drive.google.com/open?id=" +:+ p)
  = Some p.
Proof.
  intros Hp Hne. norm_url. skip_prefix. apply search_here.
  match goal with
  | |- Re.match_at _ ?u = _ =>
      change u with ("drive.google.com/open?id=" +:+ p)
  end.
  unfold Re.match_at. cbn [Re.before Re.inside file_pattern_open Re.exec].
  rewrite lit_self. apply group_all; assumption.
Qed.

(** X28. The cache file is the join of the cache directory and the
    identity drawn from the URL.  For an identity of letters, digits, ['-']
    and ['_'] it lies directly in the directory.  An identity that starts
    with ['/'], which a URL of the form [open?id=] can carry, is taken as it
    is: the cache file is that path, whatever the directory, and it is the
    path [get_bytes] looks for right after making the directory. *)
Theorem cache_file_location
        W (h : handler W) w local_path dir file_id p :
  dir <> "" ->
  Re.all Re.id_char file_id = true -> file_id <> "" ->
  Py.startswith_slash p = true ->
  Re.all (Re.is_not "&"%char) p = true ->
  Re.occurs "drive.google.com/" p = false ->
  reply h (os_makedirs dir) w = Ok tt ->
  _get_cached_path file_id dir
  = dir +:+ (if Py.endswith_slash dir then "" else "/") +:+ file_id /\
  _extract_file_id ("https://drive.google.com/open?id=" +:+ p) = Some p /\
  _get_cached_path p dir = p /\
  exists found rest,
    snd (run h (get_bytes ("https://drive.google.com/open?id=" +:+ p)
                          local_path (PStr dir)) w)
    = Step (os_makedirs dir) (Ok tt) :: Step (os_path_exists p) found :: rest.
Proof.
  intros Hdir Hid Hidne Hs Hp Hocc Hm.
  assert (Ht : Py.truthy dir = true) by (destruct dir; [congruence|reflexivity]).
  split.
  { unfold _get_cached_path, Py.os_path_join.
    rewrite (id_char_not_slash _ Hid), Ht. cbn [negb orb].
    destruct (Py.endswith_slash dir); reflexivity. }
  assert (Hne : p <> "") by (destruct p; discriminate).
  assert (Hi : _extract_file_id ("https://drive.google.com/open?id=" +:+ p)
               = Some p).
  { unfold _extract_file_id.
    rewrite (search_d_none_path p Hocc), (search_open_path p Hp Hne).
    reflexivity. }
  assert (Hc : _get_cached_path p dir = p).
  { unfold _get_cached_path, Py.os_path_join. rewrite Hs. reflexivity. }
  split; [exact Hi|]. split; [exact Hc|].
  unfold get_bytes.
  rewrite Hi, (extract_file_id_truthy _ _ Hi). cbn [negb].
  unfold _resolve_cache_dir, attempt, ask. cbn [then_ run].
  unfold reply in Hm.
  destruct (h _ (os_makedirs dir) w) as [a w1]. cbn [fst] in Hm. subst a.
  cbn [then_ run]. rewrite Ht, Hc. cbn [then_ run].
  destruct (h _ (os_path_exists p) w1) as [found w2].
  match goal with
  | |- context [run h ?q w2] => destruct (run h q w2) as [[r w3] tr]
  end.
  exists found, tr. reflexivity.
Qed.

Lemma cache_file_location_witness :
  _get_cached_path "ABC" "c"
  = "c" +:+ (if Py.endswith_slash "c" then "" else "/") +:+ "ABC" /\
  _extract_file_id ("https://drive.google.com/open?id=" +:+ "/etc/x")
  = Some "/etc/x" /\
  _get_cached_path "/etc/x" "c" = "/etc/x" /\
  exists found rest,
    snd (run (Box.serve Box.hi)
             (get_bytes ("https://drive.google.com/open?id=" +:+ "/etc/x")
                        PFalse (PStr "c")) Box.empty)
    = Step (os_makedirs "c") (Ok tt)
      :: Step (os_path_exists "/etc/x") found :: rest.
Proof.
  apply (cache_file_location Box.world (Box.serve Box.hi) Box.empty PFalse
           "c" "ABC" "/etc/x");
    solve [reflexivity | discriminate].
Defined.
